(** * PJSMod_Questionnaire: keyboard-driven survey and paged instructions

    A shallow embedding of [src/PJSMod_Questionnaire.js]: the survey
    question state machine of [SurveyQuestionsModule], the two input
    classes [DiscreteInput] and [ContinuousInput], and the slide stepper of
    [InstructionsModule], followed by the properties of the specification
    that were checked against them.

    Conventions of the embedding.
    - The PsychoJS host (scheduler, event manager, clock, trial handler) is
      a library import.  What a step function reads from it at one
      invocation is an [Env]: the clock reading, the pending key names and
      the trial handler's [finished] flag.
    - A JavaScript exception is a [Throw] in the [Exc] monad.
    - Positions, sizes and colours of stimuli are presentational and are
      left out, except for the activated colour of a discrete option. *)

From Stdlib Require Import ZArith QArith String Ascii List Lia.
From stdpp Require Import base gmap strings list option pretty.
Import ListNotations.
Local Open Scope string_scope.

(* ================================================================== *)
(** * JavaScript values *)

(** The values the module stores in untyped fields: question indices, the
    pending skip index, the recorded choice and value. *)
Inductive jsval : Type :=
| JUndefined
| JNull
| JNum (n : Z)
| JStr (s : string).

#[global] Instance jsval_eq_dec : EqDecision jsval.
Proof. solve_decision. Defined.

Definition digit_of (c : ascii) : option Z :=
  let n := nat_of_ascii c in
  if ((48 <=? n) && (n <=? 57))%nat then Some (Z.of_nat (n - 48)) else None.

Fixpoint digits_value (acc : Z) (s : string) : option Z :=
  match s with
  | EmptyString => Some acc
  | String c s' =>
      match digit_of c with
      | Some d => digits_value (10 * acc + d) s'
      | None => None
      end
  end.

(** String to number conversion, for the strings that denote integers in
    decimal; [None] is NaN.  The empty string converts to 0.  Indices are
    integers here, so the fractional, exponent and hexadecimal literals are
    not modelled. *)
Definition StringToNumber (s : string) : option Z :=
  match s with
  | EmptyString => Some 0%Z
  | String "-" (String c r) => Z.opp <$> digits_value 0 (String c r)
  | String "+" (String c r) => digits_value 0 (String c r)
  | _ => digits_value 0 s
  end.

(** The [==] operator on these values. *)
Definition loose_eq (a b : jsval) : bool :=
  match a, b with
  | JUndefined, JUndefined | JUndefined, JNull
  | JNull, JUndefined | JNull, JNull => true
  | JNum x, JNum y => (x =? y)%Z
  | JStr x, JStr y => String.eqb x y
  | JNum x, JStr s | JStr s, JNum x =>
      match StringToNumber s with
      | Some y => (x =? y)%Z
      | None => false
      end
  | _, _ => false
  end.

(** String conversion, as done by [+] with a string operand. *)
Definition ToString (v : jsval) : string :=
  match v with
  | JUndefined => "undefined"
  | JNull => "null"
  | JNum n => pretty n
  | JStr s => s
  end.

(** [String.prototype.toUpperCase] and [toLowerCase] on ASCII text, which
    is all a key name or a text buffer of this module holds. *)
Definition upper_ascii (c : ascii) : ascii :=
  let n := nat_of_ascii c in
  if ((97 <=? n) && (n <=? 122))%nat then ascii_of_nat (n - 32) else c.

Definition lower_ascii (c : ascii) : ascii :=
  let n := nat_of_ascii c in
  if ((65 <=? n) && (n <=? 90))%nat then ascii_of_nat (n + 32) else c.

Fixpoint string_map (f : ascii -> ascii) (s : string) : string :=
  match s with
  | EmptyString => EmptyString
  | String c s' => String (f c) (string_map f s')
  end.

Definition toUpperCase : string -> string := string_map upper_ascii.
Definition toLowerCase : string -> string := string_map lower_ascii.

(** [s.slice(0, -1)]: the string without its last character. *)
Fixpoint slice_0_m1 (s : string) : string :=
  match s with
  | EmptyString => EmptyString
  | String c EmptyString => EmptyString
  | String c s' => String c (slice_0_m1 s')
  end.

(* ================================================================== *)
(** * Exceptions *)

Inductive Exc (A : Type) : Type :=
| Ok (a : A)
| Throw (e : string).
Arguments Ok {A} a.
Arguments Throw {A} e.

#[global] Instance Exc_ret : MRet Exc := fun A a => Ok a.
#[global] Instance Exc_bind : MBind Exc := fun A B f m =>
  match m with
  | Ok a => f a
  | Throw e => Throw e
  end.

Definition TypeError {A : Type} : Exc A := Throw "TypeError".

(* ================================================================== *)
(** * The host: scheduler, event manager, clock *)

(** [Scheduler.Event]. *)
Inductive Event : Type := NEXT | FLIP_REPEAT.

(** What the host shows a step function at one invocation. *)
Record Env : Type := mkEnv {
  now : Q;                  (* reading of the monotonic clock, seconds *)
  pending : list string;    (* names of the keys pressed and not cleared *)
  trials_finished : bool    (* [trials.finished] of the trial handler *)
}.

(** [eventManager.getKeys({keyList})]: the pending keys that are in
    [keyList], in the order they were pressed. *)
Definition getKeys (keyList : list string) (env : Env) : list string :=
  filter (fun k => k ∈ keyList) (pending env).

(** The sequential [TrialHandler] yields [nReps] times its trial list; an
    undefined list stands for one trial. *)
Definition TrialHandler_nTotal {A : Type} (nReps : nat) (trialList : option (list A)) : nat :=
  nReps * match trialList with
          | None => 1
          | Some l => length l
          end.

Section Scheduler.
Context {Task State : Type}.

(** A task returns the new state, the scheduler event and whether it
    called [scheduler.stop()]. *)
Variable step : Task -> Env -> State -> Exc (State * Event * bool).

Inductive Outcome : Type :=
| Finished (st : State)                      (* task list exhausted *)
| Stopped (st : State)                       (* [scheduler.stop()] *)
| Waiting (st : State) (tasks : list Task)   (* no invocation left *)
| Threw (e : string).

Record Run : Type := mkRun {
  outcome : Outcome;
  completed : list (Task * State)  (* tasks that returned NEXT, oldest first *)
}.

Definition logged (t : Task) (st : State) (r : Run) : Run :=
  mkRun (outcome r) ((t, st) :: completed r).

(** The scheduler: the task at the head is invoked once per entry of
    [envs]; on [FLIP_REPEAT] it stays at the head, on [NEXT] it is
    dropped. *)
Fixpoint run (tasks : list Task) (envs : list Env) (st : State) : Run :=
  match tasks with
  | [] => mkRun (Finished st) []
  | t :: ts =>
      match envs with
      | [] => mkRun (Waiting st tasks) []
      | e :: es =>
          match step t e st with
          | Throw m => mkRun (Threw m) []
          | Ok (st', FLIP_REPEAT, _) => run tasks es st'
          | Ok (st', NEXT, true) => mkRun (Stopped st') [(t, st')]
          | Ok (st', NEXT, false) => logged t st' (run ts es st')
          end
      end
  end.
End Scheduler.

Arguments Outcome : clear implicits.
Arguments Run : clear implicits.

(* ================================================================== *)
(** * InstructionsModule: the paged instructions stepper *)

Module Instructions.

(** Maximum loop of instructions before continuing on. *)
Definition MAX_INSTRUCTIONS : nat := 200.

Record Resource : Type := mkResource { name : string; path : string }.

(** An entry of [instructionsCache]. *)
Record Instr : Type := mkInstr {
  resources : list Resource;
  currentIndex : Z
}.

(** [currInstr] is a reference to an entry of the cache: it is kept as
    the name of that entry, so that a write through it is a write to the
    cache. *)
Record State : Type := mkState {
  instructionsCache : gmap string Instr;
  currInstr : option string;
  slideFinished : bool;
  image : option string;      (* name of the image shown *)
  image_autoDraw : bool
}.

Definition constructor : State := mkState ∅ None false None false.

Definition deref (st : State) : Exc Instr :=
  match currInstr st with
  | None => TypeError
  | Some n =>
      match instructionsCache st !! n with
      | None => TypeError
      | Some i => Ok i
      end
  end.

Definition set_currentIndex (st : State) (i : Z) : State :=
  match currInstr st with
  | None => st
  | Some n =>
      mkState (alter (fun c => mkInstr (resources c) i) n (instructionsCache st))
              (currInstr st) (slideFinished st) (image st) (image_autoDraw st)
  end.

Definition set_slideFinished (st : State) (b : bool) : State :=
  mkState (instructionsCache st) (currInstr st) b (image st) (image_autoDraw st).

(** [resources[i]] for a number [i]. *)
Definition nth_resource (l : list Resource) (i : Z) : option Resource :=
  if (i <? 0)%Z then None else l !! Z.to_nat i.

Inductive Task : Type :=
| TBegin (instructionsName : string)
| TEachFrame
| TEnd
| TCheck.

#[global] Instance Task_eq_dec : EqDecision Task.
Proof. solve_decision. Defined.

(** The four tasks scheduled for one trial of the handler. *)
Definition iteration (instructionsName : string) : list Task :=
  [TBegin instructionsName; TEachFrame; TEnd; TCheck].

(** The cache entry is written when the loop is generated; the tasks are
    those the returned closure schedules, four per trial of a handler
    with [nReps: MAX_INSTRUCTIONS] and no trial list. *)
Definition _generateInstructionsLoop
    (instructionsResources : list Resource) (instructionsName : string)
    (st : State) : State * list Task :=
  (mkState (<[instructionsName := mkInstr instructionsResources 0]> (instructionsCache st))
           (currInstr st) (slideFinished st) (image st) (image_autoDraw st),
   concat (replicate (TrialHandler_nTotal MAX_INSTRUCTIONS (@None (list unit)))
                     (iteration instructionsName))).

Definition _InstructionsRoutineBegin (instructionsName : string) (st : State)
  : Exc (State * Event) :=
  let st1 := mkState (instructionsCache st) (Some instructionsName)
                     (slideFinished st) (image st) (image_autoDraw st) in
  c ← deref st1;
  match nth_resource (resources c) (currentIndex c) with
  | None => TypeError
  | Some r =>
      Ok (mkState (instructionsCache st1) (currInstr st1) false (Some (name r)) true,
          NEXT)
  end.

(** The position update of one frame, for the first pressed key [k], the
    position [i] and [n] slides. *)
Definition press (k : string) (n i : Z) : option Z :=
  if bool_decide (k = "n") && (i <? n - 1)%Z then Some (i + 1)%Z
  else if bool_decide (k = "b") && (i >? 0)%Z then Some (i - 1)%Z
  else if bool_decide (k = "f") && (i =? n - 1)%Z then Some (-1)%Z
  else None.

Definition _InstructionsRoutineEachFrame (env : Env) (st : State)
  : Exc (State * Event) :=
  let buttonPress := getKeys ["b"; "n"; "f"] env in
  st' ← match buttonPress with
        | [] => Ok st
        | k :: _ =>
            c ← deref st;
            match press k (Z.of_nat (length (resources c))) (currentIndex c) with
            | Some i => Ok (set_currentIndex (set_slideFinished st true) i)
            | None => Ok st
            end
        end;
  Ok (st', if slideFinished st' then NEXT else FLIP_REPEAT).

Definition _InstructionsRoutineEnd (st : State) : State * Event :=
  (mkState (instructionsCache st) (currInstr st) (slideFinished st) (image st) false,
   NEXT).

(** The end condition: at the sentinel the scheduler is stopped. *)
Definition check (st : State) : Exc (State * Event * bool) :=
  c ← deref st;
  Ok (st, NEXT, bool_decide (currentIndex c = (-1)%Z)).

Definition step (t : Task) (env : Env) (st : State) : Exc (State * Event * bool) :=
  match t with
  | TBegin n => r ← _InstructionsRoutineBegin n st; Ok (r, false)
  | TEachFrame => r ← _InstructionsRoutineEachFrame env st; Ok (r, false)
  | TEnd => Ok (_InstructionsRoutineEnd st, false)
  | TCheck => check st
  end.

(** The position of the instructions being shown. *)
Definition position (st : State) : option Z :=
  match deref st with
  | Ok c => Some (currentIndex c)
  | Throw _ => None
  end.

(** One run of [addInstructions]: generate the loop, then let the
    scheduler run its tasks. *)
Definition addInstructions (instructionsResources : list Resource)
    (instructionsName : string) (envs : list Env) (st : State) : Run Task State :=
  let '(st0, tasks) := _generateInstructionsLoop instructionsResources instructionsName st in
  run step tasks envs st0.

(** Navigation steps of a run: the frames that moved the position. *)
Definition navigations (r : Run Task State) : nat :=
  length (filter (fun c => c.1 = TEachFrame) (completed r)).

End Instructions.


(* ================================================================== *)
(** * The survey description *)

(** An entry of [inputs]: the key that selects the option and the value
    displayed for it. *)
Record OptionSpec : Type := mkOption { opt_key : string; opt_value : string }.

(** An entry of [skips]: the key and the index of the question to skip to. *)
Record SkipEntry : Type := mkSkip { skip_key : string; skip_index : jsval }.

(** The [input] object of a question, by its [type], and the entries of
    [specify], which have the structure of a question themselves.  A field
    the survey may leave out is an [option]. *)
Inductive InputSpec : Type :=
| DISCRETE (inputs : option (list OptionSpec))
           (specify : option (list SpecifyEntry))
           (skips : option (list SkipEntry))
| CONTINUOUS (keyList : option string)
             (maxLength : option nat)
             (specify : option (list SpecifyEntry))
with SpecifyEntry : Type :=
| mkSpecify (key : string) (question : string) (input : InputSpec).

Definition specify_key (e : SpecifyEntry) : string :=
  match e with mkSpecify k _ _ => k end.
Definition specify_question (e : SpecifyEntry) : string :=
  match e with mkSpecify _ q _ => q end.
Definition specify_input (e : SpecifyEntry) : InputSpec :=
  match e with mkSpecify _ _ i => i end.

(** [input.type]. *)
Definition input_type (i : InputSpec) : string :=
  match i with
  | DISCRETE _ _ _ => "DISCRETE"
  | CONTINUOUS _ _ _ => "CONTINUOUS"
  end.

Record QuestionSpec : Type := mkQuestion {
  q_index : jsval;
  q_question : string;
  q_input : InputSpec
}.

Record Survey : Type := mkSurvey {
  set : string;
  survey_linger : Q;
  instructions : option string;
  questions : list QuestionSpec
}.

(** What [optionSelected] returns. *)
Record Behavior : Type := mkBehavior {
  b_value : jsval;
  b_specify : option SpecifyEntry;
  b_skip : option SkipEntry
}.

(** [Array.prototype.find]. *)
Definition find {A : Type} (p : A -> bool) (l : list A) : option A := List.find p l.

(* ================================================================== *)
(** * DiscreteInput *)

Module DiscreteInput.

Record TextStim : Type := mkStim {
  text : string;
  autoDraw : bool;
  activated : bool   (* drawn in [activatedColor] *)
}.

Record Stimulus : Type := mkStimulus { key : string; value : string; stim : TextStim }.

Record Options : Type := mkOptions { showKeyAndValue : bool; behavior : string }.

Record t : Type := mk {
  options : Options;
  stimuli : gmap string Stimulus;
  specify : list SpecifyEntry;
  skips : list SkipEntry
}.

Definition name : string := "DISCRETE".

(** The list of keys.  It is only used as the key filter of [getKeys], so
    its order does not matter. *)
Definition getKeys (d : t) : list string := (map_to_list (stimuli d)).*1.

Definition new_stimulus (o : Options) (el : OptionSpec) : Stimulus :=
  mkStimulus (opt_key el) (opt_value el)
    (mkStim (if showKeyAndValue o
             then "(" ++ opt_key el ++ ") " ++ opt_value el
             else opt_value el)
            false false).

(** Builds all the input stimuli.  [Object.keys(inputs)] throws on a
    missing [inputs]. *)
Definition build (o : Options) (inputs : option (list OptionSpec))
    (specify : list SpecifyEntry) (skips : list SkipEntry) : Exc t :=
  match inputs with
  | None => TypeError
  | Some l =>
      Ok (mk o (foldl (fun m el => <[opt_key el := new_stimulus o el]> m) ∅ l)
             specify skips)
  end.

Definition set_stim (f : TextStim -> TextStim) (s : Stimulus) : Stimulus :=
  mkStimulus (key s) (value s) (f (stim s)).

(** Changes all the colour back to unactivated and stops drawing. *)
Definition reset (d : t) : t :=
  mk (options d)
     (set_stim (fun s => mkStim (text s) false false) <$> stimuli d)
     (specify d) (skips d).

Definition setAutoDraw (b : bool) (d : t) : t :=
  mk (options d)
     (set_stim (fun s => mkStim (text s) b (activated s)) <$> stimuli d)
     (specify d) (skips d).

(** Selects an option.  [stimuli[key]] is the property named by the
    string conversion of [key], and [.stim] throws when there is none; a
    missing argument is [undefined], which no key of an entry equals. *)
Definition optionSelected (k : option string) (d : t) : Exc (t * Behavior) :=
  let isolated := String.eqb (behavior (options d)) "isolate" in
  let d1 := if isolated then setAutoDraw false d else d in
  let prop := default "undefined" k in
  let key_is (s : string) := match k with Some k' => String.eqb s k' | None => false end in
  match stimuli d1 !! prop with
  | None => TypeError
  | Some s =>
      let s' := set_stim (fun x => mkStim (text x) (if isolated then true else autoDraw x) true) s in
      Ok (mk (options d1) (<[prop := s']> (stimuli d1)) (specify d1) (skips d1),
          mkBehavior (JStr (value s'))
                     (find (fun el => key_is (specify_key el)) (specify d))
                     (find (fun el => key_is (skip_key el)) (skips d)))
  end.

End DiscreteInput.

(* ================================================================== *)
(** * ContinuousInput *)

Module ContinuousInput.

Definition LETTERS : list string :=
  ["a";"b";"c";"d";"e";"f";"g";"h";"i";"j";"k";"l";"m";"n";"o";
   "p";"q";"r";"s";"t";"u";"v";"w";"x";"y";"z";"minus";"space"].
Definition FUNCTIONALITY : list string := ["return"; "backspace"; "enter"].
Definition NUMBERS : list string := ["0";"1";"2";"3";"4";"5";"6";"7";"8";"9"].

(** [text] is the text of the stimulus, [this.stimuli.text]. *)
Record t : Type := mk {
  keyList : option string;
  maxLength : nat;
  specify : list SpecifyEntry;
  text : string;
  autoDraw : bool
}.

Definition name : string := "CONTINUOUS".

(** Builds the continuous input; [maxLength] defaults to 10. *)
Definition build (keyList : option string) (maxLength : option nat)
    (specify : list SpecifyEntry) : t :=
  mk keyList (default 10 maxLength) specify "" false.

(** [switch (this.keyList)]; a missing key list takes the default case. *)
Definition getKeys (c : t) : list string :=
  match keyList c with
  | Some k =>
      if String.eqb k "NUMBERS" then NUMBERS ++ FUNCTIONALITY
      else if String.eqb k "LETTERS" then LETTERS ++ FUNCTIONALITY
      else NUMBERS ++ LETTERS ++ FUNCTIONALITY
  | None => NUMBERS ++ LETTERS ++ FUNCTIONALITY
  end.

Definition set_text (s : string) (c : t) : t :=
  mk (keyList c) (maxLength c) (specify c) s (autoDraw c).

Definition setAutoDraw (b : bool) (c : t) : t :=
  mk (keyList c) (maxLength c) (specify c) (text c) b.

(** Removes the text. *)
Definition reset (c : t) : t := setAutoDraw false (set_text "" c).

(** Sets the text on the continuous input. *)
Definition keyIn (keyName : string) (c : t) : t :=
  if String.eqb keyName "backspace" then set_text (slice_0_m1 (text c)) c
  else if (String.length (text c) <? maxLength c)%nat then
    if String.eqb keyName "space" then set_text (text c ++ " ") c
    else if String.eqb keyName "minus" then set_text (text c ++ "-") c
    else set_text (text c ++ toUpperCase keyName) c
  else c.

(** On user pressing enter. *)
Definition optionSelected (c : t) : Behavior :=
  mkBehavior (JStr (text c))
             (find (fun el => String.eqb (specify_key el) (toLowerCase (text c))) (specify c))
             None.

End ContinuousInput.

(** [this.currentInput]: one of the two input objects.  Every field an
    input object reads is written by its [build], so the object is kept by
    value, as built. *)
Inductive Input : Type :=
| Discrete (d : DiscreteInput.t)
| Continuous (c : ContinuousInput.t).

Definition Input_name (i : Input) : string :=
  match i with
  | Discrete _ => DiscreteInput.name
  | Continuous _ => ContinuousInput.name
  end.

Definition Input_getKeys (i : Input) : list string :=
  match i with
  | Discrete d => DiscreteInput.getKeys d
  | Continuous c => ContinuousInput.getKeys c
  end.

Definition Input_setAutoDraw (b : bool) (i : Input) : Input :=
  match i with
  | Discrete d => Discrete (DiscreteInput.setAutoDraw b d)
  | Continuous c => Continuous (ContinuousInput.setAutoDraw b c)
  end.

Definition Input_reset (i : Input) : Input :=
  match i with
  | Discrete d => Discrete (DiscreteInput.reset d)
  | Continuous c => Continuous (ContinuousInput.reset c)
  end.

(** [optionSelected(key)]; the continuous input ignores its argument. *)
Definition Input_optionSelected (k : option string) (i : Input) : Exc (Input * Behavior) :=
  match i with
  | Discrete d =>
      r ← DiscreteInput.optionSelected k d;
      Ok (Discrete r.1, r.2)
  | Continuous c => Ok (i, ContinuousInput.optionSelected c)
  end.

(** [keyIn] is a method of the continuous input only. *)
Definition Input_keyIn (keyName : string) (i : Input) : Exc Input :=
  match i with
  | Discrete _ => TypeError
  | Continuous c => Ok (Continuous (ContinuousInput.keyIn keyName c))
  end.

(** The options of [BuiltDiscreteInput]. *)
Definition BuiltDiscreteInput_options : DiscreteInput.Options :=
  DiscreteInput.mkOptions true "isolate".

(* ================================================================== *)
(** * SurveyQuestionsModule *)

Module SurveyQuestions.

Inductive RunStatus : Type :=
| SURVEY_CONTINUING
| SURVEY_SKIPPING
| SURVEY_BEGIN_SKIP.

#[global] Instance RunStatus_eq_dec : EqDecision RunStatus.
Proof. solve_decision. Defined.

Definition TAKING_DISCRETE : Z := 1.   (* Trial stage for discrete input *)
Definition TAKING_CONTINUOUS : Z := 2. (* Trial stage for continuous input *)
Definition DISPLAY_RESPONSE : Z := 3.  (* Trial stage for displaying response with linger *)

(** [PsychoJS.Status] of a stimulus, as far as the module tests it. *)
Inductive Status : Type := NOT_STARTED | STARTED | STOPPED.

(** The text stimulus [this.question].  The module never defines its
    [index] property; [_initQuestion] creates it without one. *)
Record QuestionStim : Type := mkQuestionStim {
  text : string;
  index : jsval;
  autoDraw : bool;
  status : Status
}.

Definition _initQuestion : QuestionStim :=
  mkQuestionStim
    "You will now be asked some survey questions.
Feel free to take a break at this point.
Press Enter to continue when you are ready."
    JUndefined false NOT_STARTED.

(** The value of [RT]: a clock reading, [null] before the answer, or
    undefined in the empty object. *)
Inductive RTval : Type := RTUndefined | RTNull | RTSeconds (t : Q).

(** An entry pushed on [currentData.specify]. *)
Record SpecifyAnswer : Type := mkSpecifyAnswer {
  sa_question : string;
  sa_choice : jsval;
  sa_RT : Q;
  sa_value : jsval
}.

(** [this.currentData], the data being recorded for a question. *)
Record AnswerRecord : Type := mkAnswer {
  survey : jsval;
  question_index : jsval;
  question : jsval;
  question_type : jsval;
  choice : jsval;
  RT : RTval;
  value : jsval;
  specify : option (list SpecifyAnswer)
}.

(** The object [{}]: every property undefined. *)
Definition empty_object : AnswerRecord :=
  mkAnswer JUndefined JUndefined JUndefined JUndefined JUndefined RTUndefined JUndefined None.

(** [this.specify]: [{}] when a question begins, then the [specify] of the
    last behaviour. *)
Inductive SpecifyVal : Type :=
| SpecEmptyObject
| SpecUndefined
| SpecEntry (e : SpecifyEntry).

(** A call on the data sink, with its category and the record handed over. *)
Inductive SinkCall : Type :=
| recordUnstructuredData (category : string) (data : AnswerRecord)
| addData (category : string) (data : AnswerRecord).

Record State : Type := mkState {
  psiTurk : bool;                 (* is there a PsiTurk instance *)
  question_stim : QuestionStim;   (* [this.question] *)
  currentInput : option Input;
  survey_set : jsval;
  survey_run_status : RunStatus;
  linger : Q;
  skipIndex : jsval;
  currentData : AnswerRecord;
  specify_next : SpecifyVal;      (* [this.specify] *)
  trialStage : Z;
  clock : Q;                      (* clock reading at the last [clock.reset()] *)
  sink : list SinkCall            (* calls on the sink, oldest first *)
}.

Definition set_question_stim (v : QuestionStim) (s : State) : State :=
  mkState (psiTurk s) v (currentInput s) (survey_set s) (survey_run_status s) (linger s)
          (skipIndex s) (currentData s) (specify_next s) (trialStage s) (clock s) (sink s).
Definition set_currentInput (v : option Input) (s : State) : State :=
  mkState (psiTurk s) (question_stim s) v (survey_set s) (survey_run_status s) (linger s)
          (skipIndex s) (currentData s) (specify_next s) (trialStage s) (clock s) (sink s).
Definition set_survey_set (v : jsval) (s : State) : State :=
  mkState (psiTurk s) (question_stim s) (currentInput s) v (survey_run_status s) (linger s)
          (skipIndex s) (currentData s) (specify_next s) (trialStage s) (clock s) (sink s).
Definition set_survey_run_status (v : RunStatus) (s : State) : State :=
  mkState (psiTurk s) (question_stim s) (currentInput s) (survey_set s) v (linger s)
          (skipIndex s) (currentData s) (specify_next s) (trialStage s) (clock s) (sink s).
Definition set_linger (v : Q) (s : State) : State :=
  mkState (psiTurk s) (question_stim s) (currentInput s) (survey_set s) (survey_run_status s) v
          (skipIndex s) (currentData s) (specify_next s) (trialStage s) (clock s) (sink s).
Definition set_skipIndex (v : jsval) (s : State) : State :=
  mkState (psiTurk s) (question_stim s) (currentInput s) (survey_set s) (survey_run_status s) (linger s)
          v (currentData s) (specify_next s) (trialStage s) (clock s) (sink s).
Definition set_currentData (v : AnswerRecord) (s : State) : State :=
  mkState (psiTurk s) (question_stim s) (currentInput s) (survey_set s) (survey_run_status s) (linger s)
          (skipIndex s) v (specify_next s) (trialStage s) (clock s) (sink s).
Definition set_specify_next (v : SpecifyVal) (s : State) : State :=
  mkState (psiTurk s) (question_stim s) (currentInput s) (survey_set s) (survey_run_status s) (linger s)
          (skipIndex s) (currentData s) v (trialStage s) (clock s) (sink s).
Definition set_trialStage (v : Z) (s : State) : State :=
  mkState (psiTurk s) (question_stim s) (currentInput s) (survey_set s) (survey_run_status s) (linger s)
          (skipIndex s) (currentData s) (specify_next s) v (clock s) (sink s).
Definition set_clock (v : Q) (s : State) : State :=
  mkState (psiTurk s) (question_stim s) (currentInput s) (survey_set s) (survey_run_status s) (linger s)
          (skipIndex s) (currentData s) (specify_next s) (trialStage s) v (sink s).
Definition set_sink (v : list SinkCall) (s : State) : State :=
  mkState (psiTurk s) (question_stim s) (currentInput s) (survey_set s) (survey_run_status s) (linger s)
          (skipIndex s) (currentData s) (specify_next s) (trialStage s) (clock s) v.

(** The module after its constructor and [initStimuli]; fields not yet
    assigned are undefined, and an undefined run status or trial stage
    passes every test as [SURVEY_CONTINUING] and the stage [-1] do. *)
Definition initStimuli (psiTurk : bool) : State :=
  mkState psiTurk _initQuestion None JUndefined SURVEY_CONTINUING 0 JUndefined
          empty_object SpecUndefined (-1) 0 [].

(** [this.clock.reset()] and [this.clock.getTime()]. *)
Definition clock_reset (env : Env) (s : State) : State := set_clock (now env) s.
Definition clock_getTime (env : Env) (s : State) : Q := now env - clock s.

(** [this.question.text = v]. *)
Definition set_question_text (v : string) (s : State) : State :=
  let q := question_stim s in
  set_question_stim (mkQuestionStim v (index q) (autoDraw q) (status q)) s.

(** [this.question.setAutoDraw(b)], which also sets the status of the
    stimulus to started or stopped. *)
Definition question_setAutoDraw (b : bool) (s : State) : State :=
  let q := question_stim s in
  set_question_stim (mkQuestionStim (text q) (index q) b (if b then STARTED else STOPPED)) s.

(** [this.question.status = v]. *)
Definition set_question_status (v : Status) (s : State) : State :=
  let q := question_stim s in
  set_question_stim (mkQuestionStim (text q) (index q) (autoDraw q) v) s.

(** [_buildLoopStimuli(question)], for the two properties of its argument
    that it reads: the text [question.question] and [question.input]. *)
Definition _buildLoopStimuli (question_text : string) (input : InputSpec) (s : State)
  : Exc State :=
  let s1 := set_question_text question_text s in
  match input with
  | DISCRETE inputs specify skips =>
      d ← DiscreteInput.build BuiltDiscreteInput_options inputs
            (default [] specify) (default [] skips);
      Ok (set_currentInput (Some (Discrete d)) s1)
  | CONTINUOUS keyList maxLength specify =>
      Ok (set_currentInput
            (Some (Continuous (ContinuousInput.build keyList maxLength (default [] specify))))
            s1)
  end.

Definition _SurveyDisplayInstructions (env : Env) (s : State) : State * Event :=
  if String.eqb (text (question_stim s)) "" then (s, NEXT)
  else
    let s1 := match status (question_stim s) with
              | NOT_STARTED => question_setAutoDraw true s
              | _ => s
              end in
    match getKeys ["enter"; "return"] env with
    | [] => (s1, FLIP_REPEAT)
    | _ :: _ =>
        (set_question_status NOT_STARTED
           (question_setAutoDraw false (set_question_text "" s1)), NEXT)
    end.

(** [beginSurveySection]: displays the opening text until enter is
    pressed.  While the stimulus is not started it is drawn and the events
    are cleared, which empties the key buffer before the keys are read. *)
Definition beginSurveySection (env : Env) (s : State) : State * Event :=
  let first := match status (question_stim s) with
               | NOT_STARTED => true
               | _ => false
               end in
  let s1 := if first then question_setAutoDraw true s else s in
  let keys := if first then [] else getKeys ["enter"; "return"] env in
  match keys with
  | [] => (s1, FLIP_REPEAT)
  | _ :: _ =>
      (set_survey_run_status SURVEY_CONTINUING
         (set_question_status NOT_STARTED
            (question_setAutoDraw false (set_question_text "" s1))), NEXT)
  end.

(** The data being recorded for a question, when it begins. *)
Definition new_currentData (q : QuestionSpec) (s : State) : AnswerRecord :=
  mkAnswer (survey_set s) (q_index q) (JStr (q_question q)) (JStr (input_type (q_input q)))
           JNull RTNull JNull (Some []).

Definition _SurveyQuestionBegin (q : QuestionSpec) (env : Env) (s : State)
  : Exc (State * Event) :=
  let resumed :=
    match survey_run_status s with
    | SURVEY_SKIPPING =>
        if loose_eq (index (question_stim s)) (skipIndex s)
        then Some (set_survey_run_status SURVEY_CONTINUING (set_skipIndex (JStr "none") s))
        else None
    | _ => Some s
    end in
  match resumed with
  | None => Ok (s, NEXT)
  | Some s1 =>
      (* Initialize input-taking things *)
      let s2 := clock_reset env s1 in
      let s3 := set_currentData (new_currentData q s2) s2 in
      let s4 := set_skipIndex (JStr "none") (set_specify_next SpecEmptyObject s3) in
      let s5 := set_trialStage 0 s4 in
      s6 ← _buildLoopStimuli (q_question q) (q_input q) s5;
      Ok (s6, NEXT)
  end.

(** The bookkeeping both input stages do with an answer:
    [if (this.currentData.choice == null) {...} else {...specify.push(...)}],
    where [c] is the recorded choice, the key or [undefined]. *)
Definition record_answer (c : jsval) (b : Behavior) (env : Env) (s : State) : Exc State :=
  let d := currentData s in
  if loose_eq (choice d) JNull then
    Ok (set_currentData
          (mkAnswer (survey d) (question_index d) (question d) (question_type d)
                    c (RTSeconds (clock_getTime env s)) (b_value b) (specify d)) s)
  else
    match specify d with
    | None => TypeError
    | Some l =>
        Ok (set_currentData
              (mkAnswer (survey d) (question_index d) (question d) (question_type d)
                        (choice d) (RT d) (value d)
                        (Some (l ++ [mkSpecifyAnswer (text (question_stim s)) c
                                       (clock_getTime env s) (b_value b)])%list)) s)
    end.

(** [this.specify = behavior.specify]. *)
Definition specify_of (b : Behavior) : SpecifyVal :=
  match b_specify b with
  | None => SpecUndefined
  | Some e => SpecEntry e
  end.

(** The body of [case TAKING_DISCRETE], for a key press. *)
Definition take_discrete (k : string) (env : Env) (s : State) : Exc State :=
  match currentInput s with
  | None => TypeError
  | Some ci =>
      r ← Input_optionSelected (Some k) ci;
      s1 ← record_answer (JStr k) r.2 env (set_currentInput (Some r.1) s);
      let s2 := set_specify_next (specify_of r.2) s1 in
      let s3 := match b_skip r.2 with
                | Some sk => set_skipIndex (skip_index sk) s2
                | None => s2
                end in
      Ok (clock_reset env (set_trialStage DISPLAY_RESPONSE s3))
  end.

(** The branch of the continuous loop for the submit keys. *)
Definition take_continuous (env : Env) (s : State) : Exc State :=
  match currentInput s with
  | None => TypeError
  | Some ci =>
      r ← Input_optionSelected None ci;
      s1 ← record_answer JUndefined r.2 env (set_currentInput (Some r.1) s);
      Ok (clock_reset env (set_trialStage DISPLAY_RESPONSE
                             (set_specify_next (specify_of r.2) s1)))
  end.

(** [for (const key of input) {...}] of [case TAKING_CONTINUOUS]: one
    iteration per element of [keys], the rest of [input]; the key name of
    every iteration is read from [input[0]]. *)
Fixpoint for_key_of (input keys : list string) (env : Env) (s : State) : Exc State :=
  match keys with
  | [] => Ok s
  | _ :: keys' =>
      match head input with
      | None => TypeError
      | Some keyName =>
          if String.eqb keyName "return" || String.eqb keyName "enter"
          then take_continuous env s   (* break *)
          else
            match currentInput s with
            | None => TypeError
            | Some ci =>
                ci' ← Input_keyIn keyName ci;
                for_key_of input keys' env (set_currentInput (Some ci') s)
            end
      end
  end.

(** The body of [case DISPLAY_RESPONSE] once the linger has passed. *)
Definition end_display (s : State) : Exc State :=
  match currentInput s with
  | None => TypeError
  | Some ci =>
      let s1 := set_currentInput (Some (Input_reset ci)) s in
      match specify_next s1 with
      | SpecUndefined =>
          (* If no more specifies, the switch is done *)
          let s2 := if negb (loose_eq (skipIndex s1) (JStr "none"))
                    then set_survey_run_status SURVEY_BEGIN_SKIP s1
                    else s1 in
          Ok (set_trialStage (-1) s2)
      | SpecEntry e =>
          (* Otherwise, reset the loop to the beginning *)
          s2 ← _buildLoopStimuli (specify_question e) (specify_input e) s1;
          Ok (set_trialStage 0 s2)
      | SpecEmptyObject => TypeError   (* [{}] has no [input] *)
      end
  end.

(** Asks one question of the survey. *)
Definition _SurveyQuestionLoop (env : Env) (s : State) : Exc (State * Event) :=
  match survey_run_status s with
  | SURVEY_SKIPPING => Ok (s, NEXT)
  | _ =>
      if (trialStage s =? 0)%Z then
        (* Haven't asked question, render current input *)
        let s1 := question_setAutoDraw true s in
        match currentInput s1 with
        | None => TypeError
        | Some ci =>
            let ci' := Input_setAutoDraw true ci in
            Ok (set_trialStage
                  (if String.eqb (Input_name ci') "CONTINUOUS"
                   then TAKING_CONTINUOUS else TAKING_DISCRETE)
                  (set_currentInput (Some ci') s1), FLIP_REPEAT)
        end
      else if (trialStage s =? TAKING_DISCRETE)%Z then
        (* Waiting for user input on discrete input *)
        match currentInput s with
        | None => TypeError
        | Some ci =>
            match getKeys (Input_getKeys ci) env with
            | [] => Ok (s, FLIP_REPEAT)
            | k :: _ => s' ← take_discrete k env s; Ok (s', FLIP_REPEAT)
            end
        end
      else if (trialStage s =? TAKING_CONTINUOUS)%Z then
        (* User answered, taking specification input *)
        match currentInput s with
        | None => TypeError
        | Some ci =>
            let input := getKeys (Input_getKeys ci) env in
            s' ← for_key_of input input env s; Ok (s', FLIP_REPEAT)
        end
      else if (trialStage s =? DISPLAY_RESPONSE)%Z then
        (* User answered, show what they answered *)
        if Qle_bool (linger s) (clock_getTime env s)
        then s' ← end_display s; Ok (s', FLIP_REPEAT)
        else Ok (s, FLIP_REPEAT)
      else
        (* Done with question *)
        Ok (question_setAutoDraw false s, NEXT)
  end.

(** The category of a record: [survey_set + '_' + question_index]. *)
Definition category (s : State) : string :=
  ToString (survey_set s) ++ "_" ++ ToString (question_index (currentData s)).

(** Saves the survey question response and moves onto next question. *)
Definition _SurveyQuestionEnd (s : State) : State * Event :=
  match survey_run_status s with
  | SURVEY_SKIPPING => (s, NEXT)
  | st =>
      let s1 := match st with
                | SURVEY_BEGIN_SKIP => set_survey_run_status SURVEY_SKIPPING s
                | _ => s
                end in
      let call := if psiTurk s1
                  then recordUnstructuredData (category s1) (currentData s1)
                  else addData (category s1) (currentData s1) in
      (set_currentData empty_object (set_sink (sink s1 ++ [call])%list s1), NEXT)
  end.

(** The tasks [_generateSurveyQuestionsLoop] schedules. *)
Inductive Task : Type :=
| TInstructions (survey : Survey)
| TBegin (question : QuestionSpec)
| TLoop
| TEnd
| TFinish.

(** The first scheduled task. *)
Definition instructions_task (survey : Survey) (env : Env) (s : State) : State * Event :=
  let s1 := set_survey_set (JStr (set survey)) s in
  let s2 := set_survey_run_status SURVEY_CONTINUING s1 in
  let s3 := set_question_text (default "" (instructions survey)) s2 in
  _SurveyDisplayInstructions env s3.

(** The four tasks of a survey question iteration. *)
Definition iteration (q : QuestionSpec) : list Task := [TBegin q; TLoop; TEnd; TFinish].

(** The closure returned by [_generateSurveyQuestionsLoop], for the survey
    the resource lookup returned: it reads the linger and schedules the
    trials. *)
Definition _generateSurveyQuestionsLoop (survey : Survey) (s : State)
  : State * Event * list Task :=
  (set_linger (survey_linger survey) s, NEXT,
   TInstructions survey :: flat_map iteration (questions survey)).

(** One task.  The last task of an iteration only tells the host to move
    to the next entry, and stops the scheduler when the trial handler is
    finished. *)
Definition step (t : Task) (env : Env) (s : State) : Exc (State * Event * bool) :=
  match t with
  | TInstructions survey => Ok (instructions_task survey env s, false)
  | TBegin q => r ← _SurveyQuestionBegin q env s; Ok (r, false)
  | TLoop => r ← _SurveyQuestionLoop env s; Ok (r, false)
  | TEnd => Ok (_SurveyQuestionEnd s, false)
  | TFinish => Ok (s, NEXT, trials_finished env)
  end.

(** [addSurveyQuestions]: the loop is generated, then the scheduler runs
    its tasks. *)
Definition addSurveyQuestions (survey : Survey) (envs : list Env) (s : State)
  : Run Task State :=
  let '(s0, _, tasks) := _generateSurveyQuestionsLoop survey s in
  run step tasks envs s0.

End SurveyQuestions.

(* ================================================================== *)
(** * Notions used to state the properties *)

Module InstructionsSpec.
Import Instructions.

(** The terminal value of the position. *)
Definition sentinel : Z := (-1)%Z.

(** The position is a slide of a list of [n] slides, or the sentinel. *)
Definition in_bounds (n : nat) (p : Z) : Prop :=
  (0 <= p <= Z.of_nat n - 1)%Z \/ p = sentinel.

(** The cache holds the instructions [name] with the slides [res], at a
    position within bounds. *)
Definition shows (res : list Resource) (name : string) (st : State) : Prop :=
  exists c, instructionsCache st !! name = Some c /\ resources c = res /\
            in_bounds (length res) (currentIndex c).

(** Number of frame tasks in a task list. *)
Definition frame_tasks (l : list Task) : nat :=
  length (filter (fun t => t = TEachFrame) l).

(** The scheduler is done with the run. *)
Definition terminated (r : Run Task State) : Prop :=
  match outcome r with
  | Waiting _ _ => False
  | _ => True
  end.

(** A module showing the second of three slides. *)
Definition three_slides : State :=
  mkState {[ "intro" := mkInstr [mkResource "s1" "s1.png"; mkResource "s2" "s2.png";
                                 mkResource "s3" "s3.png"] 1 ]}
          (Some "intro") false (Some "s2") true.

End InstructionsSpec.

Module ContinuousSpec.
Import ContinuousInput.

(** The selectable keys that the continuous stage passes to [keyIn]: all
    of them but the two submit keys. *)
Definition typing_keys : list string := NUMBERS ++ LETTERS ++ ["backspace"].

(** Typing a list of keys. *)
Definition typed (keys : list string) (c : t) : t :=
  foldl (fun c k => keyIn k c) c keys.

(** Comparison of two texts without regard to case, as the
    specification words the match of a specify entry. *)
Definition same_text_ignoring_case (a b : string) : bool :=
  String.eqb (toLowerCase a) (toLowerCase b).

(** [submit()] as the specification words it. *)
Definition submit_spec (c : t) : Behavior :=
  mkBehavior (JStr (text c))
             (find (fun el => same_text_ignoring_case (specify_key el) (text c)) (specify c))
             None.

(** A continuous input whose specify set has the key [Other], after the
    respondent typed that word. *)
Definition other_input : t :=
  typed ["o"; "t"; "h"; "e"; "r"]
        (build (Some "LETTERS") (Some 10)
               [mkSpecify "Other" "Please specify" (CONTINUOUS None None None)]).

(** The same with the key written in lower case. *)
Definition other_input_lower : t :=
  typed ["o"; "t"; "h"; "e"; "r"]
        (build (Some "LETTERS") (Some 10)
               [mkSpecify "other" "Please specify" (CONTINUOUS None None None)]).

End ContinuousSpec.

Module SurveySpec.
Import SurveyQuestions.

(** What a question's loop leaves alone: the sink, the sink selector, the
    survey set, the linger, the index of the record being filled; and it
    never enters the skipping status. *)
Record Frame (s s' : State) : Prop := mkFrame {
  fr_sink : sink s' = sink s;
  fr_psiTurk : psiTurk s' = psiTurk s;
  fr_set : survey_set s' = survey_set s;
  fr_linger : linger s' = linger s;
  fr_index : question_index (currentData s') = question_index (currentData s);
  fr_status : survey_run_status s <> SURVEY_SKIPPING ->
              survey_run_status s' <> SURVEY_SKIPPING
}.

(** The facts about a state [s'] in which an answer was just captured, at
    the invocation [env] from the state [s]. *)
Record Captured (env : Env) (s s' : State) : Prop := mkCaptured {
  cp_frame : Frame s s';
  cp_status : survey_run_status s' = survey_run_status s;
  cp_stage : trialStage s' = DISPLAY_RESPONSE;
  cp_clock : clock s' = now env;
  cp_input : exists ci, currentInput s' = Some ci;
  cp_specify : specify_next s' <> SpecEmptyObject
}.

(** The option list of a discrete input is there. *)
Definition inputs_present (i : InputSpec) : bool :=
  match i with
  | DISCRETE None _ _ => false
  | _ => true
  end.

(** The question is passed over by [_SurveyQuestionBegin]. *)
Definition entirely_skipped (s : State) : bool :=
  match survey_run_status s with
  | SURVEY_SKIPPING => negb (loose_eq (index (question_stim s)) (skipIndex s))
  | _ => false
  end.

Definition call_category (c : SinkCall) : string :=
  match c with
  | recordUnstructuredData cat _ | addData cat _ => cat
  end.

Definition call_data (c : SinkCall) : AnswerRecord :=
  match c with
  | recordUnstructuredData _ d | addData _ d => d
  end.

(** The call that hands the current record to the sink. *)
Definition sink_call (s : State) : SinkCall :=
  if psiTurk s
  then recordUnstructuredData (category s) (currentData s)
  else addData (category s) (currentData s).

(** The tasks of a question up to its end. *)
Definition question_tasks (q : QuestionSpec) : list Task := [TBegin q; TLoop; TEnd].

(** The questions of a survey for which a record reached the sink. *)
Definition recorded_indices (s : State) : list jsval :=
  (fun c => question_index (call_data c)) <$> sink s.

(** The three defects of a survey that make it malformed: a discrete input
    without its option list, two options on one key, a skip to an index no
    question has. *)
Definition option_keys (i : InputSpec) : list string :=
  match i with
  | DISCRETE (Some l) _ _ => opt_key <$> l
  | _ => []
  end.

Definition skip_targets (i : InputSpec) : list jsval :=
  match i with
  | DISCRETE _ _ (Some sk) => skip_index <$> sk
  | _ => []
  end.

Definition missing_fields (q : QuestionSpec) : bool := negb (inputs_present (q_input q)).

Definition duplicate_keys (q : QuestionSpec) : bool :=
  negb (bool_decide (NoDup (option_keys (q_input q)))).

Definition absent_skip_target (sv : Survey) (q : QuestionSpec) : bool :=
  existsb (fun t => negb (existsb (fun q' => loose_eq (q_index q') t) (questions sv)))
          (skip_targets (q_input q)).

Definition malformed (sv : Survey) : bool :=
  existsb (fun q => missing_fields q || duplicate_keys q || absent_skip_target sv q)
          (questions sv).

(** ** Example surveys and respondents *)

Definition yes_no : option (list OptionSpec) :=
  Some [mkOption "y" "Yes"; mkOption "n" "No"].

(** An invocation at time [t] with the keys [keys] pending. *)
Definition poll (t : Q) (keys : list string) : Env := mkEnv t keys false.

(** Three questions; answering [n] to the first skips to index 3. *)
Definition skip_survey : Survey :=
  mkSurvey "demo" (1 # 2) None
    [mkQuestion (JNum 1) "Q1?" (DISCRETE yes_no None (Some [mkSkip "n" (JNum 3)]));
     mkQuestion (JNum 2) "Q2?" (DISCRETE yes_no None None);
     mkQuestion (JNum 3) "Q3?" (DISCRETE yes_no None None)].

(** The respondent presses [n] on question 1 and, later, [y]. *)
Definition skip_polls : list Env :=
  [poll 0 [];                                      (* instructions: none *)
   poll 0 []; poll 0 []; poll 1 ["n"]; poll 1 []; poll 2 []; poll 2 [];
   poll 2 []; poll 2 [];                           (* question 1 *)
   poll 2 []; poll 2 []; poll 2 []; poll 2 [];     (* question 2 *)
   poll 2 []; poll 3 ["y"]; poll 3 []; poll 3 []]. (* question 3 *)

(** A free-text question whose answer [x] has a follow-up. *)
Definition text_question : QuestionSpec :=
  mkQuestion (JNum 1) "Occupation?"
    (CONTINUOUS (Some "LETTERS") (Some 10)
       (Some [mkSpecify "x" "Please elaborate"
                (CONTINUOUS (Some "LETTERS") (Some 10) None)])).

Definition text_survey : Survey := mkSurvey "demo" (1 # 2) None [text_question].

(** The respondent types [x], submits, then types [y] and submits. *)
Definition text_polls : list Env :=
  [poll 0 [];
   poll 0 []; poll 0 []; poll 1 ["x"]; poll 2 ["enter"]; poll 3 [];
   poll 3 []; poll 4 ["y"]; poll 5 ["enter"]; poll 6 []; poll 6 [];
   poll 6 []; poll 6 []].

(** The state of the module while [text_question] awaits typing. *)
Definition typing_state : State :=
  match outcome (run step [TBegin text_question; TLoop] [poll 0 []; poll 0 []]
                     (set_linger (1 # 2) (initStimuli false))) with
  | Waiting s _ => s
  | _ => initStimuli false
  end.

(** A survey whose only question has two options on the key [y] and a
    skip to an index that no question has. *)
Definition duplicate_survey : Survey :=
  mkSurvey "demo" (1 # 2) None
    [mkQuestion (JNum 1) "Q1?"
       (DISCRETE (Some [mkOption "y" "Yes"; mkOption "y" "Yeah"]) None
                 (Some [mkSkip "y" (JNum 9)]))].

Definition duplicate_polls : list Env :=
  [poll 0 []; poll 0 []; poll 0 []; poll 1 ["y"]; poll 2 []; poll 2 []; poll 2 []; poll 2 []].

(** A survey whose second question has no option list. *)
Definition missing_survey : Survey :=
  mkSurvey "demo" (1 # 2) None
    [mkQuestion (JNum 1) "Q1?" (DISCRETE yes_no None None);
     mkQuestion (JNum 2) "Q2?" (DISCRETE None None None)].

Definition missing_polls : list Env :=
  [poll 0 []; poll 0 []; poll 0 []; poll 1 ["y"]; poll 2 []; poll 2 []; poll 2 []; poll 2 [];
   poll 2 []; poll 2 []].

(** The state of the module while the first question of [skip_survey]
    awaits a key. *)
Definition asking_state : State :=
  match outcome (addSurveyQuestions skip_survey (take 3 skip_polls) (initStimuli false)) with
  | Waiting s _ => s
  | _ => initStimuli false
  end.

(** The same once [n] was pressed at time 1. *)
Definition answered_state : State :=
  match _SurveyQuestionLoop (poll 1 ["n"]) asking_state with
  | Ok (s, _) => s
  | Throw _ => asking_state
  end.

End SurveySpec.

(* ================================================================== *)
(** * Further notions and examples *)

Module InputNotions.

(** The text holds no lower-case letter. *)
Definition upper_case (s : string) : Prop := toUpperCase s = s.

(** A digit character. *)
Definition is_digit (c : ascii) : bool :=
  let n := nat_of_ascii c in ((48 <=? n) && (n <=? 57))%nat.

(** A lower-case letter or a digit: a character whose key has its name. *)
Definition is_plain (c : ascii) : bool :=
  let n := nat_of_ascii c in
  is_digit c || ((97 <=? n) && (n <=? 122))%nat.

Fixpoint string_forall (p : ascii -> bool) (s : string) : bool :=
  match s with
  | EmptyString => true
  | String c s' => p c && string_forall p s'
  end.

(** The keys to press to type the characters of [s], one per character. *)
Fixpoint key_names (s : string) : list string :=
  match s with
  | EmptyString => []
  | String c s' => String c EmptyString :: key_names s'
  end.

(** A discrete stimulus is hidden and in its resting colour. *)
Definition at_rest (s : DiscreteInput.Stimulus) : Prop :=
  DiscreteInput.autoDraw (DiscreteInput.stim s) = false /\
  DiscreteInput.activated (DiscreteInput.stim s) = false.

(** A letters input with two characters typed. *)
Definition two_letters : ContinuousInput.t :=
  ContinuousSpec.typed ["a"; "b"] (ContinuousInput.build (Some "LETTERS") (Some 5) []).

(** A specify set with two entries. *)
Definition why_which : list SpecifyEntry :=
  [mkSpecify "none" "Why?" (CONTINUOUS None None None);
   mkSpecify "other" "Which?" (CONTINUOUS None None None)].

End InputNotions.

Module StepperNotions.
Import Instructions.

(** A module that holds the instructions [consent] and shows none. *)
Definition with_consent : State :=
  mkState {[ "consent" := mkInstr [mkResource "c1" "c1.png"] 0 ]} None false None false.

Definition intro_slides : list Resource :=
  [mkResource "s1" "s1.png"; mkResource "s2" "s2.png"].

Definition intro_polls : list Env :=
  [mkEnv 0 [] false; mkEnv 0 ["n"] false; mkEnv 0 [] false; mkEnv 0 [] false;
   mkEnv 0 [] false; mkEnv 0 ["f"] false; mkEnv 0 [] false; mkEnv 0 [] false].

End StepperNotions.

Module SequencerNotions.
Import SurveyQuestions SurveySpec.

(** The record [d] with the specify list [l]. *)
Definition with_specify (d : AnswerRecord) (l : list SpecifyAnswer) : AnswerRecord :=
  mkAnswer (survey d) (question_index d) (question d) (question_type d)
           (choice d) (RT d) (value d) (Some l).

(** The state an outcome of the scheduler is in, if any. *)
Definition state_of {Task State : Type} (o : Outcome Task State) : option State :=
  match o with
  | Finished s | Stopped s | Waiting s _ => Some s
  | Threw _ => None
  end.

(** The question indices of a list of calls on the sink. *)
Definition record_indices (calls : list SinkCall) : list jsval :=
  (fun c => question_index (call_data c)) <$> calls.

(** The sink after a question: as before, or with one record of the
    question more. *)
Definition one_record_more (q : QuestionSpec) (s s' : State) : Prop :=
  sink s' = sink s \/
  exists c, sink s' = (sink s ++ [c])%list /\ question_index (call_data c) = q_index q.

(** The input of [asking_state]. *)
Definition asking_input : DiscreteInput.t :=
  match currentInput asking_state with
  | Some (Discrete d) => d
  | _ => DiscreteInput.mk BuiltDiscreteInput_options ∅ [] []
  end.

(** The final state of the run of [skip_survey]. *)
Definition skip_final_state : State :=
  match outcome (addSurveyQuestions skip_survey skip_polls (initStimuli false)) with
  | Finished s => s
  | _ => initStimuli false
  end.

(** A yes/no question whose answer [y] has a free-text follow-up. *)
Definition follow_up_question : QuestionSpec :=
  mkQuestion (JNum 1) "Any allergies?"
    (DISCRETE yes_no
       (Some [mkSpecify "y" "Which ones?" (CONTINUOUS (Some "LETTERS") (Some 10) None)])
       None).

(** The state of the module while the follow-up holds the text [X]. *)
Definition elaborating_state : State :=
  match outcome (run step [TBegin follow_up_question; TLoop]
                     [poll 0 []; poll 0 []; poll 1 ["y"]; poll 2 []; poll 2 []; poll 3 ["x"]]
                     (set_linger (1 # 2) (initStimuli false))) with
  | Waiting s _ => s
  | _ => initStimuli false
  end.

(** The same once enter was pressed at time 4. *)
Definition elaborated_state : State :=
  match _SurveyQuestionLoop (poll 4 ["enter"]) elaborating_state with
  | Ok (s, _) => s
  | Throw _ => elaborating_state
  end.

(** A digits-only question. *)
Definition age_question : QuestionSpec :=
  mkQuestion (JNum 1) "Age?" (CONTINUOUS (Some "NUMBERS") (Some 3) None).

(** The state of the module while [age_question] awaits typing. *)
Definition age_state : State :=
  match outcome (run step [TBegin age_question; TLoop] [poll 0 []; poll 0 []]
                     (set_linger (1 # 2) (initStimuli false))) with
  | Waiting s _ => s
  | _ => initStimuli false
  end.

(** The same once [4] was pressed. *)
Definition age_state_4 : State :=
  match _SurveyQuestionLoop (poll 1 ["4"; "q"]) age_state with
  | Ok (s, _) => s
  | Throw _ => age_state
  end.

End SequencerNotions.

Module ReadingNotions.
Import Instructions InstructionsSpec.

(** The invocations of one slide display during which the key [k] is
    pressed: the begin, the frame, the end and the end condition. *)
Definition display (k : string) : list Env :=
  [mkEnv 0 [] false; mkEnv 0 [k] false; mkEnv 0 [] false; mkEnv 0 [] false].

(** A respondent who reads [n] slides one after the other: next on every
    slide but the last, finish on the last. *)
Definition read_through (n : nat) : list Env :=
  concat (replicate (n - 1) (display "n")) ++ display "f".

(** What holds of the tasks left and the state during a run of the
    instructions [name] over [n] slides: the begin tasks are those of
    [name]; past a begin the current instructions are [name]; and the
    position is a slide index that is, with one step for each frame task
    left, within [MAX_INSTRUCTIONS]. *)
Definition on_schedule (n : nat) (name : string) (tasks : list Task) (st : State) : Prop :=
  Forall (fun t => forall m, t = TBegin m -> m = name) tasks /\
  match tasks with
  | [] | TBegin _ :: _ => True
  | _ => currInstr st = Some name
  end /\
  exists c, instructionsCache st !! name = Some c /\
    length (resources c) = n /\
    (0 <= currentIndex c)%Z /\
    (currentIndex c + Z.of_nat (frame_tasks tasks) <= Z.of_nat MAX_INSTRUCTIONS)%Z.

End ReadingNotions.

Module SafetyNotions.
Import SurveyQuestions SurveySpec.

(** Every discrete input of [i] has its option list, the inputs of the
    follow-up questions of its specify entries included. *)
Fixpoint complete (i : InputSpec) : bool :=
  let entries :=
    fix entries (l : list SpecifyEntry) : bool :=
      match l with
      | [] => true
      | mkSpecify _ _ i' :: l' => complete i' && entries l'
      end in
  match i with
  | DISCRETE inputs specify _ =>
      match inputs with Some _ => true | None => false end &&
      match specify with Some l => entries l | None => true end
  | CONTINUOUS _ _ specify =>
      match specify with Some l => entries l | None => true end
  end.

(** The specify entries of an input description and of a built input. *)
Definition input_specify (i : InputSpec) : list SpecifyEntry :=
  match i with
  | DISCRETE _ sp _ | CONTINUOUS _ _ sp => default [] sp
  end.

Definition Input_specify (ci : Input) : list SpecifyEntry :=
  match ci with
  | Discrete d => DiscreteInput.specify d
  | Continuous c => ContinuousInput.specify c
  end.

Definition follow_ups_complete (l : list SpecifyEntry) : Prop :=
  Forall (fun e => complete (specify_input e) = true) l.

(** A state in which the question loop can be invoked: the question is
    passed over or done with, or there is an input of the kind its stage
    takes, whose follow-ups are complete, a record with a specify list,
    and, while a response is displayed, a follow-up that was read from the
    last behaviour. *)
Definition loop_ready (s : State) : Prop :=
  survey_run_status s = SURVEY_SKIPPING \/
  (trialStage s < 0 \/ 3 < trialStage s)%Z \/
  exists ci,
    currentInput s = Some ci /\
    follow_ups_complete (Input_specify ci) /\
    is_Some (specify (currentData s)) /\
    (trialStage s = TAKING_DISCRETE -> exists d, ci = Discrete d) /\
    (trialStage s = TAKING_CONTINUOUS -> exists c, ci = Continuous c) /\
    (trialStage s = DISPLAY_RESPONSE ->
     match specify_next s with
     | SpecEmptyObject => False
     | SpecUndefined => True
     | SpecEntry e => complete (specify_input e) = true
     end).

(** The invariant of the tasks of the question [q]. *)
Definition question_ready (q : QuestionSpec) (tasks : list Task) (s : State) : Prop :=
  tasks = iteration q \/ (tasks = [TLoop; TEnd; TFinish] /\ loop_ready s) \/
  tasks = [TEnd; TFinish] \/ tasks = [TFinish] \/ tasks = [].

End SafetyNotions.

(* ================================================================== *)
(** * Properties *)

(** ** The scheduler *)

Section SchedulerFacts.
Context {Task State : Type}.
Variable step : Task -> Env -> State -> Exc (State * Event * bool).

Lemma run_nil envs st : run step [] envs st = mkRun (Finished st) [].
Proof. destruct envs; reflexivity. Qed.

(** A property kept by every task holds after every completed task. *)
Lemma run_completed_inv (I : State -> Prop) :
  (forall t e st st' ev b, I st -> step t e st = Ok (st', ev, b) -> I st') ->
  forall envs tasks st, I st ->
    Forall (fun c => I c.2) (completed (run step tasks envs st)).
Proof.
  intros Hstep envs. induction envs as [|e es IH]; intros tasks st Hst.
  - destruct tasks; simpl; constructor.
  - destruct tasks as [|t ts]; simpl; [constructor|].
    destruct (step t e st) as [[[st' ev] b]|m] eqn:E; simpl; [|constructor].
    pose proof (Hstep _ _ _ _ _ _ Hst E) as Hst'.
    destruct ev; [destruct b|]; simpl.
    + repeat constructor. exact Hst'.
    + constructor; [exact Hst'|]. apply IH, Hst'.
    + apply IH, Hst'.
Qed.

(** The completed tasks are the scheduled ones, in order; a waiting run
    holds the rest. *)
Lemma run_completed_prefix envs : forall tasks st,
  exists rest, tasks = ((completed (run step tasks envs st)).*1 ++ rest)%list /\
    match outcome (run step tasks envs st) with
    | Waiting _ w => w = rest /\ rest <> []
    | Finished _ => rest = []
    | _ => True
    end.
Proof.
  induction envs as [|e es IH]; intros tasks st.
  - destruct tasks as [|t ts]; simpl.
    + exists []. auto.
    + exists (t :: ts). repeat split; discriminate.
  - destruct tasks as [|t ts]; simpl; [exists []; auto|].
    destruct (step t e st) as [[[st' ev] b]|m] eqn:E; simpl;
      [|eexists; split; [reflexivity|exact I]].
    destruct ev; [destruct b|]; simpl.
    + exists ts. auto.
    + destruct (IH ts st') as [rest [H1 H2]]. exists rest.
      split; [simpl; f_equal; exact H1 | exact H2].
    + apply IH.
Qed.

(** More invocations only matter to a run that was waiting. *)
Lemma run_app envs es2 : forall tasks st,
  run step tasks (envs ++ es2) st =
  match outcome (run step tasks envs st) with
  | Waiting st' rest =>
      mkRun (outcome (run step rest es2 st'))
            (completed (run step tasks envs st) ++ completed (run step rest es2 st'))
  | _ => run step tasks envs st
  end.
Proof.
  induction envs as [|e es IH]; intros tasks st.
  - destruct tasks as [|t ts]; simpl.
    + destruct es2; reflexivity.
    + destruct (run step (t :: ts) es2 st); reflexivity.
  - destruct tasks as [|t ts]; simpl; [reflexivity|].
    destruct (step t e st) as [[[st' ev] b]|m] eqn:E; simpl; [|reflexivity].
    destruct ev; [destruct b|]; simpl.
    + reflexivity.
    + rewrite IH. destruct (outcome (run step ts es st')); reflexivity.
    + apply IH.
Qed.
End SchedulerFacts.

(* ------------------------------------------------------------------ *)
(** ** The paged instructions stepper *)

Module InstructionsFacts.
Import Instructions InstructionsSpec.

Lemma press_in_bounds k n i j :
  press k (Z.of_nat n) i = Some j -> in_bounds n i -> in_bounds n j.
Proof.
  unfold press, in_bounds, sentinel. intros H Hb.
  repeat (case_match; simplify_eq); auto;
    repeat match goal with
           | H : _ && _ = true |- _ => apply andb_true_iff in H; destruct H
           end; lia.
Qed.

(** The position becomes the sentinel only by [f] at the last slide. *)
Lemma press_sentinel k n i :
  press k (Z.of_nat n) i = Some sentinel -> in_bounds n i -> i <> sentinel ->
  k = "f" /\ i = (Z.of_nat n - 1)%Z.
Proof.
  unfold press, in_bounds, sentinel. intros H Hb Hs.
  repeat (case_match; simplify_eq);
    repeat match goal with
           | H : _ && _ = true |- _ => apply andb_true_iff in H; destruct H
           | H : bool_decide _ = true |- _ => apply bool_decide_eq_true in H
           end; subst; split; auto; lia.
Qed.

Lemma deref_Ok st c :
  deref st = Ok c ->
  exists n, currInstr st = Some n /\ instructionsCache st !! n = Some c.
Proof.
  unfold deref. destruct (currInstr st) as [n|]; [|discriminate].
  destruct (instructionsCache st !! n) eqn:E; [|discriminate].
  intros [= <-]. eauto.
Qed.

Lemma deref_set_currentIndex st c i :
  deref st = Ok c ->
  deref (set_currentIndex (set_slideFinished st true) i) = Ok (mkInstr (resources c) i).
Proof.
  intros D. destruct (deref_Ok _ _ D) as (m & Hm & Hc).
  unfold deref, set_currentIndex, set_slideFinished. simpl. rewrite Hm. simpl.
  rewrite lookup_alter_eq, Hc. reflexivity.
Qed.

Lemma slideFinished_set_currentIndex st i :
  slideFinished (set_currentIndex st i) = slideFinished st.
Proof. unfold set_currentIndex. destruct (currInstr st); reflexivity. Qed.

Lemma EachFrame_shows res name env st st' ev :
  shows res name st ->
  _InstructionsRoutineEachFrame env st = Ok (st', ev) ->
  shows res name st'.
Proof.
  intros (c & Hc & Hres & Hb). unfold _InstructionsRoutineEachFrame.
  destruct (getKeys _ env) as [|k ks]; simpl.
  { intros [= <- _]. exists c; auto. }
  destruct (deref st) as [c0|] eqn:D; simpl; [|discriminate].
  destruct (deref_Ok _ _ D) as (m & Hm & Hc0).
  destruct (press k _ _) as [j|] eqn:P; simpl.
  2:{ intros [= <- _]. exists c; auto. }
  intros [= <- _]. unfold shows, set_currentIndex, set_slideFinished. simpl.
  rewrite Hm. simpl. destruct (decide (m = name)) as [->|Hne].
  - rewrite lookup_alter_eq, Hc. simpl. eexists; split; [reflexivity|]. simpl.
    split; [exact Hres|]. rewrite Hc in Hc0. injection Hc0 as <-.
    rewrite <- Hres. eapply press_in_bounds; [exact P|]. rewrite Hres. exact Hb.
  - rewrite lookup_alter_ne by exact Hne. exists c; auto.
Qed.

Lemma step_shows res name t e st st' ev b :
  shows res name st -> step t e st = Ok (st', ev, b) -> shows res name st'.
Proof.
  intros H. destruct t; simpl.
  - unfold _InstructionsRoutineBegin. simpl.
    destruct (deref _) as [c|]; simpl; [|discriminate].
    destruct (nth_resource _ _); simpl; [|discriminate].
    intros [= <- _ _]. exact H.
  - destruct (_InstructionsRoutineEachFrame e st) as [[s1 e1]|] eqn:E; simpl; [|discriminate].
    intros [= <- _ _]. eapply EachFrame_shows; eauto.
  - intros [= <- _ _]. exact H.
  - unfold check. destruct (deref st); simpl; [|discriminate]. intros [= <- _ _]. exact H.
Qed.

(** With no slide the first task throws, and no task completes. *)
Lemma run_no_slides name envs st :
  completed (addInstructions [] name envs st) = [].
Proof.
  unfold addInstructions, _generateInstructionsLoop.
  change (concat (replicate (TrialHandler_nTotal MAX_INSTRUCTIONS None) (iteration name)))
    with (iteration name ++ concat (replicate 199 (iteration name)))%list.
  destruct envs as [|e es]; [reflexivity|].
  cbn [run app iteration]. unfold step, _InstructionsRoutineBegin, deref. cbn.
  rewrite lookup_insert_eq. reflexivity.
Qed.

(** C9.  Paged instructions stepper bounds.  In a run of the instructions
    [name] over the slide list [res], whatever the keys pressed, after every
    completed task the position is within [0, n-1] or is the sentinel.  In a
    frame whose first pressed control key is [k], at a position within
    bounds: next at the last slide, back at the first slide and finish
    elsewhere than at the last slide change nothing; finish at the last
    slide sets the position to the sentinel; and the position becomes the
    sentinel in no other way. *)
Theorem C9_stepper_bounds :
  (forall (res : list Resource) (name : string) (envs : list Env) (st0 : State),
      Forall (fun c => shows res name c.2)
             (completed (addInstructions res name envs st0)))
  /\
  (forall (st : State) (c : Instr) (env : Env) (k : string) (ks : list string),
      deref st = Ok c ->
      in_bounds (length (resources c)) (currentIndex c) ->
      getKeys ["b"; "n"; "f"] env = k :: ks ->
      let n := Z.of_nat (length (resources c)) in
      let unchanged :=
        _InstructionsRoutineEachFrame env st =
        Ok (st, if slideFinished st then NEXT else FLIP_REPEAT) in
      (k = "n" -> currentIndex c = (n - 1)%Z -> unchanged) /\
      (k = "b" -> currentIndex c = 0%Z -> unchanged) /\
      (k = "f" -> currentIndex c <> (n - 1)%Z -> unchanged) /\
      (k = "f" -> currentIndex c = (n - 1)%Z ->
         exists st', _InstructionsRoutineEachFrame env st = Ok (st', NEXT) /\
                     position st' = Some sentinel) /\
      (forall st' ev, _InstructionsRoutineEachFrame env st = Ok (st', ev) ->
         position st' = Some sentinel -> currentIndex c <> sentinel ->
         k = "f" /\ currentIndex c = (n - 1)%Z)).
Proof.
  split.
  - intros res name envs st0. destruct res as [|r0 res'].
    { rewrite run_no_slides. constructor. }
    unfold addInstructions. simpl.
    apply run_completed_inv.
    + intros; eapply step_shows; eauto.
    + eexists. split; [simpl; apply lookup_insert_eq|]. simpl. split; [reflexivity|].
      left. lia.
  - intros st c env k ks D Hb Hk n unchanged. subst unchanged.
    unfold _InstructionsRoutineEachFrame. rewrite Hk, D. simpl. fold n.
    split; [|split; [|split; [|split]]].
    + intros -> Hi. unfold press. rewrite Hi. simpl.
      rewrite Z.ltb_irrefl. simpl. reflexivity.
    + intros -> Hi. unfold press. rewrite Hi. simpl. reflexivity.
    + intros -> Hi. unfold press. simpl.
      destruct (Z.eqb_spec (currentIndex c) (n - 1)); [contradiction|]. reflexivity.
    + intros -> Hi. unfold press. simpl. rewrite Hi, Z.eqb_refl. simpl.
      rewrite slideFinished_set_currentIndex. simpl.
      eexists; split; [reflexivity|].
      unfold position. rewrite (deref_set_currentIndex _ _ _ D). reflexivity.
    + intros st' ev HF Hpos Hns.
      destruct (press k n (currentIndex c)) as [j|] eqn:P; simpl in HF.
      * injection HF as <- _. unfold position in Hpos.
        rewrite (deref_set_currentIndex _ _ _ D) in Hpos. simpl in Hpos.
        injection Hpos as ->. exact (press_sentinel _ _ _ P Hb Hns).
      * injection HF as <- _. unfold position in Hpos. rewrite D in Hpos.
        injection Hpos as Hpos. contradiction.
Qed.

Lemma C9_stepper_bounds_witness :
  _InstructionsRoutineEachFrame (mkEnv 0 ["f"] false) three_slides =
  Ok (three_slides, FLIP_REPEAT).
Proof.
  assert (D : deref three_slides =
              Ok (mkInstr [mkResource "s1" "s1.png"; mkResource "s2" "s2.png";
                           mkResource "s3" "s3.png"] 1)) by (vm_compute; reflexivity).
  assert (B : in_bounds 3 1) by (left; simpl; lia).
  assert (K : getKeys ["b"; "n"; "f"] (mkEnv 0 ["f"] false) = ["f"]) by (vm_compute; reflexivity).
  destruct (proj2 C9_stepper_bounds three_slides _ (mkEnv 0 ["f"] false) "f" [] D B K)
    as (_ & _ & H & _).
  apply H; [reflexivity|]. simpl. discriminate.
Defined.

Lemma frame_tasks_app l1 l2 :
  frame_tasks (l1 ++ l2) = (frame_tasks l1 + frame_tasks l2)%nat.
Proof. unfold frame_tasks. rewrite filter_app, length_app. reflexivity. Qed.

Lemma frame_tasks_cons t l :
  frame_tasks (t :: l) =
  ((if decide (t = TEachFrame) then 1 else 0) + frame_tasks l)%nat.
Proof.
  unfold frame_tasks. rewrite filter_cons. destruct (decide (t = TEachFrame)); reflexivity.
Qed.

Lemma frame_tasks_completed (l : list (Task * State)) :
  frame_tasks (l.*1) = length (filter (fun c => c.1 = TEachFrame) l).
Proof.
  unfold frame_tasks. induction l as [|[t s] l IH]; [reflexivity|].
  rewrite fmap_cons. rewrite !filter_cons. simpl.
  destruct (decide (t = TEachFrame)); simpl; rewrite IH; reflexivity.
Qed.

Lemma frame_tasks_iterations name k :
  frame_tasks (concat (replicate k (iteration name))) = k.
Proof.
  induction k as [|k IH]; [reflexivity|].
  simpl. rewrite !frame_tasks_cons, IH. reflexivity.
Qed.

(** What is left of the schedule once all its frame tasks are done. *)
Lemma iterations_tail name k : forall done rest,
  concat (replicate k (iteration name)) = (done ++ rest)%list ->
  frame_tasks rest = 0%nat ->
  rest = [] \/ rest = [TCheck] \/ rest = [TEnd; TCheck].
Proof.
  induction k as [|k IH]; intros done rest H Hz.
  - simpl in H. destruct done; destruct rest; try discriminate. auto.
  - simpl replicate in H. simpl concat in H.
    assert (Hk : frame_tasks (concat (replicate k (iteration name))) = 0%nat -> k = 0%nat).
    { rewrite frame_tasks_iterations. auto. }
    destruct done as [|d1 [|d2 [|d3 [|d4 done]]]]; simpl in H.
    + subst rest. rewrite !frame_tasks_cons in Hz. simpl in Hz. discriminate.
    + injection H as _ <-. rewrite !frame_tasks_cons in Hz. simpl in Hz. discriminate.
    + injection H as _ _ <-. rewrite !frame_tasks_cons in Hz. simpl in Hz.
      rewrite (Hk Hz). auto.
    + injection H as _ _ _ <-. rewrite !frame_tasks_cons in Hz. simpl in Hz.
      rewrite (Hk Hz). auto.
    + injection H as _ _ _ _ H. eapply IH; eauto.
Qed.

(** C10.  An instructions run is bounded by [MAX_INSTRUCTIONS].  The loop
    schedules four tasks for each of 200 slide displays, of which 200 are
    frame tasks; a frame task completes when a key moved the position, so a
    run makes at most 200 navigation steps, whatever the keys; and once it
    has made 200, two more invocations (the end of the routine and the end
    condition) end the run, whether or not finish was pressed. *)
Theorem C10_instructions_bounded :
  forall (res : list Resource) (name : string) (envs : list Env) (st : State),
    let r := addInstructions res name envs st in
    length (_generateInstructionsLoop res name st).2 = (4 * MAX_INSTRUCTIONS)%nat /\
    frame_tasks (_generateInstructionsLoop res name st).2 = MAX_INSTRUCTIONS /\
    (navigations r <= MAX_INSTRUCTIONS)%nat /\
    (navigations r = MAX_INSTRUCTIONS ->
     forall es2 : list Env, (2 <= length es2)%nat ->
       terminated (addInstructions res name (envs ++ es2) st)).
Proof.
  intros res name envs st r. subst r.
  unfold addInstructions, navigations.
  destruct (_generateInstructionsLoop res name st) as [st0 tasks] eqn:G.
  assert (Ht : tasks = concat (replicate MAX_INSTRUCTIONS (iteration name))).
  { unfold _generateInstructionsLoop in G. injection G as _ <-. reflexivity. }
  simpl snd.
  destruct (run_completed_prefix step envs tasks st0) as [rest [Hpre Hout]].
  assert (Hcount : (length (filter (fun c => c.1 = TEachFrame)
                                   (completed (run step tasks envs st0)))
                    + frame_tasks rest = MAX_INSTRUCTIONS)%nat).
  { rewrite <- frame_tasks_completed, <- frame_tasks_app, <- Hpre, Ht.
    apply frame_tasks_iterations. }
  split; [subst tasks; reflexivity|].
  split; [subst tasks; apply frame_tasks_iterations|].
  split; [lia|].
  intros Hnav es2 Hlen. unfold terminated. rewrite run_app.
  destruct (outcome (run step tasks envs st0)) as [s|s|s w|m] eqn:O;
    try (rewrite O; exact I).
  simpl. destruct Hout as [-> Hne].
  assert (Hz : frame_tasks rest = 0%nat) by lia.
  rewrite Ht in Hpre.
  destruct (iterations_tail _ _ _ _ Hpre Hz) as [->|[->| ->]]; [contradiction| |];
    destruct es2 as [|e1 [|e2 es2]]; simpl in Hlen; try lia; simpl.
  - unfold check. destruct (deref s); simpl; [|exact I].
    destruct (bool_decide _); simpl; [exact I|]. destruct es2; exact I.
  - unfold check. destruct (deref _); simpl; [|exact I].
    destruct (bool_decide _); simpl; [exact I|]. destruct es2; exact I.
Qed.

End InstructionsFacts.

(* ------------------------------------------------------------------ *)
(** ** The continuous text input *)

Module ContinuousFacts.
Import ContinuousInput ContinuousSpec.

Lemma length_append (a b : string) :
  String.length (a ++ b) = (String.length a + String.length b)%nat.
Proof. induction a as [|x a IH]; simpl; [reflexivity|]. rewrite IH. reflexivity. Qed.

Lemma length_slice (a : string) :
  (String.length (slice_0_m1 a) <= String.length a)%nat.
Proof.
  induction a as [|x a IH]; simpl; [lia|].
  destruct a; simpl in *; lia.
Qed.

(** A typing key other than backspace enters one character. *)
Lemma typing_key_one_char :
  Forall (fun k => k = "backspace" \/ k = "space" \/ k = "minus" \/
                   String.length (toUpperCase k) = 1%nat) typing_keys.
Proof.
  unfold typing_keys, NUMBERS, LETTERS. simpl.
  repeat (apply List.Forall_cons;
          [ first [ left; reflexivity
                  | right; left; reflexivity
                  | right; right; left; reflexivity
                  | right; right; right; reflexivity ] |]).
  apply List.Forall_nil.
Qed.

Lemma keyIn_maxLength k c : maxLength (keyIn k c) = maxLength c.
Proof. unfold keyIn. repeat case_match; reflexivity. Qed.

Lemma keyIn_bounded k c :
  k ∈ typing_keys ->
  (String.length (text c) <= maxLength c)%nat ->
  (String.length (text (keyIn k c)) <= maxLength c)%nat.
Proof.
  intros Hk Hc.
  pose proof (proj1 (Forall_forall _ _) typing_key_one_char k Hk) as H1.
  unfold keyIn.
  destruct (String.eqb_spec k "backspace") as [->|Hb]; simpl.
  { pose proof (length_slice (text c)). lia. }
  destruct (Nat.ltb_spec (String.length (text c)) (maxLength c)); [|exact Hc].
  destruct (String.eqb_spec k "space"); simpl; [rewrite length_append; simpl; lia|].
  destruct (String.eqb_spec k "minus"); simpl; [rewrite length_append; simpl; lia|].
  simpl. rewrite length_append.
  destruct H1 as [?|[?|[?|H1]]]; try contradiction. lia.
Qed.

Lemma typed_bounded keys : forall c,
  Forall (fun k => k ∈ typing_keys) keys ->
  (String.length (text c) <= maxLength c)%nat ->
  (String.length (text (typed keys c)) <= maxLength c)%nat.
Proof.
  induction keys as [|k keys IH]; intros c Hk Hc; [exact Hc|].
  inversion Hk; subst. unfold typed. simpl. fold (typed keys (keyIn k c)).
  rewrite <- (keyIn_maxLength k c). apply IH; [assumption|].
  rewrite keyIn_maxLength. apply keyIn_bounded; assumption.
Qed.

(** Among the selectable keys only the submit keys are not typing keys. *)
Lemma selectable_typing_keys :
  Forall (fun k => k = "return" \/ k = "enter" \/ k ∈ typing_keys)
         (NUMBERS ++ LETTERS ++ FUNCTIONALITY)%list.
Proof.
  unfold NUMBERS, LETTERS, FUNCTIONALITY. simpl.
  repeat (apply List.Forall_cons;
          [ first [ left; reflexivity
                  | right; left; reflexivity
                  | right; right; compute_done ] |]).
  apply List.Forall_nil.
Qed.

Lemma getKeys_typing c k :
  k ∈ getKeys c -> k <> "return" -> k <> "enter" -> k ∈ typing_keys.
Proof.
  intros Hk Hr He.
  assert (Hall : k ∈ (NUMBERS ++ LETTERS ++ FUNCTIONALITY)%list).
  { unfold getKeys in Hk.
    destruct (keyList c) as [kl|];
      [destruct (String.eqb kl "NUMBERS"); [|destruct (String.eqb kl "LETTERS")]|];
      rewrite ?elem_of_app in *; tauto. }
  pose proof (proj1 (Forall_forall _ _) selectable_typing_keys k Hall) as [?|[?|?]];
    [contradiction|contradiction|assumption].
Qed.

Lemma typed_maxLength keys : forall c, maxLength (typed keys c) = maxLength c.
Proof.
  induction keys as [|k keys IH]; intros c; [reflexivity|].
  unfold typed. simpl. fold (typed keys (keyIn k c)).
  rewrite IH. apply keyIn_maxLength.
Qed.

Lemma find_ext_in {A : Type} (p q : A -> bool) (l : list A) :
  Forall (fun x => p x = q x) l -> find p l = find q l.
Proof.
  unfold find. induction 1 as [|x l Hx _ IH]; simpl; [reflexivity|].
  rewrite Hx, IH. reflexivity.
Qed.

(** C8, as stated, fails.  The key [Other] equals the text [OTHER] without
    regard to case, and [submit()] returns no specify entry. *)
Lemma C8_counterexample :
  text other_input = "OTHER" /\
  (exists e, e ∈ specify other_input /\
             same_text_ignoring_case (specify_key e) (text other_input) = true) /\
  b_specify (optionSelected other_input) = None /\
  optionSelected other_input <> submit_spec other_input.
Proof.
  split; [reflexivity|]. split.
  - eexists. split; [apply list_elem_of_here|]. reflexivity.
  - split; [reflexivity|]. vm_compute. discriminate.
Qed.

(** C8, amended.  For every continuous input and every text, [submit()]
    returns the text as value together with the first specify entry whose
    key is the lower-cased text, and none when no key is; when the keys of
    the specify set are written in lower case, this is the entry the
    comparison without regard to case selects. *)
Theorem C8_submit_lowercase_match :
  forall c : t,
    b_value (optionSelected c) = JStr (text c) /\
    (forall e, b_specify (optionSelected c) = Some e ->
       exists before after,
         specify c = (before ++ e :: after)%list /\
         specify_key e = toLowerCase (text c) /\
         Forall (fun e' => specify_key e' <> toLowerCase (text c)) before) /\
    (b_specify (optionSelected c) = None ->
       Forall (fun e' => specify_key e' <> toLowerCase (text c)) (specify c)) /\
    (Forall (fun e' => toLowerCase (specify_key e') = specify_key e') (specify c) ->
       optionSelected c = submit_spec c).
Proof.
  intros c. split; [reflexivity|]. unfold optionSelected, submit_spec. simpl.
  unfold find. repeat split.
  - induction (specify c) as [|x l IH]; simpl; [discriminate|].
    destruct (String.eqb_spec (specify_key x) (toLowerCase (text c))) as [Hx|Hx].
    + intros e [= <-]. exists [], l. repeat split; [exact Hx|constructor].
    + intros e He. destruct (IH e He) as (b & a & -> & Hk & Hb).
      exists (x :: b), a. repeat split; [exact Hk|]. constructor; assumption.
  - induction (specify c) as [|x l IH]; simpl; [constructor|].
    destruct (String.eqb_spec (specify_key x) (toLowerCase (text c))) as [Hx|Hx];
      [discriminate|].
    intros H. constructor; [exact Hx|apply IH, H].
  - intros Hlow. f_equal. apply find_ext_in.
    eapply Forall_impl; [exact Hlow|]. intros e He. simpl.
    unfold same_text_ignoring_case. rewrite He. reflexivity.
Qed.

Lemma C8_submit_lowercase_match_witness :
  optionSelected other_input_lower = submit_spec other_input_lower.
Proof.
  apply (C8_submit_lowercase_match other_input_lower).
  repeat constructor.
Defined.

End ContinuousFacts.

(* ------------------------------------------------------------------ *)
(** ** The survey question state machine *)

Module SurveyFacts.
Import SurveyQuestions SurveySpec ContinuousSpec.

Lemma Frame_refl s : Frame s s.
Proof. constructor; auto. Qed.

Lemma Frame_trans s1 s2 s3 : Frame s1 s2 -> Frame s2 s3 -> Frame s1 s3.
Proof. intros [] []. constructor; try congruence. auto. Qed.

Lemma record_answer_Ok c b env s s' :
  record_answer c b env s = Ok s' ->
  exists d, s' = set_currentData d s /\
            question_index d = question_index (currentData s).
Proof.
  unfold record_answer. destruct (loose_eq _ _).
  - intros [= <-]. eexists; split; reflexivity.
  - destruct (specify (currentData s)); [|discriminate].
    intros [= <-]. eexists; split; reflexivity.
Qed.

Lemma buildLoopStimuli_Ok text input s s' :
  _buildLoopStimuli text input s = Ok s' ->
  exists ci, s' = set_currentInput (Some ci) (set_question_text text s).
Proof.
  unfold _buildLoopStimuli. destruct input as [i sp sk|kl ml sp].
  - destruct (DiscreteInput.build _ i _ _) as [d|]; simpl; [|discriminate].
    intros [= <-]. eauto.
  - intros [= <-]. eauto.
Qed.

Lemma specify_of_not_empty b : specify_of b <> SpecEmptyObject.
Proof. unfold specify_of. destruct (b_specify b); discriminate. Qed.

Lemma take_discrete_Ok k env s s' :
  take_discrete k env s = Ok s' -> Captured env s s'.
Proof.
  unfold take_discrete. destruct (currentInput s) as [ci|]; [|discriminate].
  destruct (Input_optionSelected _ ci) as [[ci' b]|]; simpl; [|discriminate].
  destruct (record_answer _ b env _) as [s1|] eqn:R; simpl; [|discriminate].
  apply record_answer_Ok in R. destruct R as (d & -> & Hd).
  intros [= <-].
  destruct (b_skip b); (constructor; [constructor|..]); simpl;
    eauto using specify_of_not_empty.
Qed.

Lemma take_continuous_Ok env s s' :
  take_continuous env s = Ok s' -> Captured env s s'.
Proof.
  unfold take_continuous. destruct (currentInput s) as [ci|]; [|discriminate].
  destruct (Input_optionSelected _ ci) as [[ci' b]|]; simpl; [|discriminate].
  destruct (record_answer _ b env _) as [s1|] eqn:R; simpl; [|discriminate].
  apply record_answer_Ok in R. destruct R as (d & -> & Hd).
  intros [= <-].
  (constructor; [constructor|..]); simpl; eauto using specify_of_not_empty.
Qed.

(** The loop over the pending keys either only typed, or captured. *)
Lemma for_key_of_Ok input env keys : forall s s',
  for_key_of input keys env s = Ok s' ->
  (exists ci, s' = s \/ s' = set_currentInput ci s) \/ Captured env s s'.
Proof.
  induction keys as [|k keys IH]; intros s s'; simpl.
  - intros [= <-]. left. exists None. auto.
  - destruct (head input) as [keyName|]; [|discriminate].
    destruct (_ || _).
    + intros H. right. apply take_continuous_Ok, H.
    + destruct (currentInput s) as [ci|]; [|discriminate].
      destruct (Input_keyIn keyName ci) as [ci'|]; simpl; [|discriminate].
      intros H. apply IH in H. destruct H as [[ci2 [->| ->]]|H].
      * left. eexists. right. reflexivity.
      * left. exists ci2. right. reflexivity.
      * right. destruct H as [[] ? ? ? ? ?].
        (constructor; [constructor|..]); simpl in *; auto.
Qed.

Lemma end_display_Ok s s' :
  end_display s = Ok s' ->
  Frame s s' /\ (trialStage s' = (-1)%Z \/ trialStage s' = 0%Z).
Proof.
  unfold end_display. destruct (currentInput s) as [ci|]; [|discriminate]. simpl.
  destruct (specify_next s) as [| |e]; [discriminate| |].
  - intros [= <-]. split; [|left; destruct (negb _); reflexivity].
    destruct (negb _); constructor; simpl; auto; discriminate.
  - destruct (_buildLoopStimuli _ _ _) as [s2|] eqn:B; simpl; [|discriminate].
    apply buildLoopStimuli_Ok in B. destruct B as [ci2 ->].
    intros [= <-]. split; [|right; reflexivity]. constructor; simpl; auto.
Qed.

(** One invocation of the loop, by the stage of the trial, when the survey
    is not skipping. *)
Lemma Loop_unfold env s :
  survey_run_status s <> SURVEY_SKIPPING ->
  _SurveyQuestionLoop env s =
  if (trialStage s =? 0)%Z then
    match currentInput (question_setAutoDraw true s) with
    | None => TypeError
    | Some ci =>
        Ok (set_trialStage
              (if String.eqb (Input_name (Input_setAutoDraw true ci)) "CONTINUOUS"
               then TAKING_CONTINUOUS else TAKING_DISCRETE)
              (set_currentInput (Some (Input_setAutoDraw true ci))
                 (question_setAutoDraw true s)), FLIP_REPEAT)
    end
  else if (trialStage s =? TAKING_DISCRETE)%Z then
    match currentInput s with
    | None => TypeError
    | Some ci =>
        match getKeys (Input_getKeys ci) env with
        | [] => Ok (s, FLIP_REPEAT)
        | k :: _ => s' ← take_discrete k env s; Ok (s', FLIP_REPEAT)
        end
    end
  else if (trialStage s =? TAKING_CONTINUOUS)%Z then
    match currentInput s with
    | None => TypeError
    | Some ci =>
        s' ← for_key_of (getKeys (Input_getKeys ci) env)
               (getKeys (Input_getKeys ci) env) env s;
        Ok (s', FLIP_REPEAT)
    end
  else if (trialStage s =? DISPLAY_RESPONSE)%Z then
    if Qle_bool (linger s) (clock_getTime env s)
    then s' ← end_display s; Ok (s', FLIP_REPEAT)
    else Ok (s, FLIP_REPEAT)
  else Ok (question_setAutoDraw false s, NEXT).
Proof.
  intros H. unfold _SurveyQuestionLoop.
  destruct (survey_run_status s); try contradiction; reflexivity.
Qed.

Lemma Loop_frame env s s' ev :
  _SurveyQuestionLoop env s = Ok (s', ev) -> Frame s s'.
Proof.
  destruct (decide (survey_run_status s = SURVEY_SKIPPING)) as [St|St].
  { unfold _SurveyQuestionLoop. rewrite St. intros [= <- _]. apply Frame_refl. }
  rewrite (Loop_unfold env s St).
  destruct (trialStage s =? 0)%Z.
  { simpl. destruct (currentInput s); [|discriminate].
    intros [= <- _]. constructor; simpl; auto. }
  destruct (trialStage s =? TAKING_DISCRETE)%Z.
  { destruct (currentInput s) as [ci|]; [|discriminate].
    destruct (getKeys _ env) as [|k ks]; [intros [= <- _]; apply Frame_refl|].
    destruct (take_discrete k env s) as [s1|] eqn:T; simpl; [|discriminate].
    intros [= <- _]. apply take_discrete_Ok in T. apply T. }
  destruct (trialStage s =? TAKING_CONTINUOUS)%Z.
  { destruct (currentInput s) as [ci|]; [|discriminate].
    destruct (for_key_of _ _ env s) as [s1|] eqn:T; simpl; [|discriminate].
    intros [= <- _]. apply for_key_of_Ok in T.
    destruct T as [[ci2 [->| ->]]|T];
      [apply Frame_refl | constructor; simpl; auto | apply T]. }
  destruct (trialStage s =? DISPLAY_RESPONSE)%Z.
  { destruct (Qle_bool _ _); [|intros [= <- _]; apply Frame_refl].
    destruct (end_display s) as [s1|] eqn:T; simpl; [|discriminate].
    intros [= <- _]. apply end_display_Ok in T. apply T. }
  intros [= <- _]. constructor; simpl; auto.
Qed.

(** An invocation of an input stage that ends in the display stage has
    captured an answer. *)
Lemma Loop_captured env s s' ev :
  (trialStage s = TAKING_DISCRETE \/ trialStage s = TAKING_CONTINUOUS) ->
  _SurveyQuestionLoop env s = Ok (s', ev) ->
  trialStage s' = DISPLAY_RESPONSE ->
  Captured env s s' /\ survey_run_status s <> SURVEY_SKIPPING.
Proof.
  intros Hst HL H3.
  assert (Hns : survey_run_status s <> SURVEY_SKIPPING).
  { intros St. unfold _SurveyQuestionLoop in HL. rewrite St in HL.
    injection HL as <- _. rewrite H3 in Hst. destruct Hst; discriminate. }
  split; [|exact Hns].
  rewrite (Loop_unfold env s Hns) in HL.
  destruct (currentInput s) as [ci|] eqn:Hci.
  2:{ destruct Hst as [Hs|Hs]; rewrite Hs in HL; simpl in HL; discriminate. }
  destruct Hst as [Hs|Hs]; rewrite Hs in HL; simpl in HL.
  - destruct (getKeys _ env) as [|k ks].
    + injection HL as <- _. rewrite H3 in Hs. discriminate.
    + destruct (take_discrete k env s) as [s1|] eqn:T; simpl in HL; [|discriminate].
      injection HL as <- _. apply (take_discrete_Ok _ _ _ _ T).
  - destruct (for_key_of _ _ env s) as [s1|] eqn:T; simpl in HL; [|discriminate].
    injection HL as <- _. apply for_key_of_Ok in T.
    destruct T as [[ci2 [->| ->]]|T]; [| |exact T];
      exfalso; simpl in H3; rewrite H3 in Hs; discriminate.
Qed.

(** C6.  Linger invariant.  Let an answer be captured at the invocation
    [env0], which puts the question in the display stage, with a follow-up
    (if any) whose option list is present.  At every poll whose elapsed
    time since [env0] is strictly less than the linger, the loop repeats
    with the state unchanged; at the first poll whose elapsed time is at
    least the linger, the stage becomes done ([-1]) or, for a follow-up,
    0. *)
Theorem C6_linger_invariant :
  forall (s0 s : State) (env0 : Env) (ev : Event) (early : list Env) (env : Env),
    (trialStage s0 = TAKING_DISCRETE \/ trialStage s0 = TAKING_CONTINUOUS) ->
    _SurveyQuestionLoop env0 s0 = Ok (s, ev) ->
    trialStage s = DISPLAY_RESPONSE ->
    (forall e, specify_next s = SpecEntry e -> inputs_present (specify_input e) = true) ->
    Forall (fun e => (now e - now env0 < linger s)%Q) early ->
    (linger s <= now env - now env0)%Q ->
    outcome (run step [TLoop] early s) = Waiting s [TLoop] /\
    exists s',
      _SurveyQuestionLoop env s = Ok (s', FLIP_REPEAT) /\
      (trialStage s' = (-1)%Z \/ trialStage s' = 0%Z) /\
      outcome (run step [TLoop] (early ++ [env]) s) = Waiting s' [TLoop].
Proof.
  intros s0 s env0 ev early env Hst HL H3 Hwf Hearly Hlate.
  destruct (Loop_captured _ _ _ _ Hst HL H3) as [[Hfr Hstat _ Hclk [ci Hci] Hspec] Hns].
  assert (Hns' : survey_run_status s <> SURVEY_SKIPPING) by (rewrite Hstat; exact Hns).
  assert (Hloop : forall e, _SurveyQuestionLoop e s =
             if Qle_bool (linger s) (now e - now env0)
             then s1 ← end_display s; Ok (s1, FLIP_REPEAT)
             else Ok (s, FLIP_REPEAT)).
  { intros e. rewrite (Loop_unfold e s Hns'). unfold clock_getTime.
    rewrite H3, Hclk. reflexivity. }
  assert (Hwait : outcome (run step [TLoop] early s) = Waiting s [TLoop]).
  { clear Hlate. induction Hearly as [|e es He _ IH]; [reflexivity|].
    simpl. rewrite Hloop.
    destruct (Qle_bool _ _) eqn:Q.
    - apply Qle_bool_iff in Q. exfalso. apply (Qlt_not_le _ _ He), Q.
    - simpl. exact IH. }
  split; [exact Hwait|].
  assert (Hend : exists s', end_display s = Ok s').
  { unfold end_display. rewrite Hci. simpl.
    destruct (specify_next s) as [| |e] eqn:Hs; [contradiction|eauto|].
    specialize (Hwf e eq_refl). unfold _buildLoopStimuli.
    destruct (specify_input e) as [[l|] sp sk|kl ml sp]; simpl in *;
      try discriminate; eauto. }
  destruct Hend as [s' Hend]. exists s'.
  assert (HL2 : _SurveyQuestionLoop env s = Ok (s', FLIP_REPEAT)).
  { rewrite Hloop. apply Qle_bool_iff in Hlate. rewrite Hlate, Hend. reflexivity. }
  split; [exact HL2|]. split; [apply end_display_Ok in Hend; apply Hend|].
  rewrite run_app, Hwait. simpl. rewrite HL2. reflexivity.
Qed.

Lemma C6_linger_invariant_witness :
  outcome (run step [TLoop] [poll (6 # 5) []; poll (7 # 5) []] answered_state)
    = Waiting answered_state [TLoop] /\
  exists s',
    _SurveyQuestionLoop (poll (3 # 2) []) answered_state = Ok (s', FLIP_REPEAT) /\
    (trialStage s' = (-1)%Z \/ trialStage s' = 0%Z) /\
    outcome (run step [TLoop] ([poll (6 # 5) []; poll (7 # 5) []] ++ [poll (3 # 2) []])
                 answered_state) = Waiting s' [TLoop].
Proof.
  apply (C6_linger_invariant asking_state answered_state (poll 1 ["n"]) FLIP_REPEAT
           [poll (6 # 5) []; poll (7 # 5) []] (poll (3 # 2) [])).
  - left. reflexivity.
  - vm_compute. reflexivity.
  - reflexivity.
  - intros e H. vm_compute in H. discriminate.
  - repeat constructor.
  - vm_compute. discriminate.
Defined.

Lemma End_skipping s :
  survey_run_status s = SURVEY_SKIPPING -> _SurveyQuestionEnd s = (s, NEXT).
Proof. unfold _SurveyQuestionEnd. intros ->. reflexivity. Qed.

Lemma End_records s :
  survey_run_status s <> SURVEY_SKIPPING ->
  exists s', _SurveyQuestionEnd s = (s', NEXT) /\
    sink s' = (sink s ++ [sink_call s])%list /\
    currentData s' = empty_object /\
    survey_run_status s' =
      match survey_run_status s with
      | SURVEY_BEGIN_SKIP => SURVEY_SKIPPING
      | st => st
      end.
Proof.
  intros H. unfold _SurveyQuestionEnd, sink_call, category.
  destruct (survey_run_status s) eqn:St; try contradiction;
    eexists; (split; [reflexivity|]); simpl; rewrite ?St; auto.
Qed.

(** [_SurveyQuestionBegin] either passes the question over or starts its
    record. *)
Lemma Begin_Ok q env s s' ev :
  _SurveyQuestionBegin q env s = Ok (s', ev) ->
  ev = NEXT /\
  if entirely_skipped s then s' = s
  else sink s' = sink s /\ psiTurk s' = psiTurk s /\ survey_set s' = survey_set s /\
       question_index (currentData s') = q_index q /\
       survey_run_status s' <> SURVEY_SKIPPING.
Proof.
  unfold _SurveyQuestionBegin, entirely_skipped.
  destruct (survey_run_status s) eqn:St; simpl.
  2: destruct (loose_eq _ _); simpl; [|intros [= <- <-]; auto].
  all: match goal with
       | |- context [_buildLoopStimuli ?t ?i ?x] =>
           destruct (_buildLoopStimuli t i x) as [s6|] eqn:B; simpl; [|discriminate];
           apply buildLoopStimuli_Ok in B; destruct B as [ci ->]
       end;
    intros [= <- <-]; simpl; rewrite ?St; repeat split; auto; discriminate.
Qed.

(** The loop and the end of a question that is not skipped. *)
Lemma loop_phase envs : forall s1,
  survey_run_status s1 <> SURVEY_SKIPPING ->
  match outcome (run step [TLoop; TEnd] envs s1) with
  | Finished s' => exists s2, Frame s1 s2 /\ s' = (_SurveyQuestionEnd s2).1
  | Waiting s' _ => Frame s1 s'
  | Stopped _ => False
  | Threw _ => True
  end.
Proof.
  induction envs as [|e es IH]; intros s1 Hns; simpl; [apply Frame_refl|].
  destruct (_SurveyQuestionLoop e s1) as [[s2 ev]|] eqn:L; simpl; [|exact I].
  pose proof (Loop_frame _ _ _ _ L) as Hfr.
  destruct ev; simpl.
  - destruct es as [|e' es]; simpl; [exact Hfr|].
    destruct (_SurveyQuestionEnd s2) as [s3 ev3] eqn:E. simpl.
    assert (ev3 = NEXT) as ->.
    { unfold _SurveyQuestionEnd in E. destruct (survey_run_status s2); congruence. }
    simpl. rewrite run_nil. simpl. exists s2. rewrite E. auto.
  - specialize (IH s2 (fr_status _ _ Hfr Hns)).
    destruct (outcome (run step [TLoop; TEnd] es s2)); auto.
    + destruct IH as (s3 & H1 & H2). exists s3.
      split; [eapply Frame_trans; eauto|exact H2].
    + eapply Frame_trans; eauto.
Qed.

(** C4.  Record emission discipline.  [_SurveyQuestionEnd] does nothing
    while the survey is skipping; otherwise it hands exactly one record, the
    current one, to the sink, and a status BeginSkip becomes Skipping in the
    same step, so that this question's answer is recorded and the skip
    starts with the next one.  Over the tasks of one question, from any
    state: a question passed over by its begin leaves the state as it was;
    a visited question that reaches its end has added exactly one record to
    the sink, with its own index and category; and before the end nothing
    is added. *)
Theorem C4_record_emission :
  (forall s : State,
      survey_run_status s = SURVEY_SKIPPING -> _SurveyQuestionEnd s = (s, NEXT)) /\
  (forall s : State,
      survey_run_status s <> SURVEY_SKIPPING ->
      exists s', _SurveyQuestionEnd s = (s', NEXT) /\
        sink s' = (sink s ++ [sink_call s])%list /\
        currentData s' = empty_object /\
        survey_run_status s' =
          match survey_run_status s with
          | SURVEY_BEGIN_SKIP => SURVEY_SKIPPING
          | st => st
          end) /\
  (forall (q : QuestionSpec) (envs : list Env) (s : State),
      match outcome (run step (question_tasks q) envs s) with
      | Finished s' =>
          if entirely_skipped s then s' = s
          else exists c, sink s' = (sink s ++ [c])%list /\
                 question_index (call_data c) = q_index q /\
                 call_category c = ToString (survey_set s) ++ "_" ++ ToString (q_index q)
      | Waiting s' _ => sink s' = sink s
      | Stopped _ => False
      | Threw _ => True
      end).
Proof.
  split; [exact End_skipping|]. split; [exact End_records|].
  intros q envs s. unfold question_tasks.
  destruct envs as [|e es]; [reflexivity|]. simpl.
  destruct (_SurveyQuestionBegin q e s) as [[s1 ev]|] eqn:B; simpl; [|exact I].
  apply Begin_Ok in B. destruct B as [-> B]. simpl.
  destruct (entirely_skipped s) eqn:Sk.
  - subst s1. assert (St : survey_run_status s = SURVEY_SKIPPING).
    { unfold entirely_skipped in Sk. destruct (survey_run_status s); congruence. }
    destruct es as [|e2 es]; [reflexivity|]. simpl.
    unfold _SurveyQuestionLoop. rewrite St. simpl.
    destruct es as [|e3 es]; [reflexivity|]. simpl.
    rewrite (End_skipping s St). simpl. rewrite run_nil. reflexivity.
  - destruct B as (Hsink & Hpsi & Hset & Hidx & Hns).
    pose proof (loop_phase es s1 Hns) as HL.
    destruct (outcome (run step [TLoop; TEnd] es s1)) as [s'|s'|s' w|m]; auto.
    + destruct HL as (s2 & Hfr & ->).
      destruct (End_records s2 (fr_status _ _ Hfr Hns)) as (s3 & E & Hs3 & _).
      rewrite E. simpl. exists (sink_call s2). destruct Hfr.
      split; [congruence|]. unfold sink_call, category.
      destruct (psiTurk s2); simpl; split; congruence.
    + destruct HL. congruence.
Qed.

(** A visited question does reach its end: a yes/no question, answered
    [y], hands over one record. *)
Lemma question_reaches_end :
  exists s' c,
    outcome (run step (question_tasks (mkQuestion (JNum 2) "Q2?" (DISCRETE yes_no None None)))
                 [poll 0 []; poll 0 []; poll 1 ["y"]; poll 2 []; poll 2 []; poll 2 []]
                 (set_linger (1 # 2) (initStimuli false))) = Finished s' /\
    sink s' = [c] /\ question_index (call_data c) = JNum 2 /\
    choice (call_data c) = JStr "y".
Proof. eexists _, _. split; [vm_compute; reflexivity|]. repeat split. Qed.

(** While skipping, [_SurveyQuestionBegin] compares the skip index with the
    [index] of the text stimulus, which is undefined, and so passes over
    every question, the target included. *)
Lemma Begin_passes_over q env s :
  survey_run_status s = SURVEY_SKIPPING ->
  index (question_stim s) = JUndefined ->
  skipIndex s <> JUndefined -> skipIndex s <> JNull ->
  _SurveyQuestionBegin q env s = Ok (s, NEXT).
Proof.
  intros St Hi H1 H2. unfold _SurveyQuestionBegin. rewrite St, Hi.
  destruct (skipIndex s); try contradiction; reflexivity.
Qed.

(** C1.  Skip redirection, the code at the failing input.  While the survey
    is skipping to the index [T], the begin of the question with index [T]
    returns with the state unchanged: the skip index is not cleared and the
    status stays Skipping.  In the three-question survey whose first answer
    [n] skips to index 3, the run ends with question 1 alone recorded, the
    status Skipping and the skip index 3 pending, although [y] was pressed
    during question 3. *)
Theorem C1_skip_target_passed_over :
  (forall (q : QuestionSpec) (env : Env) (s : State) (T : Z),
      survey_run_status s = SURVEY_SKIPPING ->
      index (question_stim s) = JUndefined ->
      skipIndex s = JNum T ->
      q_index q = JNum T ->
      _SurveyQuestionBegin q env s = Ok (s, NEXT)) /\
  exists s,
    outcome (addSurveyQuestions skip_survey skip_polls (initStimuli false)) = Finished s /\
    recorded_indices s = [JNum 1] /\
    survey_run_status s = SURVEY_SKIPPING /\
    skipIndex s = JNum 3.
Proof.
  split.
  - intros q env s T St Hi Hs _. apply Begin_passes_over; auto; rewrite Hs; discriminate.
  - eexists. split; [vm_compute; reflexivity|]. repeat split.
Qed.

Lemma for_key_of_first_key k input env : forall keys c s,
  head input = Some k ->
  k <> "return" -> k <> "enter" ->
  currentInput s = Some (Continuous c) ->
  for_key_of input keys env s =
  Ok (match keys with
      | [] => s
      | _ => set_currentInput
               (Some (Continuous (typed (replicate (length keys) k) c))) s
      end).
Proof.
  intros keys c s Hh Hr He. revert c s.
  induction keys as [|x keys IH]; intros c s Hc; simpl; [reflexivity|].
  rewrite Hh.
  destruct (String.eqb_spec k "return"); [contradiction|].
  destruct (String.eqb_spec k "enter"); [contradiction|]. simpl.
  rewrite Hc. simpl.
  rewrite (IH (ContinuousInput.keyIn k c)
              (set_currentInput (Some (Continuous (ContinuousInput.keyIn k c))) s))
    by reflexivity.
  destruct keys; reflexivity.
Qed.

Lemma take_continuous_input env s s' :
  take_continuous env s = Ok s' ->
  forall c, currentInput s = Some (Continuous c) -> currentInput s' = Some (Continuous c).
Proof.
  unfold take_continuous. intros H c Hc. rewrite Hc in H. simpl in H.
  destruct (record_answer _ _ env _) as [s1|] eqn:R; simpl in H; [|discriminate].
  apply record_answer_Ok in R. destruct R as (d & -> & _).
  injection H as <-. reflexivity.
Qed.

(** A poll of the continuous stage keeps the text within [maxLength]. *)
Lemma continuous_stage_bounded s s' env ev c :
  currentInput s = Some (Continuous c) ->
  (String.length (ContinuousInput.text c) <= ContinuousInput.maxLength c)%nat ->
  trialStage s = TAKING_CONTINUOUS ->
  _SurveyQuestionLoop env s = Ok (s', ev) ->
  exists c', currentInput s' = Some (Continuous c') /\
    ContinuousInput.maxLength c' = ContinuousInput.maxLength c /\
    (String.length (ContinuousInput.text c') <= ContinuousInput.maxLength c')%nat.
Proof.
  intros Hc Hb Hst HL.
  destruct (decide (survey_run_status s = SURVEY_SKIPPING)) as [St|St].
  { unfold _SurveyQuestionLoop in HL. rewrite St in HL. injection HL as <- _. eauto. }
  rewrite (Loop_unfold env s St), Hst, Hc in HL. simpl in HL.
  destruct (getKeys (ContinuousInput.getKeys c) env) as [|k ks] eqn:Hk.
  { simpl in HL. injection HL as <- _. eauto. }
  assert (Hin : k ∈ ContinuousInput.getKeys c).
  { assert (H : k ∈ getKeys (ContinuousInput.getKeys c) env) by (rewrite Hk; left).
    unfold getKeys in H. apply list_elem_of_filter in H. apply H. }
  destruct (for_key_of _ _ env s) as [s1|] eqn:F; simpl in HL; [|discriminate].
  injection HL as <- _.
  destruct (String.eqb_spec k "return") as [Hr|Hr];
    [|destruct (String.eqb_spec k "enter") as [He|He]].
  - simpl in F. rewrite (proj2 (String.eqb_eq _ _) Hr) in F. simpl in F.
    rewrite (take_continuous_input _ _ _ F c Hc). eauto.
  - simpl in F. rewrite (proj2 (String.eqb_eq _ _) He), orb_true_r in F.
    rewrite (take_continuous_input _ _ _ F c Hc). eauto.
  - rewrite (for_key_of_first_key k (k :: ks) env (k :: ks) c s eq_refl Hr He Hc) in F.
    injection F as <-. exists (typed (replicate (length (k :: ks)) k) c).
    split; [reflexivity|]. split; [apply ContinuousFacts.typed_maxLength|].
    rewrite ContinuousFacts.typed_maxLength.
    apply ContinuousFacts.typed_bounded; [|exact Hb].
    apply Forall_replicate. eapply ContinuousFacts.getKeys_typing; eauto.
Qed.

(** C7.  Continuous text buffer invariants.  From the built (empty) input,
    after every prefix of every sequence of typing keys (the selectable
    keys that are not submit keys) the text is no longer than [maxLength];
    [keyIn] with a key other than backspace changes nothing when the text
    has [maxLength] characters; backspace on an empty text leaves it empty;
    submitting an empty text yields the value [""]; and in the state
    machine every poll of the continuous stage, whatever keys are pending,
    keeps the text within [maxLength]. *)
Theorem C7_text_buffer :
  forall (keyList : option string) (maxLength : option nat) (specify : list SpecifyEntry)
         (keys : list string),
    Forall (fun k => k ∈ typing_keys) keys ->
    let c0 := ContinuousInput.build keyList maxLength specify in
    (forall n : nat,
        (String.length (ContinuousInput.text (typed (take n keys) c0))
         <= ContinuousInput.maxLength c0)%nat) /\
    (forall (c : ContinuousInput.t) (k : string),
        k <> "backspace" ->
        String.length (ContinuousInput.text c) = ContinuousInput.maxLength c ->
        ContinuousInput.keyIn k c = c) /\
    (forall c : ContinuousInput.t,
        ContinuousInput.text c = "" -> ContinuousInput.keyIn "backspace" c = c) /\
    (forall c : ContinuousInput.t,
        ContinuousInput.text c = "" ->
        b_value (ContinuousInput.optionSelected c) = JStr "") /\
    b_value (ContinuousInput.optionSelected c0) = JStr "" /\
    (forall (s s' : State) (env : Env) (ev : Event) (c : ContinuousInput.t),
        currentInput s = Some (Continuous c) ->
        (String.length (ContinuousInput.text c) <= ContinuousInput.maxLength c)%nat ->
        trialStage s = TAKING_CONTINUOUS ->
        _SurveyQuestionLoop env s = Ok (s', ev) ->
        exists c', currentInput s' = Some (Continuous c') /\
          ContinuousInput.maxLength c' = ContinuousInput.maxLength c /\
          (String.length (ContinuousInput.text c') <= ContinuousInput.maxLength c')%nat).
Proof.
  intros keyList ml sp keys Hk c0.
  split; [|split; [|split; [|split; [|split]]]].
  - intros n. apply ContinuousFacts.typed_bounded.
    + apply Forall_take. exact Hk.
    + simpl. lia.
  - intros c k Hb Hfull. unfold ContinuousInput.keyIn.
    destruct (String.eqb_spec k "backspace"); [contradiction|].
    rewrite Hfull, Nat.ltb_irrefl. reflexivity.
  - intros c Hc. unfold ContinuousInput.keyIn. simpl. destruct c; simpl in *. subst. reflexivity.
  - intros c Hc. simpl. rewrite Hc. reflexivity.
  - reflexivity.
  - intros s s' env ev c. apply continuous_stage_bounded.
Qed.

Lemma C7_text_buffer_witness :
  (String.length
     (ContinuousInput.text
        (typed (take 5 ["a"; "b"; "minus"; "c"; "backspace"; "d"])
               (ContinuousInput.build (Some "LETTERS") (Some 3) []))) <= 3)%nat.
Proof.
  apply (C7_text_buffer (Some "LETTERS") (Some 3) []
           ["a"; "b"; "minus"; "c"; "backspace"; "d"]).
  repeat constructor; vm_compute; set_solver.
Defined.

(** C2.  Pending keys in the continuous stage, the code at the failing
    input.  Every iteration over the pending keys reads the first of them:
    a snapshot [k :: ks] whose first key is not a submit key types [k] once
    per pending key.  With [a] and [b] pending, the text becomes [AA]. *)
Theorem C2_first_key_repeated :
  (forall (k : string) (ks : list string) (env : Env) (c : ContinuousInput.t) (s : State),
      k <> "return" -> k <> "enter" ->
      currentInput s = Some (Continuous c) ->
      for_key_of (k :: ks) (k :: ks) env s =
      Ok (set_currentInput
            (Some (Continuous (typed (replicate (length (k :: ks)) k) c))) s)) /\
  exists s' c',
    _SurveyQuestionLoop (poll 1 ["a"; "b"]) typing_state = Ok (s', FLIP_REPEAT) /\
    currentInput s' = Some (Continuous c') /\
    ContinuousInput.text c' = "AA".
Proof.
  split.
  - intros k ks env c s Hr He Hc.
    rewrite (for_key_of_first_key k (k :: ks) env (k :: ks) c s); auto.
  - eexists _, _. split; [vm_compute; reflexivity|]. split; reflexivity.
Qed.

(** C3.  Primary and specify bookkeeping, the code at the failing input.
    After a free-text primary answer the recorded choice is undefined, which
    [== null] takes for no answer yet: the next answer replaces the primary
    choice, RT and value and the specify list stays as it was.  In the run
    of [text_survey] the primary value [X] (RT 2) is replaced by the
    follow-up answer [Y] (RT 3), and the record handed over has an empty
    specify list. *)
Theorem C3_primary_overwritten :
  (forall (c : jsval) (b : Behavior) (env : Env) (s : State),
      choice (currentData s) = JUndefined ->
      record_answer c b env s =
      Ok (set_currentData
            (mkAnswer (survey (currentData s)) (question_index (currentData s))
                      (question (currentData s)) (question_type (currentData s))
                      c (RTSeconds (clock_getTime env s)) (b_value b)
                      (specify (currentData s))) s)) /\
  (exists s1 w,
      outcome (addSurveyQuestions text_survey (take 5 text_polls) (initStimuli false))
        = Waiting s1 w /\
      value (currentData s1) = JStr "X" /\ RT (currentData s1) = RTSeconds 2 /\
      choice (currentData s1) = JUndefined) /\
  exists s d,
    outcome (addSurveyQuestions text_survey text_polls (initStimuli false)) = Finished s /\
    call_data <$> sink s = [d] /\
    value d = JStr "Y" /\ RT d = RTSeconds 3 /\ specify d = Some [].
Proof.
  split; [|split].
  - intros c b env s Hc. unfold record_answer. rewrite Hc. reflexivity.
  - eexists _, _. split; [vm_compute; reflexivity|]. repeat split.
  - eexists _, _. split; [vm_compute; reflexivity|]. repeat split.
Qed.

(** C5, as stated, fails.  A survey with two options on one key and a skip
    to an absent index is loaded, presented and recorded, the later option
    standing for the key; a survey whose second question lacks its option
    list is loaded, its first question is presented and recorded, and the
    error is raised when the second question begins. *)
Lemma C5_counterexample :
  (malformed duplicate_survey = true /\
   (_generateSurveyQuestionsLoop duplicate_survey (initStimuli false)).1.2 = NEXT /\
   exists s d,
     outcome (addSurveyQuestions duplicate_survey duplicate_polls (initStimuli false))
       = Finished s /\
     call_data <$> sink s = [d] /\ choice d = JStr "y" /\ value d = JStr "Yeah") /\
  (malformed missing_survey = true /\
   (_generateSurveyQuestionsLoop missing_survey (initStimuli false)).1.2 = NEXT /\
   outcome (addSurveyQuestions missing_survey missing_polls (initStimuli false))
     = Threw "TypeError" /\
   exists s d,
     outcome (addSurveyQuestions missing_survey (take 8 missing_polls) (initStimuli false))
       = Waiting s (iteration (mkQuestion (JNum 2) "Q2?" (DISCRETE None None None))) /\
     call_data <$> sink s = [d] /\ choice d = JStr "y").
Proof.
  split.
  - split; [reflexivity|]. split; [reflexivity|].
    eexists _, _. split; [vm_compute; reflexivity|]. repeat split.
  - split; [reflexivity|]. split; [reflexivity|]. split; [vm_compute; reflexivity|].
    eexists _, _. split; [vm_compute; reflexivity|]. repeat split.
Qed.

(** The stimulus built for a key is that of the last option on that key. *)
Lemma build_lookup o k (l : list OptionSpec) :
  foldl (fun m el => <[opt_key el := DiscreteInput.new_stimulus o el]> m)
        (∅ : gmap string DiscreteInput.Stimulus) l !! k =
  DiscreteInput.new_stimulus o <$> find (fun el => String.eqb (opt_key el) k) (rev l).
Proof.
  induction l as [|x l IH] using rev_ind; [reflexivity|].
  rewrite foldl_app, rev_app_distr. simpl. unfold find in *. simpl.
  destruct (String.eqb_spec (opt_key x) k) as [->|Hne].
  - rewrite lookup_insert_eq. reflexivity.
  - rewrite lookup_insert_ne by exact Hne. exact IH.
Qed.

(** C5, amended.  Loading validates nothing: for every survey, malformed or
    not, the loop is generated and schedules the instructions task and four
    tasks per question.  A question whose option list is present begins
    without error, whatever its keys and skip targets; a discrete question
    without option list raises a TypeError when it begins, unless it is
    passed over; and of two options on one key the later one is built. *)
Theorem C5_no_validation_at_load :
  (forall (sv : Survey) (s : State),
      exists s' tasks,
        _generateSurveyQuestionsLoop sv s = (s', NEXT, tasks) /\
        length tasks = (1 + 4 * length (questions sv))%nat) /\
  (forall (q : QuestionSpec) (env : Env) (s : State),
      inputs_present (q_input q) = true ->
      exists s', _SurveyQuestionBegin q env s = Ok (s', NEXT)) /\
  (forall (q : QuestionSpec) (env : Env) (s : State),
      inputs_present (q_input q) = false ->
      entirely_skipped s = false ->
      _SurveyQuestionBegin q env s = TypeError) /\
  (forall (o : DiscreteInput.Options) (l : list OptionSpec)
          (sp : list SpecifyEntry) (sk : list SkipEntry) (k : string),
      exists d, DiscreteInput.build o (Some l) sp sk = Ok d /\
        DiscreteInput.stimuli d !! k =
        DiscreteInput.new_stimulus o <$>
          find (fun el => String.eqb (opt_key el) k) (rev l)).
Proof.
  split; [|split; [|split]].
  - intros sv s. eexists _, _. split; [reflexivity|]. simpl. f_equal.
    induction (questions sv) as [|q l IH]; simpl; [reflexivity|]. rewrite IH. lia.
  - intros q env s Hp. unfold _SurveyQuestionBegin.
    assert (Hb : forall x, exists s', _buildLoopStimuli (q_question q) (q_input q) x = Ok s').
    { intros x. unfold _buildLoopStimuli.
      destruct (q_input q) as [[l|] sp sk|kl ml sp]; simpl in *; try discriminate; eauto. }
    destruct (survey_run_status s); simpl.
    2: destruct (loose_eq _ _); simpl; [|eauto].
    all: match goal with
         | |- context [_buildLoopStimuli ?t ?i ?x] => destruct (Hb x) as [s' ->]
         end; simpl; eauto.
  - intros q env s Hp Hs. unfold _SurveyQuestionBegin, entirely_skipped in *.
    assert (Hb : forall x, _buildLoopStimuli (q_question q) (q_input q) x = TypeError).
    { intros x. unfold _buildLoopStimuli.
      destruct (q_input q) as [[l|] sp sk|kl ml sp]; simpl in *; try discriminate; reflexivity. }
    destruct (survey_run_status s); simpl.
    2: destruct (loose_eq _ _); simpl in *; [|discriminate].
    all: rewrite Hb; reflexivity.
  - intros o l sp sk k. eexists. split; [reflexivity|]. simpl. apply build_lookup.
Qed.

Lemma C5_no_validation_at_load_witness :
  exists s', _SurveyQuestionBegin
               (mkQuestion (JNum 1) "Q1?"
                  (DISCRETE (Some [mkOption "y" "Yes"; mkOption "y" "Yeah"]) None
                            (Some [mkSkip "y" (JNum 9)])))
               (poll 0 []) (initStimuli false) = Ok (s', NEXT).
Proof.
  apply (proj1 (proj2 C5_no_validation_at_load)). reflexivity.
Defined.

End SurveyFacts.

(* ------------------------------------------------------------------ *)
(** ** More on the scheduler *)

Section SchedulerMore.
Context {Task State : Type}.
Variable step : Task -> Env -> State -> Exc (State * Event * bool).

(** A stopped run is in the state left by the task that stopped it. *)
Lemma run_stopped_inv (Q : State -> Prop) :
  (forall t e st st', step t e st = Ok (st', NEXT, true) -> Q st') ->
  forall envs tasks st st',
    outcome (run step tasks envs st) = Stopped st' -> Q st'.
Proof.
  intros Hstep envs. induction envs as [|e es IH]; intros tasks st st'.
  - destruct tasks; simpl; discriminate.
  - destruct tasks as [|t ts]; simpl; [discriminate|].
    destruct (step t e st) as [[[s1 ev] b]|m] eqn:E; simpl; [|discriminate].
    destruct ev; [destruct b|]; simpl.
    + intros [= <-]. eapply Hstep, E.
    + apply IH.
    + apply IH.
Qed.
(** A property kept by the scheduled tasks holds after every completed
    task. *)
Lemma run_completed_inv_tasks (I : State -> Prop) :
  forall envs tasks st,
    Forall (fun t => forall e st st' ev b,
                I st -> step t e st = Ok (st', ev, b) -> I st') tasks ->
    I st ->
    Forall (fun c => I c.2) (completed (run step tasks envs st)).
Proof.
  induction envs as [|e es IH]; intros tasks st Ht Hst.
  - destruct tasks; simpl; constructor.
  - destruct tasks as [|t ts]; simpl; [constructor|].
    destruct (step t e st) as [[[st' ev] b]|m] eqn:E; simpl; [|constructor].
    pose proof (Forall_inv Ht _ _ _ _ _ Hst E) as Hst'.
    destruct ev; [destruct b|]; simpl.
    + repeat constructor. exact Hst'.
    + constructor; [exact Hst'|]. apply IH; [eapply Forall_inv_tail, Ht|exact Hst'].
    + apply IH; [exact Ht|exact Hst'].
Qed.
(** Tasks scheduled one list after another: the second list starts when
    the first is exhausted. *)
Lemma run_seq ts2 envs : forall ts1 st,
  match outcome (run step ts1 envs st) with
  | Finished st1 =>
      exists es2, outcome (run step (ts1 ++ ts2) envs st) = outcome (run step ts2 es2 st1)
  | Waiting st' w => outcome (run step (ts1 ++ ts2) envs st) = Waiting st' (w ++ ts2)
  | Stopped st' => outcome (run step (ts1 ++ ts2) envs st) = Stopped st'
  | Threw m => outcome (run step (ts1 ++ ts2) envs st) = Threw m
  end.
Proof.
  induction envs as [|e es IH]; intros ts1 st.
  - destruct ts1 as [|t ts]; simpl.
    + exists []. reflexivity.
    + reflexivity.
  - destruct ts1 as [|t ts].
    + rewrite run_nil. simpl. exists (e :: es). reflexivity.
    + simpl. destruct (step t e st) as [[[s1 ev] b]|m] eqn:E; simpl; [|reflexivity].
      destruct ev; [destruct b|]; simpl.
      * reflexivity.
      * apply IH.
      * apply (IH (t :: ts)).
Qed.
End SchedulerMore.

(* ------------------------------------------------------------------ *)
(** ** The discrete choice input *)

Module DiscreteFacts.
Import ContinuousSpec InputNotions.

(** X1.  Resetting an input twice is resetting it once.  A reset discrete
    input keeps its keys and has every stimulus hidden and in the resting
    colour; a reset continuous input has an empty, hidden text and keeps
    its keys. *)
Theorem X1_reset_idempotent :
  (forall d : DiscreteInput.t,
      DiscreteInput.reset (DiscreteInput.reset d) = DiscreteInput.reset d /\
      DiscreteInput.getKeys (DiscreteInput.reset d) = DiscreteInput.getKeys d /\
      (forall k s, DiscreteInput.stimuli (DiscreteInput.reset d) !! k = Some s -> at_rest s)) /\
  (forall c : ContinuousInput.t,
      ContinuousInput.reset (ContinuousInput.reset c) = ContinuousInput.reset c /\
      ContinuousInput.text (ContinuousInput.reset c) = "" /\
      ContinuousInput.autoDraw (ContinuousInput.reset c) = false /\
      ContinuousInput.getKeys (ContinuousInput.reset c) = ContinuousInput.getKeys c).
Proof.
  split.
  - intros d. split; [|split].
    + unfold DiscreteInput.reset. simpl. f_equal.
      rewrite <- map_fmap_compose. apply map_fmap_ext. intros k [a b [t ad ac]] _. reflexivity.
    + unfold DiscreteInput.getKeys, DiscreteInput.reset. simpl.
      rewrite map_to_list_fmap, <- list_fmap_compose.
      apply list_fmap_ext. intros ? [? ?] _. reflexivity.
    + intros k s. unfold DiscreteInput.reset. simpl. rewrite lookup_fmap.
      destruct (DiscreteInput.stimuli d !! k); simpl; [|discriminate].
      intros [= <-]. split; reflexivity.
  - intros c. repeat split.
Qed.

Lemma getKeys_lookup d k :
  k ∈ DiscreteInput.getKeys d <-> is_Some (DiscreteInput.stimuli d !! k).
Proof.
  unfold DiscreteInput.getKeys. rewrite list_elem_of_fmap. split.
  - intros [[k' s] [-> H]]. apply elem_of_map_to_list in H. simpl. eauto.
  - intros [s H]. exists (k, s). split; [reflexivity|]. apply elem_of_map_to_list, H.
Qed.

Lemma find_rev_Some {A} (p : A -> bool) (l : list A) :
  is_Some (find p (rev l)) <-> exists x, x ∈ l /\ p x = true.
Proof.
  unfold find. split.
  - intros [x H]. apply find_some in H. destruct H as [Hin Hp].
    exists x. split; [|exact Hp]. apply list_elem_of_In. apply in_rev. exact Hin.
  - intros [x [Hin Hp]]. destruct (List.find p (rev l)) eqn:E; [eauto|].
    exfalso. pose proof (find_none _ _ E x) as H.
    rewrite H in Hp; [discriminate|]. apply in_rev. rewrite rev_involutive.
    apply list_elem_of_In. exact Hin.
Qed.

(** The keys of a built input are the keys of its options. *)
Lemma build_keys o (l : list OptionSpec) sp sk k :
  k ∈ DiscreteInput.getKeys
        (DiscreteInput.mk o
           (foldl (fun m el => <[opt_key el := DiscreteInput.new_stimulus o el]> m) ∅ l)
           sp sk)
  <-> k ∈ opt_key <$> l.
Proof.
  rewrite getKeys_lookup. simpl. rewrite SurveyFacts.build_lookup.
  rewrite fmap_is_Some, find_rev_Some, list_elem_of_fmap. split.
  - intros [x [Hin Hp]]. apply String.eqb_eq in Hp. eauto.
  - intros [x [-> Hin]]. exists x. split; [exact Hin|]. apply String.eqb_refl.
Qed.

(** X2.  [build] throws without an option list.  With one it keeps the
    specify and skip lists, and its selectable keys are the option keys,
    each once; every stimulus is stored under its own key, hidden and in
    the resting colour. *)
Theorem X2_build_getKeys :
  forall (o : DiscreteInput.Options) (sp : list SpecifyEntry) (sk : list SkipEntry),
    DiscreteInput.build o None sp sk = TypeError /\
    forall l : list OptionSpec,
      exists d, DiscreteInput.build o (Some l) sp sk = Ok d /\
        DiscreteInput.specify d = sp /\ DiscreteInput.skips d = sk /\
        NoDup (DiscreteInput.getKeys d) /\
        (forall k, k ∈ DiscreteInput.getKeys d <-> k ∈ opt_key <$> l) /\
        (forall k s, DiscreteInput.stimuli d !! k = Some s ->
                     DiscreteInput.key s = k /\ at_rest s).
Proof.
  intros o sp sk. split; [reflexivity|]. intros l.
  eexists. split; [reflexivity|]. simpl. split; [reflexivity|]. split; [reflexivity|].
  split; [apply NoDup_fst_map_to_list|]. split.
  - intros k. apply build_keys.
  - intros k s. rewrite SurveyFacts.build_lookup. unfold find.
    destruct (List.find _ (rev l)) as [x|] eqn:E; simpl; [|discriminate].
    intros [= <-]. apply find_some in E. destruct E as [_ E].
    apply String.eqb_eq in E. simpl. repeat split; auto.
Qed.

(** Selecting the key of a built option succeeds. *)
Lemma optionSelected_Ok d k s :
  DiscreteInput.stimuli d !! k = Some s ->
  exists d',
    DiscreteInput.optionSelected (Some k) d =
    Ok (d', mkBehavior (JStr (DiscreteInput.value s))
              (find (fun el => String.eqb (specify_key el) k) (DiscreteInput.specify d))
              (find (fun el => String.eqb (skip_key el) k) (DiscreteInput.skips d))).
Proof.
  intros H. unfold DiscreteInput.optionSelected.
  destruct (String.eqb _ "isolate"); simpl.
  - rewrite lookup_fmap, H. simpl. eexists. reflexivity.
  - rewrite H. eexists. reflexivity.
Qed.

(** X3.  [optionSelected] throws on a key that no built option has.  On
    the key of a built option it returns that option's value with the first
    specify entry and the first skip entry on the key, keeps the selectable
    keys, and activates the chosen stimulus; when the behaviour is isolate,
    the chosen stimulus is the only one drawn afterwards. *)
Theorem X3_optionSelected_isolates :
  forall (d : DiscreteInput.t) (k : string),
    (DiscreteInput.stimuli d !! k = None ->
     DiscreteInput.optionSelected (Some k) d = TypeError) /\
    (forall s, DiscreteInput.stimuli d !! k = Some s ->
       exists d' s',
         DiscreteInput.optionSelected (Some k) d =
         Ok (d', mkBehavior (JStr (DiscreteInput.value s))
                   (find (fun el => String.eqb (specify_key el) k) (DiscreteInput.specify d))
                   (find (fun el => String.eqb (skip_key el) k) (DiscreteInput.skips d))) /\
         DiscreteInput.getKeys d' ≡ₚ DiscreteInput.getKeys d /\
         DiscreteInput.stimuli d' !! k = Some s' /\
         DiscreteInput.activated (DiscreteInput.stim s') = true /\
         (DiscreteInput.behavior (DiscreteInput.options d) = "isolate" ->
          forall k2 s2, DiscreteInput.stimuli d' !! k2 = Some s2 ->
            (DiscreteInput.autoDraw (DiscreteInput.stim s2) = true <-> k2 = k))).
Proof.
  intros d k. unfold DiscreteInput.optionSelected. split.
  - intros H. destruct (String.eqb _ "isolate"); simpl; [rewrite lookup_fmap|]; rewrite H; reflexivity.
  - intros s H.
    destruct (String.eqb (DiscreteInput.behavior (DiscreteInput.options d)) "isolate") eqn:B; simpl.
    + rewrite lookup_fmap, H. simpl. eexists _, _. split; [reflexivity|]. simpl.
      split; [|split; [apply lookup_insert_eq|split; [reflexivity|]]].
      * unfold DiscreteInput.getKeys. simpl.
        apply NoDup_Permutation; try apply NoDup_fst_map_to_list.
        intros x. fold (DiscreteInput.getKeys d).
        rewrite (getKeys_lookup d x).
        rewrite list_elem_of_fmap. split.
        -- intros [[k' v] [-> Hv]]. apply elem_of_map_to_list in Hv. simpl.
           destruct (decide (k = k')) as [<-|Hne]; [eauto|].
           rewrite lookup_insert_ne, lookup_fmap in Hv by exact Hne.
           destruct (DiscreteInput.stimuli d !! k'); [eauto|discriminate].
        -- intros [v Hv]. destruct (decide (k = x)) as [<-|Hne].
           ++ eexists (k, _). split; [reflexivity|]. apply elem_of_map_to_list.
              apply lookup_insert_eq.
           ++ eexists (x, _). split; [reflexivity|]. apply elem_of_map_to_list.
              rewrite lookup_insert_ne, lookup_fmap, Hv by exact Hne. reflexivity.
      * intros _ k2 s2. destruct (decide (k = k2)) as [<-|Hne].
        -- rewrite lookup_insert_eq. intros [= <-]. simpl. tauto.
        -- rewrite lookup_insert_ne, lookup_fmap by exact Hne.
           destruct (DiscreteInput.stimuli d !! k2); simpl; [|discriminate].
           intros [= <-]. simpl. split; [discriminate|congruence].
    + rewrite H. eexists _, _. split; [reflexivity|]. simpl.
      split; [|split; [apply lookup_insert_eq|split; [reflexivity|]]].
      * unfold DiscreteInput.getKeys. simpl.
        apply NoDup_Permutation; try apply NoDup_fst_map_to_list.
        intros x. fold (DiscreteInput.getKeys d).
        rewrite (getKeys_lookup d x).
        rewrite list_elem_of_fmap. split.
        -- intros [[k' v] [-> Hv]]. apply elem_of_map_to_list in Hv. simpl.
           destruct (decide (k = k')) as [<-|Hne]; [eauto|].
           rewrite lookup_insert_ne in Hv by exact Hne. eauto.
        -- intros [v Hv]. destruct (decide (k = x)) as [<-|Hne].
           ++ eexists (k, _). split; [reflexivity|]. apply elem_of_map_to_list.
              apply lookup_insert_eq.
           ++ eexists (x, _). split; [reflexivity|]. apply elem_of_map_to_list.
              rewrite lookup_insert_ne by exact Hne. exact Hv.
      * intros Hb. apply String.eqb_eq in Hb. congruence.
Qed.

End DiscreteFacts.

(* ------------------------------------------------------------------ *)
(** ** The text of the continuous input *)

Module TextFacts.
Import ContinuousInput ContinuousSpec InputNotions.

Lemma upper_ascii_idem c : upper_ascii (upper_ascii c) = upper_ascii c.
Proof. destruct c as [[] [] [] [] [] [] [] []]; reflexivity. Qed.

Lemma string_map_app f a b : string_map f (a ++ b) = string_map f a ++ string_map f b.
Proof. induction a as [|x a IH]; simpl; [reflexivity|]. rewrite IH. reflexivity. Qed.

Lemma string_map_slice f a : string_map f (slice_0_m1 a) = slice_0_m1 (string_map f a).
Proof.
  induction a as [|x a IH]; [reflexivity|].
  destruct a as [|y a]; [reflexivity|].
  change (slice_0_m1 (String x (String y a))) with (String x (slice_0_m1 (String y a))).
  cbn [string_map]. rewrite IH. reflexivity.
Qed.

Lemma toUpperCase_idem s : toUpperCase (toUpperCase s) = toUpperCase s.
Proof.
  unfold toUpperCase. induction s as [|x s IH]; simpl; [reflexivity|].
  rewrite upper_ascii_idem, IH. reflexivity.
Qed.

Lemma keyIn_upper_case k c : upper_case (text c) -> upper_case (text (keyIn k c)).
Proof.
  unfold upper_case, keyIn, toUpperCase. intros H.
  destruct (String.eqb k "backspace"); simpl.
  { rewrite string_map_slice, H. reflexivity. }
  destruct (_ <? _)%nat; [|exact H].
  destruct (String.eqb k "space"); simpl; [rewrite string_map_app, H; reflexivity|].
  destruct (String.eqb k "minus"); simpl; [rewrite string_map_app, H; reflexivity|].
  rewrite string_map_app, H. f_equal. apply toUpperCase_idem.
Qed.

Lemma typed_upper_case keys : forall c, upper_case (text c) -> upper_case (text (typed keys c)).
Proof.
  induction keys as [|k keys IH]; intros c H; [exact H|].
  unfold typed. simpl. fold (typed keys (keyIn k c)). apply IH, keyIn_upper_case, H.
Qed.

(** X4.  The text of a continuous input never holds a lower-case letter:
    this is so after any sequence of [keyIn] calls on a built input, with
    any key names, and [keyIn] keeps it so. *)
Theorem X4_text_upper_case :
  forall (keyList : option string) (maxLength : option nat) (specify : list SpecifyEntry)
         (keys : list string) (c : t) (k : string),
    upper_case (text (typed keys (build keyList maxLength specify))) /\
    (upper_case (text c) -> upper_case (text (keyIn k c))).
Proof.
  intros. split; [apply typed_upper_case; reflexivity|apply keyIn_upper_case].
Qed.

Lemma slice_app_one t u : String.length u = 1%nat -> slice_0_m1 (t ++ u) = t.
Proof.
  destruct u as [|x [|y u]]; try discriminate. intros _.
  induction t as [|a t IH]; [reflexivity|].
  simpl. rewrite IH. destruct t; reflexivity.
Qed.

(** X5.  A typing key pressed while there is room adds one character, and
    backspace then takes it back: the input is as it was. *)
Theorem X5_backspace_undoes :
  forall (c : t) (k : string),
    k ∈ typing_keys -> k <> "backspace" ->
    (String.length (text c) < maxLength c)%nat ->
    String.length (text (keyIn k c)) = S (String.length (text c)) /\
    keyIn "backspace" (keyIn k c) = c.
Proof.
  intros c k Hk Hb Hlt.
  pose proof (proj1 (Forall_forall _ _) ContinuousFacts.typing_key_one_char k Hk) as H1.
  assert (Hu : exists u, String.length u = 1%nat /\ keyIn k c = set_text (text c ++ u) c).
  { unfold keyIn. destruct (String.eqb_spec k "backspace"); [contradiction|].
    destruct (Nat.ltb_spec (String.length (text c)) (maxLength c)); [|lia].
    destruct (String.eqb_spec k "space"); [exists " "; auto|].
    destruct (String.eqb_spec k "minus"); [exists "-"; auto|].
    exists (toUpperCase k). split; [|reflexivity].
    destruct H1 as [?|[?|[?|?]]]; try contradiction. assumption. }
  destruct Hu as (u & Hu & ->). split.
  - simpl. rewrite ContinuousFacts.length_append, Hu. lia.
  - unfold keyIn at 1. simpl. rewrite (slice_app_one _ _ Hu). destruct c; reflexivity.
Qed.

Lemma X5_backspace_undoes_witness :
  String.length (text (keyIn "q" two_letters)) = S (String.length (text two_letters)) /\
  keyIn "backspace" (keyIn "q" two_letters) = two_letters.
Proof.
  apply (X5_backspace_undoes two_letters "q").
  - compute_done.
  - discriminate.
  - vm_compute. lia.
Defined.

Lemma lower_upper_plain c : is_plain c = true -> lower_ascii (upper_ascii c) = c.
Proof. destruct c as [[] [] [] [] [] [] [] []]; vm_compute; congruence. Qed.

Lemma toLower_toUpper_plain s :
  string_forall is_plain s = true -> toLowerCase (toUpperCase s) = s.
Proof.
  unfold toLowerCase, toUpperCase. induction s as [|x s IH]; simpl; [reflexivity|].
  intros H. apply andb_true_iff in H. destruct H as [Hx Hs].
  rewrite (lower_upper_plain x Hx), (IH Hs). reflexivity.
Qed.

(** The key of a plain character has the character as its name. *)
Lemma keyIn_plain ch c :
  is_plain ch = true ->
  (String.length (text c) < maxLength c)%nat ->
  keyIn (String ch EmptyString) c = set_text (text c ++ String (upper_ascii ch) EmptyString) c.
Proof.
  intros Hp Hlt. unfold keyIn.
  destruct (Nat.ltb_spec (String.length (text c)) (maxLength c)); [|lia].
  cbn [String.eqb].
  destruct (ch =? "b")%char; destruct (ch =? "s")%char; destruct (ch =? "m")%char;
    reflexivity.
Qed.

Lemma app_assoc_string a b c : (a ++ b) ++ c = a ++ (b ++ c).
Proof.
  induction a as [|x a IH]; [reflexivity|].
  change (String x ((a ++ b) ++ c) = String x (a ++ b ++ c)). f_equal. exact IH.
Qed.

Lemma append_empty_r a : a ++ "" = a.
Proof.
  induction a as [|x a IH]; [reflexivity|].
  change (String x (a ++ "") = String x a). f_equal. exact IH.
Qed.

Lemma typed_plain key : forall c,
  string_forall is_plain key = true ->
  (String.length (text c) + String.length key <= maxLength c)%nat ->
  typed (key_names key) c = set_text (text c ++ toUpperCase key) c.
Proof.
  induction key as [|ch key IH]; intros c Hp Hlen; simpl.
  - unfold typed, set_text, toUpperCase. simpl. rewrite append_empty_r.
    destruct c; reflexivity.
  - simpl in Hp. apply andb_true_iff in Hp. destruct Hp as [Hc Hk]. simpl in Hlen.
    unfold typed. simpl. fold (typed (key_names key) (keyIn (String ch "") c)).
    rewrite keyIn_plain by (auto; lia).
    rewrite IH; [|exact Hk|simpl; rewrite ContinuousFacts.length_append; simpl; lia].
    simpl. unfold set_text. simpl. f_equal. rewrite app_assoc_string. reflexivity.
Qed.

(** X6.  Typing the characters of a key made of lower-case letters and
    digits, no longer than [maxLength], into a built input gives the
    upper-cased key as text, and submitting then returns the first specify
    entry on that key. *)
Theorem X6_typed_key_selects_entry :
  forall (keyList : option string) (ml : option nat) (specify : list SpecifyEntry)
         (key : string),
    string_forall is_plain key = true ->
    (String.length key <= default 10 ml)%nat ->
    let c := typed (key_names key) (build keyList ml specify) in
    text c = toUpperCase key /\
    optionSelected c =
    mkBehavior (JStr (toUpperCase key))
               (find (fun el => String.eqb (specify_key el) key) specify) None.
Proof.
  intros keyList ml sp key Hp Hlen c. subst c.
  rewrite typed_plain; [|exact Hp|simpl; lia].
  unfold optionSelected, set_text, build. cbn [text specify].
  change ("" ++ toUpperCase key) with (toUpperCase key).
  split; [reflexivity|]. rewrite (toLower_toUpper_plain key Hp). reflexivity.
Qed.

Lemma X6_typed_key_selects_entry_witness :
  text (typed (key_names "other") (build (Some "LETTERS") None why_which))
    = toUpperCase "other" /\
  optionSelected (typed (key_names "other") (build (Some "LETTERS") None why_which)) =
  mkBehavior (JStr (toUpperCase "other"))
    (find (fun el => String.eqb (specify_key el) "other") why_which) None.
Proof.
  apply (X6_typed_key_selects_entry (Some "LETTERS") None why_which "other").
  - reflexivity.
  - simpl. lia.
Defined.

End TextFacts.

(* ------------------------------------------------------------------ *)
(** ** Runs of the instructions *)

Module StepperFacts.
Import Instructions InstructionsSpec StepperNotions.

Lemma nth_resource_None l i :
  nth_resource l i = None <-> (i < 0 \/ Z.of_nat (length l) <= i)%Z.
Proof.
  unfold nth_resource. destruct (Z.ltb_spec i 0); [split; auto|].
  rewrite lookup_ge_None. lia.
Qed.

(** X7.  The begin of an instructions routine throws when the name is not
    in the cache, and otherwise exactly when the cached position is not an
    index of the slide list (an empty list, or the sentinel).  When it
    succeeds it makes the named instructions current, shows the slide at
    the position and leaves the cache as it was. *)
Theorem X7_Begin_shows_slide :
  forall (name : string) (st : State),
    match instructionsCache st !! name with
    | None => _InstructionsRoutineBegin name st = TypeError
    | Some c =>
        (_InstructionsRoutineBegin name st = TypeError <->
         (currentIndex c < 0 \/ Z.of_nat (length (resources c)) <= currentIndex c)%Z) /\
        forall st' ev, _InstructionsRoutineBegin name st = Ok (st', ev) ->
          ev = NEXT /\
          instructionsCache st' = instructionsCache st /\
          currInstr st' = Some name /\
          slideFinished st' = false /\ image_autoDraw st' = true /\
          exists r, resources c !! Z.to_nat (currentIndex c) = Some r /\
                    image st' = Some (Instructions.name r)
    end.
Proof.
  intros name st. unfold _InstructionsRoutineBegin, deref. simpl.
  destruct (instructionsCache st !! name) as [c|] eqn:E; [|reflexivity]. simpl.
  destruct (nth_resource (resources c) (currentIndex c)) as [r|] eqn:N.
  - split.
    + split; [discriminate|]. intros H. apply nth_resource_None in H. congruence.
    + intros st' ev [= <- <-]. simpl. repeat split.
      exists r. split; [|reflexivity]. unfold nth_resource in N.
      destruct (_ <? _)%Z; [discriminate|exact N].
  - split; [|discriminate]. split; [|reflexivity]. intros _. apply nth_resource_None, N.
Qed.

Lemma alter_back (m : gmap string Instr) n c i j :
  m !! n = Some c -> currentIndex c = j ->
  alter (fun c => mkInstr (resources c) j) n (alter (fun c => mkInstr (resources c) i) n m) = m.
Proof.
  intros H Hj. apply map_eq. intros k. destruct (decide (n = k)) as [<-|Hne].
  - rewrite !lookup_alter_eq, H. simpl. destruct c; simpl in *. subst. reflexivity.
  - rewrite !lookup_alter_ne by exact Hne. reflexivity.
Qed.

(** X8.  Before the last slide, a frame with next moves the position one
    slide forward, and a following frame with back returns to the position
    and to the cache before the two frames. *)
Theorem X8_next_then_back :
  forall (st : State) (c : Instr) (env1 env2 : Env) (ks1 ks2 : list string),
    deref st = Ok c ->
    (0 <= currentIndex c < Z.of_nat (length (resources c)) - 1)%Z ->
    getKeys ["b"; "n"; "f"] env1 = "n" :: ks1 ->
    getKeys ["b"; "n"; "f"] env2 = "b" :: ks2 ->
    exists st1 st2,
      _InstructionsRoutineEachFrame env1 st = Ok (st1, NEXT) /\
      position st1 = Some (currentIndex c + 1)%Z /\
      _InstructionsRoutineEachFrame env2 st1 = Ok (st2, NEXT) /\
      position st2 = Some (currentIndex c) /\
      instructionsCache st2 = instructionsCache st.
Proof.
  intros st c env1 env2 ks1 ks2 D Hi K1 K2.
  destruct (InstructionsFacts.deref_Ok _ _ D) as (n & Hn & Hc).
  unfold _InstructionsRoutineEachFrame. rewrite K1, D. simpl.
  assert (P1 : press "n" (Z.of_nat (length (resources c))) (currentIndex c)
               = Some (currentIndex c + 1)%Z).
  { unfold press. simpl. destruct (Z.ltb_spec (currentIndex c) (Z.of_nat (length (resources c)) - 1)); [reflexivity|lia]. }
  rewrite P1. simpl. rewrite InstructionsFacts.slideFinished_set_currentIndex. simpl.
  eexists _, _. split; [reflexivity|].
  pose proof (InstructionsFacts.deref_set_currentIndex st c (currentIndex c + 1) D) as D1.
  split; [unfold position; rewrite D1; reflexivity|].
  rewrite K2, D1. simpl.
  assert (P2 : press "b" (Z.of_nat (length (resources c))) (currentIndex c + 1)
               = Some (currentIndex c)).
  { unfold press. simpl. destruct (Z.gtb_spec (currentIndex c + 1) 0); [f_equal; lia|lia]. }
  rewrite P2. simpl. rewrite !InstructionsFacts.slideFinished_set_currentIndex. simpl.
  split; [reflexivity|]. split.
  - unfold position.
    rewrite (InstructionsFacts.deref_set_currentIndex _ _ (currentIndex c) D1).
    reflexivity.
  - unfold set_currentIndex, set_slideFinished. cbn [currInstr instructionsCache].
    rewrite Hn. cbn [currInstr instructionsCache].
    apply (alter_back _ _ c); auto.
Qed.

Lemma X8_next_then_back_witness :
  exists st1 st2,
    _InstructionsRoutineEachFrame (mkEnv 0 ["n"] false) three_slides = Ok (st1, NEXT) /\
    position st1 = Some 2%Z /\
    _InstructionsRoutineEachFrame (mkEnv 0 ["b"] false) st1 = Ok (st2, NEXT) /\
    position st2 = Some 1%Z /\
    instructionsCache st2 = instructionsCache three_slides.
Proof.
  apply (X8_next_then_back three_slides
           (mkInstr [mkResource "s1" "s1.png"; mkResource "s2" "s2.png";
                     mkResource "s3" "s3.png"] 1)
           (mkEnv 0 ["n"] false) (mkEnv 0 ["b"] false) [] []).
  - reflexivity.
  - simpl. lia.
  - reflexivity.
  - reflexivity.
Defined.


Lemma step_stop_sentinel t e st st' :
  step t e st = Ok (st', NEXT, true) -> position st' = Some sentinel.
Proof.
  destruct t; simpl.
  - destruct (_InstructionsRoutineBegin _ _) as [[? ?]|]; simpl; [|discriminate].
    intros [=].
  - destruct (_InstructionsRoutineEachFrame _ _) as [[? ?]|]; simpl; [|discriminate].
    intros [=].
  - intros [=].
  - unfold check, position. destruct (deref st) as [c|] eqn:D; simpl; [|discriminate].
    intros [= <- H]. rewrite D. apply bool_decide_eq_true in H. rewrite H. reflexivity.
Qed.

(** X9.  How a run of the instructions ends.  The scheduler is stopped only
    at the sentinel position; the schedule is exhausted only after 200
    navigation steps; a waiting run has tasks left. *)
Theorem X9_run_ends :
  forall (res : list Resource) (name : string) (envs : list Env) (st : State),
    match outcome (addInstructions res name envs st) with
    | Stopped st' => position st' = Some sentinel
    | Finished st' =>
        navigations (addInstructions res name envs st) = MAX_INSTRUCTIONS
    | Waiting _ rest => rest <> []
    | Threw _ => True
    end.
Proof.
  intros res name envs st. unfold addInstructions, navigations.
  destruct (_generateInstructionsLoop res name st) as [st0 tasks] eqn:G.
  assert (Ht : tasks = concat (replicate MAX_INSTRUCTIONS (iteration name))).
  { unfold _generateInstructionsLoop in G. injection G as _ <-. reflexivity. }
  destruct (run_completed_prefix step envs tasks st0) as [rest [Hpre Hout]].
  destruct (outcome (run step tasks envs st0)) as [s|s|s w|m] eqn:O; auto.
  - subst rest. rewrite app_nil_r in Hpre.
    rewrite <- InstructionsFacts.frame_tasks_completed, <- Hpre, Ht.
    apply InstructionsFacts.frame_tasks_iterations.
  - eapply (run_stopped_inv step (fun s => position s = Some sentinel)); [|exact O].
    intros. eapply step_stop_sentinel; eauto.
  - destruct Hout as [-> H]. exact H.
Qed.

Lemma step_other_entry other t e st st' ev b :
  currInstr st <> Some other ->
  step t e st = Ok (st', ev, b) ->
  instructionsCache st' !! other = instructionsCache st !! other /\
  (currInstr st' = currInstr st \/ exists n, t = TBegin n /\ currInstr st' = Some n).
Proof.
  intros Hne. destruct t; simpl.
  - unfold _InstructionsRoutineBegin. simpl.
    destruct (deref _) as [c|]; simpl; [|discriminate].
    destruct (nth_resource _ _); simpl; [|discriminate].
    intros [= <- _ _]. simpl. eauto.
  - unfold _InstructionsRoutineEachFrame.
    destruct (getKeys _ e) as [|k ks]; simpl; [intros [= <- _ _]; auto|].
    destruct (deref st) as [c|] eqn:D; simpl; [|discriminate].
    destruct (press _ _ _); simpl; intros [= <- _ _]; auto.
    destruct (InstructionsFacts.deref_Ok _ _ D) as (n & Hn & _).
    unfold set_currentIndex, set_slideFinished. simpl. rewrite Hn. simpl.
    split; [|auto]. apply lookup_alter_ne. congruence.
  - intros [= <- _ _]. auto.
  - unfold check. destruct (deref st); simpl; [|discriminate]. intros [= <- _ _]. auto.
Qed.

(** X10.  A run of the instructions [name] never changes the cache entry
    of other instructions: generating the loop, and every completed task,
    leave it as it was. *)
Theorem X10_other_instructions_untouched :
  forall (res : list Resource) (name other : string) (envs : list Env) (st : State),
    other <> name ->
    Forall (fun c => instructionsCache c.2 !! other = instructionsCache st !! other)
           (completed (addInstructions res name envs st)).
Proof.
  intros res name other envs st Hne.
  set (I := fun s : State =>
              instructionsCache s !! other = instructionsCache st !! other
              /\ currInstr s = Some name).
  assert (Hstep : forall t, t ∈ iteration name ->
            forall e s s' ev b, I s -> step t e s = Ok (s', ev, b) -> I s').
  { intros t Ht e s s' ev b [Hc Hn] Hs.
    assert (Hcur : currInstr s <> Some other) by congruence.
    destruct (step_other_entry other t e s s' ev b Hcur Hs) as [H1 H2].
    split; [congruence|]. destruct H2 as [H2|(n & -> & H2)]; [congruence|].
    apply list_elem_of_In in Ht. simpl in Ht.
    destruct Ht as [Ht|[Ht|[Ht|[Ht|[]]]]]; congruence. }
  assert (Hall : forall k, Forall (fun t => forall e s s' ev b,
                     I s -> step t e s = Ok (s', ev, b) -> I s')
                   (concat (replicate k (iteration name)))).
  { intros k. apply Forall_concat, Forall_replicate, Forall_forall. exact Hstep. }
  unfold addInstructions, _generateInstructionsLoop.
  change (concat (replicate (TrialHandler_nTotal MAX_INSTRUCTIONS None) (iteration name)))
    with (TBegin name :: ([TEachFrame; TEnd; TCheck]
                          ++ concat (replicate 199 (iteration name))))%list.
  destruct envs as [|e es]; [constructor|]. cbn [run].
  destruct (step (TBegin name) e _) as [[[st1 ev] b]|m] eqn:E; [|constructor].
  assert (H1 : I st1 /\ ev = NEXT /\ b = false).
  { simpl in E. unfold _InstructionsRoutineBegin in E. simpl in E.
    destruct (deref _) as [c|]; simpl in E; [|discriminate].
    destruct (nth_resource _ _); simpl in E; [|discriminate].
    injection E as <- <- <-. repeat split. simpl. apply lookup_insert_ne. congruence. }
  destruct H1 as (H1 & -> & ->). unfold logged. cbn [completed].
  constructor; [apply H1|].
  match goal with
  | |- Forall _ (completed (run step ?ts es st1)) =>
      assert (HF : Forall (fun c => I c.2) (completed (run step ts es st1)))
  end.
  2:{ eapply Forall_impl; [exact HF|]. intros c Hc. apply Hc. }
  apply (run_completed_inv_tasks step I); [|exact H1].
  apply Forall_app. split; [|apply Hall].
  repeat (apply List.Forall_cons; [apply Hstep; apply list_elem_of_In; simpl; tauto|]).
  apply List.Forall_nil.
Qed.

Lemma X10_other_instructions_untouched_witness :
  Forall (fun c => instructionsCache c.2 !! "consent" =
                   instructionsCache with_consent !! "consent")
         (completed (addInstructions intro_slides "intro" intro_polls with_consent)).
Proof.
  apply (X10_other_instructions_untouched intro_slides "intro" "consent"
           intro_polls with_consent).
  discriminate.
Defined.

End StepperFacts.

(* ------------------------------------------------------------------ *)
(** ** The survey sequencer *)

Module SequencerFacts.
Import SurveyQuestions SurveySpec ContinuousSpec InputNotions SequencerNotions.

(** X11.  The first task of a survey sets the survey set and the status
    Continuing and touches neither the sink nor the current record.  It
    advances exactly when the survey has no instructions text, or enter or
    return is pending; on advancing the question text is empty, and while
    it repeats the text is the instructions, drawn if the stimulus was not
    started. *)
Theorem X11_instructions_until_enter :
  forall (sv : Survey) (env : Env) (s : State),
    let r := instructions_task sv env s in
    survey_set r.1 = JStr (set sv) /\
    survey_run_status r.1 = SURVEY_CONTINUING /\
    sink r.1 = sink s /\ currentData r.1 = currentData s /\
    (r.2 = NEXT <->
     default "" (instructions sv) = "" \/ getKeys ["enter"; "return"] env <> []) /\
    (r.2 = NEXT -> text (question_stim r.1) = "") /\
    (r.2 = FLIP_REPEAT ->
     text (question_stim r.1) = default "" (instructions sv) /\
     (status (question_stim s) = NOT_STARTED -> autoDraw (question_stim r.1) = true)).
Proof.
  intros sv env s r. subst r. unfold instructions_task, _SurveyDisplayInstructions.
  cbn [question_stim set_question_text set_question_stim text].
  destruct (String.eqb_spec (default "" (instructions sv)) "") as [He|He].
  - simpl. repeat split; auto; try discriminate.
  - destruct (getKeys ["enter"; "return"] env) as [|k ks] eqn:K;
      destruct (status (question_stim s)) eqn:St; simpl; rewrite ?St; simpl;
      repeat split; auto; try discriminate; try tauto;
      try (intros [?|?]; congruence).
Qed.

(** X12.  [beginSurveySection] never touches the sink.  On a stimulus not
    yet started it draws it and repeats, whatever keys are pending; on a
    started stimulus it advances exactly when enter or return is pending
    and otherwise changes nothing; and on advancing it has set the status
    Continuing, emptied and hidden the text and marked the stimulus not
    started. *)
Theorem X12_beginSurveySection_until_enter :
  forall (env : Env) (s : State),
    let r := beginSurveySection env s in
    sink r.1 = sink s /\
    (status (question_stim s) = NOT_STARTED ->
     r.2 = FLIP_REPEAT /\ autoDraw (question_stim r.1) = true /\
     status (question_stim r.1) = STARTED /\ text (question_stim r.1) = text (question_stim s)) /\
    (status (question_stim s) <> NOT_STARTED ->
     (r.2 = NEXT <-> getKeys ["enter"; "return"] env <> []) /\
     (r.2 = FLIP_REPEAT -> r.1 = s)) /\
    (r.2 = NEXT ->
     survey_run_status r.1 = SURVEY_CONTINUING /\
     text (question_stim r.1) = "" /\ autoDraw (question_stim r.1) = false /\
     status (question_stim r.1) = NOT_STARTED).
Proof.
  intros env s r. subst r. unfold beginSurveySection.
  destruct (status (question_stim s)) eqn:St;
    destruct (getKeys ["enter"; "return"] env) as [|k ks] eqn:K; simpl;
    repeat split; auto; try discriminate; try congruence.
Qed.


Lemma getKeys_none keyList env :
  (forall k, k ∈ pending env -> k ∉ keyList) -> getKeys keyList env = [].
Proof.
  unfold getKeys. induction (pending env) as [|x l IH]; intros H; [reflexivity|].
  rewrite filter_cons. destruct (decide (x ∈ keyList)) as [Hx|Hx].
  - exfalso. apply (H x); [left|exact Hx].
  - apply IH. intros k Hk. apply H. right. exact Hk.
Qed.

Lemma getKeys_head keyList env k ks :
  getKeys keyList env = k :: ks -> k ∈ keyList /\ k ∈ pending env.
Proof.
  intros H. assert (Hk : k ∈ getKeys keyList env) by (rewrite H; left).
  unfold getKeys in Hk. apply list_elem_of_filter in Hk. exact Hk.
Qed.

(** The key filter depends on the members of the key list only. *)
Lemma getKeys_ext a b env :
  (forall k, k ∈ a <-> k ∈ b) -> getKeys a env = getKeys b env.
Proof.
  intros H. unfold getKeys. induction (pending env) as [|x l IH]; [reflexivity|].
  rewrite !filter_cons, IH.
  destruct (decide (x ∈ a)) as [Ha|Ha]; destruct (decide (x ∈ b)) as [Hb|Hb];
    try reflexivity; exfalso; [apply Hb, H, Ha|apply Ha, H, Hb].
Qed.

Lemma record_answer_total c b env s l :
  specify (currentData s) = Some l -> exists s', record_answer c b env s = Ok s'.
Proof.
  intros H. unfold record_answer. destruct (loose_eq _ _); [eauto|]. rewrite H. eauto.
Qed.

(** X13.  A poll of the discrete stage, with a built discrete input and a
    record that has its specify list, never throws and never writes to the
    sink.  When no pending key is a key of the input the state is
    unchanged; when one is, the first such key is taken: the stage becomes
    the display stage, the clock is reset, and a record without primary
    choice gets that key as choice. *)
Theorem X13_discrete_stage_safe :
  forall (s : State) (d : DiscreteInput.t) (env : Env) (l : list SpecifyAnswer),
    currentInput s = Some (Discrete d) ->
    trialStage s = TAKING_DISCRETE ->
    survey_run_status s <> SURVEY_SKIPPING ->
    specify (currentData s) = Some l ->
    exists s',
      _SurveyQuestionLoop env s = Ok (s', FLIP_REPEAT) /\
      sink s' = sink s /\
      ((forall k, k ∈ pending env -> k ∉ DiscreteInput.getKeys d) -> s' = s) /\
      (forall k ks, getKeys (DiscreteInput.getKeys d) env = k :: ks ->
         trialStage s' = DISPLAY_RESPONSE /\ clock s' = now env /\
         (choice (currentData s) = JNull -> choice (currentData s') = JStr k)).
Proof.
  intros s d env l Hc Hst Hns Hsp.
  rewrite (SurveyFacts.Loop_unfold env s Hns), Hst, Hc. simpl.
  destruct (getKeys (DiscreteInput.getKeys d) env) as [|k ks] eqn:K.
  - exists s. repeat split; auto; discriminate.
  - destruct (getKeys_head _ _ _ _ K) as [Hk Hp].
    apply DiscreteFacts.getKeys_lookup in Hk. destruct Hk as [st Hk].
    destruct (DiscreteFacts.optionSelected_Ok d k st Hk) as (d' & Hsel).
    unfold take_discrete. rewrite Hc. simpl. rewrite Hsel. simpl.
    match goal with
    | |- context [record_answer ?c ?b env ?x] =>
        destruct (record_answer_total c b env x l Hsp) as [s1 Hr];
        pose proof Hr as Hr2; apply SurveyFacts.record_answer_Ok in Hr2;
        destruct Hr2 as (dd & Hs1 & _); rewrite Hr
    end.
    simpl. eexists. split; [reflexivity|]. subst s1.
    split; [destruct (find _ (DiscreteInput.skips d)); reflexivity|].
    split.
    + intros H. exfalso. apply (H k Hp).
      apply DiscreteFacts.getKeys_lookup. eauto.
    + intros k0 ks0 [= <- <-].
      split; [destruct (find _ (DiscreteInput.skips d)); reflexivity|].
      split; [destruct (find _ (DiscreteInput.skips d)); reflexivity|].
      intros Hnull. unfold record_answer in Hr. simpl in Hr. rewrite Hnull in Hr.
      simpl in Hr. injection Hr as <-.
      destruct (find _ (DiscreteInput.skips d)); reflexivity.
Qed.

Lemma X13_discrete_stage_safe_witness :
  exists s',
    _SurveyQuestionLoop (poll 1 ["x"; "n"]) asking_state = Ok (s', FLIP_REPEAT) /\
    sink s' = sink asking_state /\
    ((forall k, k ∈ pending (poll 1 ["x"; "n"]) -> k ∉ DiscreteInput.getKeys asking_input) ->
     s' = asking_state) /\
    (forall k ks,
       getKeys (DiscreteInput.getKeys asking_input) (poll 1 ["x"; "n"]) = k :: ks ->
       trialStage s' = DISPLAY_RESPONSE /\ clock s' = now (poll 1 ["x"; "n"]) /\
       (choice (currentData asking_state) = JNull -> choice (currentData s') = JStr k)).
Proof.
  apply (X13_discrete_stage_safe asking_state asking_input (poll 1 ["x"; "n"]) []).
  - vm_compute. reflexivity.
  - reflexivity.
  - vm_compute. discriminate.
  - vm_compute. reflexivity.
Defined.


Lemma record_answer_append c b env s k0 l :
  choice (currentData s) = JStr k0 ->
  specify (currentData s) = Some l ->
  record_answer c b env s =
  Ok (set_currentData
        (with_specify (currentData s)
           (l ++ [mkSpecifyAnswer (text (question_stim s)) c
                    (clock_getTime env s) (b_value b)])) s).
Proof.
  intros Hc Hs. unfold record_answer, with_specify.
  replace (loose_eq (choice (currentData s)) JNull) with false by (rewrite Hc; reflexivity).
  rewrite Hs. reflexivity.
Qed.

(** The loop over the pending keys either leaves the stage as it is, or
    submits from the state reached by typing. *)
Lemma for_key_of_submit input env keys : forall s s',
  for_key_of input keys env s = Ok s' ->
  trialStage s' = trialStage s \/
  exists ci, take_continuous env (set_currentInput ci s) = Ok s'.
Proof.
  induction keys as [|k keys IH]; intros s s'; simpl.
  - intros [= <-]. auto.
  - destruct (head input) as [keyName|]; [|discriminate].
    destruct (_ || _).
    + intros H. right. exists (currentInput s).
      replace (set_currentInput (currentInput s) s) with s by (destruct s; reflexivity).
      exact H.
    + destruct (currentInput s) as [ci|]; [|discriminate].
      destruct (Input_keyIn keyName ci) as [ci'|]; simpl; [|discriminate].
      intros H. apply IH in H. destruct H as [H|[ci2 H]]; [left; exact H|].
      right. exists ci2. exact H.
Qed.

(** X14.  Once the record has a key as primary choice, an answer captured
    by a poll of an input stage is appended to the specify list, with the
    question text shown and the time since the last reset of the clock, and
    every other field of the record stays as it was. *)
Theorem X14_follow_up_appended :
  forall (s s' : State) (env : Env) (ev : Event) (k0 : string) (l : list SpecifyAnswer),
    choice (currentData s) = JStr k0 ->
    specify (currentData s) = Some l ->
    (trialStage s = TAKING_DISCRETE \/ trialStage s = TAKING_CONTINUOUS) ->
    _SurveyQuestionLoop env s = Ok (s', ev) ->
    trialStage s' = DISPLAY_RESPONSE ->
    exists a,
      currentData s' = with_specify (currentData s) (l ++ [a]) /\
      sa_question a = text (question_stim s) /\
      sa_RT a = (now env - clock s)%Q.
Proof.
  intros s s' env ev k0 l Hc Hs Hst HL H3.
  destruct (SurveyFacts.Loop_captured _ _ _ _ Hst HL H3) as [_ Hns].
  rewrite (SurveyFacts.Loop_unfold env s Hns) in HL.
  destruct (currentInput s) as [ci|] eqn:Hci.
  2:{ destruct Hst as [E|E]; rewrite E in HL; simpl in HL; discriminate. }
  destruct Hst as [E|E]; rewrite E in HL; simpl in HL.
  - destruct (getKeys _ env) as [|k ks].
    { injection HL as <- _. rewrite H3 in E. discriminate. }
    unfold take_discrete in HL. rewrite Hci in HL. simpl in HL.
    destruct (Input_optionSelected (Some k) ci) as [[ci' b]|]; simpl in HL; [|discriminate].
    rewrite (record_answer_append _ _ _ _ k0 l) in HL by assumption.
    simpl in HL. injection HL as <- _.
    eexists. split; [destruct (b_skip b); reflexivity|]. split; reflexivity.
  - destruct (for_key_of _ _ env s) as [s1|] eqn:F; simpl in HL; [|discriminate].
    injection HL as <- _. apply for_key_of_submit in F.
    destruct F as [F|[ci2 F]]; [rewrite F, E in H3; discriminate|].
    unfold take_continuous in F. simpl in F.
    destruct ci2 as [ci2|]; [|discriminate].
    destruct (Input_optionSelected None ci2) as [[ci' b]|]; simpl in F; [|discriminate].
    rewrite (record_answer_append _ _ _ _ k0 l) in F by assumption.
    simpl in F. injection F as <-.
    eexists. split; [reflexivity|]. split; reflexivity.
Qed.

Lemma X14_follow_up_appended_witness :
  exists a,
    currentData elaborated_state = with_specify (currentData elaborating_state) ([] ++ [a]) /\
    sa_question a = text (question_stim elaborating_state) /\
    sa_RT a = (now (poll 4 ["enter"]) - clock elaborating_state)%Q.
Proof.
  apply (X14_follow_up_appended elaborating_state elaborated_state (poll 4 ["enter"])
           FLIP_REPEAT "y" []).
  - vm_compute. reflexivity.
  - vm_compute. reflexivity.
  - right. vm_compute. reflexivity.
  - vm_compute. reflexivity.
  - vm_compute. reflexivity.
Defined.


Lemma Begin_discrete q l sp sk eb s :
  q_input q = DISCRETE (Some l) sp sk ->
  entirely_skipped s = false ->
  exists s1 d,
    _SurveyQuestionBegin q eb s = Ok (s1, NEXT) /\
    DiscreteInput.build BuiltDiscreteInput_options (Some l) (default [] sp) (default [] sk) = Ok d /\
    currentInput s1 = Some (Discrete d) /\
    trialStage s1 = 0%Z /\ clock s1 = now eb /\
    survey_run_status s1 <> SURVEY_SKIPPING /\
    sink s1 = sink s /\
    text (question_stim s1) = q_question q /\
    currentData s1 =
      mkAnswer (survey_set s) (q_index q) (JStr (q_question q)) (JStr "DISCRETE")
               JNull RTNull JNull (Some []).
Proof.
  intros Hq Hs. unfold _SurveyQuestionBegin, entirely_skipped in *.
  unfold _buildLoopStimuli, new_currentData. rewrite Hq. simpl.
  destruct (survey_run_status s) eqn:St.
  2: destruct (loose_eq _ _); [|discriminate].
  all: simpl; eexists _, _; split; [reflexivity|]; simpl; rewrite ?St;
    repeat split; auto; discriminate.
Qed.

Lemma setAutoDraw_lookup b d k :
  DiscreteInput.stimuli (DiscreteInput.setAutoDraw b d) !! k =
  DiscreteInput.set_stim
    (fun s => DiscreteInput.mkStim (DiscreteInput.text s) b (DiscreteInput.activated s))
    <$> DiscreteInput.stimuli d !! k.
Proof. unfold DiscreteInput.setAutoDraw. simpl. apply lookup_fmap. Qed.

(** X15.  A discrete question that is not passed over, from its begin to
    its answer: the begin succeeds, the first poll draws the question, and
    a poll whose first pending option key is [k] records the choice [k],
    the value of the last option on [k] and as RT the clock reading of that
    poll less the one of the begin, with an empty specify list; the stage
    becomes the display stage and nothing has reached the sink. *)
Theorem X15_discrete_question_answered :
  forall (q : QuestionSpec) (l : list OptionSpec) (sp : option (list SpecifyEntry))
         (sk : option (list SkipEntry)) (s : State) (eb e0 ec : Env)
         (k : string) (ks : list string),
    q_input q = DISCRETE (Some l) sp sk ->
    entirely_skipped s = false ->
    getKeys (opt_key <$> l) ec = k :: ks ->
    exists s1 s2 s3 o,
      _SurveyQuestionBegin q eb s = Ok (s1, NEXT) /\
      _SurveyQuestionLoop e0 s1 = Ok (s2, FLIP_REPEAT) /\
      _SurveyQuestionLoop ec s2 = Ok (s3, FLIP_REPEAT) /\
      find (fun el => String.eqb (opt_key el) k) (rev l) = Some o /\
      currentData s3 =
        mkAnswer (survey_set s) (q_index q) (JStr (q_question q)) (JStr "DISCRETE")
                 (JStr k) (RTSeconds (now ec - now eb)) (JStr (opt_value o)) (Some []) /\
      trialStage s3 = DISPLAY_RESPONSE /\
      sink s3 = sink s.
Proof.
  intros q l sp sk s eb e0 ec k ks Hq Hskip Hk.
  destruct (Begin_discrete q l sp sk eb s Hq Hskip)
    as (s1 & d & HB & Hd & Hci & Hst & Hclk & Hns & Hsink & Htext & Hdata).
  assert (Hkeys : forall x, x ∈ DiscreteInput.getKeys d <-> x ∈ opt_key <$> l).
  { intros x. unfold DiscreteInput.build in Hd. injection Hd as <-.
    apply DiscreteFacts.build_keys. }
  exists s1.
  (* the first poll draws the question and its options *)
  set (d1 := DiscreteInput.setAutoDraw true d).
  set (s2 := set_trialStage TAKING_DISCRETE
               (set_currentInput (Some (Discrete d1)) (question_setAutoDraw true s1))).
  exists s2.
  assert (HL1 : _SurveyQuestionLoop e0 s1 = Ok (s2, FLIP_REPEAT)).
  { rewrite (SurveyFacts.Loop_unfold e0 s1 Hns), Hst. simpl. rewrite Hci. reflexivity. }
  (* the keys of the drawn input are the option keys *)
  assert (Hkeys1 : forall x, x ∈ DiscreteInput.getKeys d1 <-> x ∈ opt_key <$> l).
  { intros x. rewrite <- Hkeys, !DiscreteFacts.getKeys_lookup. subst d1.
    rewrite setAutoDraw_lookup, fmap_is_Some. reflexivity. }
  assert (Hk1 : getKeys (DiscreteInput.getKeys d1) ec = k :: ks).
  { rewrite (getKeys_ext _ (opt_key <$> l)); [exact Hk|exact Hkeys1]. }
  (* the stimulus of the pressed key *)
  assert (Ho : exists o, find (fun el => String.eqb (opt_key el) k) (rev l) = Some o /\
             DiscreteInput.stimuli d !! k =
             Some (DiscreteInput.new_stimulus BuiltDiscreteInput_options o)).
  { unfold DiscreteInput.build in Hd. injection Hd as <-. simpl.
    rewrite SurveyFacts.build_lookup.
    destruct (getKeys_head _ _ _ _ Hk) as [Hin _].
    assert (Hs : is_Some (find (fun el => String.eqb (opt_key el) k) (rev l))).
    { apply DiscreteFacts.find_rev_Some. apply list_elem_of_fmap in Hin.
      destruct Hin as (x & -> & Hx). exists x. split; [exact Hx|apply String.eqb_refl]. }
    destruct Hs as [o Ho]. exists o. rewrite Ho. auto. }
  destruct Ho as (o & Ho & Hlook).
  assert (Hlook1 : DiscreteInput.stimuli d1 !! k =
            Some (DiscreteInput.set_stim
                    (fun s => DiscreteInput.mkStim (DiscreteInput.text s) true
                                (DiscreteInput.activated s))
                    (DiscreteInput.new_stimulus BuiltDiscreteInput_options o))).
  { subst d1. rewrite setAutoDraw_lookup, Hlook. reflexivity. }
  destruct (DiscreteFacts.optionSelected_Ok d1 k _ Hlook1) as (d2 & Hsel).
  assert (Hns2 : survey_run_status s2 <> SURVEY_SKIPPING) by exact Hns.
  eexists _, o. split; [exact HB|]. split; [exact HL1|].
  rewrite (SurveyFacts.Loop_unfold ec s2 Hns2).
  change (trialStage s2) with TAKING_DISCRETE.
  change (currentInput s2) with (Some (Discrete d1)).
  cbn [Z.eqb TAKING_DISCRETE Pos.eqb]. simpl Input_getKeys. rewrite Hk1.
  unfold take_discrete.
  change (currentInput s2) with (Some (Discrete d1)).
  cbn [Input_optionSelected mbind Exc_bind]. rewrite Hsel.
  cbn [mbind Exc_bind fst snd]. unfold record_answer.
  cbn [currentData set_currentInput].
  change (currentData s2) with (currentData s1). rewrite Hdata.
  cbn [choice loose_eq mbind Exc_bind].
  split; [reflexivity|]. split; [exact Ho|].
  split; [|split].
  - destruct (find _ (DiscreteInput.skips d1)); cbn; unfold clock_getTime; cbn;
      change (clock s1) with (clock s1); rewrite Hclk; reflexivity.
  - destruct (find _ (DiscreteInput.skips d1)); reflexivity.
  - destruct (find _ (DiscreteInput.skips d1)); cbn; exact Hsink.
Qed.

Lemma X15_discrete_question_answered_witness :
  let q := mkQuestion (JNum 1) "Q1?" (DISCRETE yes_no None (Some [mkSkip "n" (JNum 3)])) in
  let l := [mkOption "y" "Yes"; mkOption "n" "No"] in
  exists s1 s2 s3 o,
    _SurveyQuestionBegin q (poll 0 []) (initStimuli false) = Ok (s1, NEXT) /\
    _SurveyQuestionLoop (poll 0 []) s1 = Ok (s2, FLIP_REPEAT) /\
    _SurveyQuestionLoop (poll 1 ["n"]) s2 = Ok (s3, FLIP_REPEAT) /\
    find (fun el => String.eqb (opt_key el) "n") (rev l) = Some o /\
    currentData s3 =
      mkAnswer (survey_set (initStimuli false)) (q_index q) (JStr (q_question q))
               (JStr "DISCRETE") (JStr "n")
               (RTSeconds (now (poll 1 ["n"]) - now (poll 0 []))) (JStr (opt_value o))
               (Some []) /\
    trialStage s3 = DISPLAY_RESPONSE /\
    sink s3 = sink (initStimuli false).
Proof.
  apply (X15_discrete_question_answered
           (mkQuestion (JNum 1) "Q1?" (DISCRETE yes_no None (Some [mkSkip "n" (JNum 3)])))
           [mkOption "y" "Yes"; mkOption "n" "No"] None (Some [mkSkip "n" (JNum 3)])
           (initStimuli false) (poll 0 []) (poll 0 []) (poll 1 ["n"]) "n" []).
  - reflexivity.
  - reflexivity.
  - reflexivity.
Defined.


Lemma string_forall_app p a b :
  string_forall p (a ++ b) = string_forall p a && string_forall p b.
Proof.
  induction a as [|x a IH]; [reflexivity|].
  change (string_forall p (String x (a ++ b)) = (p x && string_forall p a) && string_forall p b).
  simpl. rewrite IH. apply andb_assoc.
Qed.

Lemma string_forall_slice p a :
  string_forall p a = true -> string_forall p (slice_0_m1 a) = true.
Proof.
  induction a as [|x a IH]; [reflexivity|]. destruct a as [|y a]; [reflexivity|].
  change (slice_0_m1 (String x (String y a))) with (String x (slice_0_m1 (String y a))).
  cbn [string_forall] in *. intros H. apply andb_true_iff in H. destruct H as [Hx H].
  rewrite Hx. simpl. apply IH. exact H.
Qed.

Lemma keyIn_digits k c :
  k ∈ ContinuousInput.NUMBERS \/ k = "backspace" ->
  string_forall is_digit (ContinuousInput.text c) = true ->
  string_forall is_digit (ContinuousInput.text (ContinuousInput.keyIn k c)) = true /\
  ContinuousInput.keyList (ContinuousInput.keyIn k c) = ContinuousInput.keyList c.
Proof.
  intros Hk Hc. destruct Hk as [Hk| ->].
  - apply list_elem_of_In in Hk. unfold ContinuousInput.NUMBERS in Hk. simpl in Hk.
    unfold ContinuousInput.keyIn.
    repeat (destruct Hk as [<-|Hk];
            [cbn [String.eqb Ascii.eqb Bool.eqb andb];
             destruct (_ <? _)%nat; cbn; [rewrite string_forall_app, Hc|]; auto|]).
    destruct Hk.
  - unfold ContinuousInput.keyIn. simpl. split; [|reflexivity].
    apply string_forall_slice, Hc.
Qed.

Lemma typed_digits k n : forall c,
  k ∈ ContinuousInput.NUMBERS \/ k = "backspace" ->
  string_forall is_digit (ContinuousInput.text c) = true ->
  string_forall is_digit (ContinuousInput.text (typed (replicate n k) c)) = true /\
  ContinuousInput.keyList (typed (replicate n k) c) = ContinuousInput.keyList c.
Proof.
  induction n as [|n IH]; intros c Hk Hc; [auto|].
  simpl replicate. unfold typed. simpl foldl. fold (typed (replicate n k) (ContinuousInput.keyIn k c)).
  destruct (keyIn_digits k c Hk Hc) as [H1 H2].
  destruct (IH _ Hk H1) as [H3 H4]. split; [exact H3|congruence].
Qed.

(** X16.  A digits-only input holds digits only: a poll of the continuous
    stage on an input of key list NUMBERS whose text is made of digits
    leaves a text made of digits, whatever keys are pending. *)
Theorem X16_digits_only_text :
  forall (s s' : State) (env : Env) (ev : Event) (c : ContinuousInput.t),
    currentInput s = Some (Continuous c) ->
    ContinuousInput.keyList c = Some "NUMBERS" ->
    string_forall is_digit (ContinuousInput.text c) = true ->
    trialStage s = TAKING_CONTINUOUS ->
    _SurveyQuestionLoop env s = Ok (s', ev) ->
    exists c', currentInput s' = Some (Continuous c') /\
      ContinuousInput.keyList c' = Some "NUMBERS" /\
      string_forall is_digit (ContinuousInput.text c') = true.
Proof.
  intros s s' env ev c Hc Hkl Hd Hst HL.
  destruct (decide (survey_run_status s = SURVEY_SKIPPING)) as [St|St].
  { unfold _SurveyQuestionLoop in HL. rewrite St in HL. injection HL as <- _. eauto. }
  rewrite (SurveyFacts.Loop_unfold env s St), Hst, Hc in HL. simpl in HL.
  destruct (getKeys (ContinuousInput.getKeys c) env) as [|k ks] eqn:Hk.
  { simpl in HL. injection HL as <- _. eauto. }
  destruct (getKeys_head _ _ _ _ Hk) as [Hin _].
  destruct (for_key_of _ _ env s) as [s1|] eqn:F; simpl in HL; [|discriminate].
  injection HL as <- _.
  destruct (String.eqb_spec k "return") as [Hr|Hr];
    [|destruct (String.eqb_spec k "enter") as [He|He]].
  - simpl in F. rewrite (proj2 (String.eqb_eq _ _) Hr) in F. simpl in F.
    rewrite (SurveyFacts.take_continuous_input _ _ _ F c Hc). eauto.
  - simpl in F. rewrite (proj2 (String.eqb_eq _ _) He), orb_true_r in F.
    rewrite (SurveyFacts.take_continuous_input _ _ _ F c Hc). eauto.
  - rewrite (SurveyFacts.for_key_of_first_key k (k :: ks) env (k :: ks) c s eq_refl Hr He Hc) in F.
    injection F as <-. exists (typed (replicate (length (k :: ks)) k) c).
    split; [reflexivity|].
    assert (Hnum : k ∈ ContinuousInput.NUMBERS \/ k = "backspace").
    { unfold ContinuousInput.getKeys in Hin. rewrite Hkl in Hin.
      change (k ∈ (ContinuousInput.NUMBERS ++ ContinuousInput.FUNCTIONALITY)%list) in Hin.
      apply elem_of_app in Hin. destruct Hin as [Hin|Hin]; [auto|].
      apply list_elem_of_In in Hin. simpl in Hin.
      destruct Hin as [<-|[<-|[<-|[]]]]; auto; contradiction. }
    destruct (typed_digits k (length (k :: ks)) c Hnum Hd) as [H1 H2].
    split; [congruence|exact H1].
Qed.

Lemma X16_digits_only_text_witness :
  exists c', currentInput age_state_4 = Some (Continuous c') /\
    ContinuousInput.keyList c' = Some "NUMBERS" /\
    string_forall is_digit (ContinuousInput.text c') = true.
Proof.
  apply (X16_digits_only_text age_state age_state_4 (poll 1 ["4"; "q"]) FLIP_REPEAT
           (match currentInput age_state with
            | Some (Continuous c) => c
            | _ => ContinuousInput.build None None []
            end)).
  - vm_compute. reflexivity.
  - vm_compute. reflexivity.
  - vm_compute. reflexivity.
  - vm_compute. reflexivity.
  - vm_compute. reflexivity.
Defined.


Lemma question_sink q envs s :
  match outcome (run step (question_tasks q) envs s) with
  | Finished s' | Waiting s' _ => one_record_more q s s'
  | Stopped _ => False
  | Threw _ => True
  end.
Proof.
  unfold question_tasks, one_record_more.
  destruct envs as [|e es]; [left; reflexivity|]. simpl.
  destruct (_SurveyQuestionBegin q e s) as [[s1 ev]|] eqn:B; simpl; [|exact I].
  apply SurveyFacts.Begin_Ok in B. destruct B as [-> B]. simpl.
  destruct (entirely_skipped s) eqn:Sk.
  - subst s1. assert (St : survey_run_status s = SURVEY_SKIPPING).
    { unfold entirely_skipped in Sk. destruct (survey_run_status s); congruence. }
    destruct es as [|e2 es]; [left; reflexivity|]. simpl.
    unfold _SurveyQuestionLoop. rewrite St. simpl.
    destruct es as [|e3 es]; [left; reflexivity|]. simpl.
    rewrite (SurveyFacts.End_skipping s St). simpl. rewrite run_nil. left. reflexivity.
  - destruct B as (Hsink & Hpsi & Hset & Hidx & Hns).
    pose proof (SurveyFacts.loop_phase es s1 Hns) as HL.
    destruct (outcome (run step [TLoop; TEnd] es s1)) as [s'|s'|s' w|m]; auto.
    + destruct HL as (s2 & Hfr & ->).
      destruct (SurveyFacts.End_records s2 (fr_status _ _ Hfr Hns)) as (s3 & E & Hs3 & _).
      rewrite E. simpl. right. exists (sink_call s2). destruct Hfr.
      split; [congruence|]. unfold sink_call. destruct (psiTurk s2); simpl; congruence.
    + left. destruct HL. congruence.
Qed.

Lemma iteration_sink q envs s s' :
  state_of (outcome (run step (iteration q) envs s)) = Some s' -> one_record_more q s s'.
Proof.
  change (iteration q) with (question_tasks q ++ [TFinish])%list.
  pose proof (run_seq step [TFinish] envs (question_tasks q) s) as H.
  pose proof (question_sink q envs s) as HQ.
  destruct (outcome (run step (question_tasks q) envs s)) as [s1|s1|s1 w|m].
  - destruct H as [es2 ->]. destruct es2 as [|e es2]; simpl.
    + intros [= <-]. exact HQ.
    + destruct (trials_finished e); simpl; [|rewrite run_nil]; intros [= <-]; exact HQ.
  - contradiction.
  - rewrite H. intros [= <-]. exact HQ.
  - rewrite H. discriminate.
Qed.

Lemma instructions_task_sink sv e s : sink (instructions_task sv e s).1 = sink s.
Proof.
  unfold instructions_task, _SurveyDisplayInstructions.
  destruct (String.eqb _ ""); [reflexivity|].
  destruct (status _); destruct (getKeys _ e); reflexivity.
Qed.

Lemma instructions_sink sv envs : forall s s',
  state_of (outcome (run step [TInstructions sv] envs s)) = Some s' -> sink s' = sink s.
Proof.
  induction envs as [|e es IH]; intros s s'; simpl; [intros [= <-]; reflexivity|].
  pose proof (instructions_task_sink sv e s) as Hs.
  destruct (instructions_task sv e s) as [s1 ev]. simpl in *.
  destruct ev; simpl.
  - rewrite run_nil. intros [= <-]. exact Hs.
  - intros H. apply IH in H. congruence.
Qed.

Lemma questions_records qs : forall envs s s',
  state_of (outcome (run step (flat_map iteration qs) envs s)) = Some s' ->
  exists new, sink s' = (sink s ++ new)%list /\
    sublist ((fun c => question_index (call_data c)) <$> new) (q_index <$> qs).
Proof.
  induction qs as [|q qs IH]; intros envs s s'.
  - simpl. rewrite run_nil. intros [= <-]. exists []. rewrite app_nil_r. split; constructor.
  - change (flat_map iteration (q :: qs)) with (iteration q ++ flat_map iteration qs)%list.
    pose proof (run_seq step (flat_map iteration qs) envs (iteration q) s) as H.
    pose proof (iteration_sink q envs s) as HQ.
    assert (Hpart : forall s1, one_record_more q s s1 ->
              exists new, sink s1 = (sink s ++ new)%list /\
                sublist ((fun c => question_index (call_data c)) <$> new)
                        (q_index <$> q :: qs)).
    { intros s1 [H1|(c & H1 & Hc)].
      - exists []. rewrite app_nil_r. split; [exact H1|apply sublist_nil_l].
      - exists [c]. split; [exact H1|]. simpl. rewrite Hc.
        apply sublist_skip, sublist_nil_l. }
    destruct (outcome (run step (iteration q) envs s)) as [s1|s1|s1 w|m].
    + destruct H as [es2 ->]. intros Hs'. apply IH in Hs'.
      destruct Hs' as (new & Hn & Hsub).
      destruct (HQ s1 eq_refl) as [H1|(c & H1 & Hc)].
      * exists new. split; [congruence|]. simpl. apply sublist_cons, Hsub.
      * exists (c :: new). split.
        -- rewrite Hn, H1, <- app_assoc. reflexivity.
        -- simpl. rewrite Hc. apply sublist_skip, Hsub.
    + rewrite H. intros [= <-]. apply Hpart, HQ. reflexivity.
    + rewrite H. intros [= <-]. apply Hpart, HQ. reflexivity.
    + rewrite H. discriminate.
Qed.

(** X17.  The records of a survey run.  In whatever state a run of
    [addSurveyQuestions] stands, the sink holds what it held before,
    followed by records whose question indices are a subsequence of the
    indices of the survey's questions: at most one record per question, in
    the order of the questions. *)
Theorem X17_survey_records_in_order :
  forall (sv : Survey) (envs : list Env) (s s' : State),
    state_of (outcome (addSurveyQuestions sv envs s)) = Some s' ->
    exists new,
      sink s' = (sink s ++ new)%list /\
      sublist (record_indices new) (q_index <$> questions sv).
Proof.
  intros sv envs s s'. unfold addSurveyQuestions, _generateSurveyQuestionsLoop.
  change (TInstructions sv :: flat_map iteration (questions sv))
    with ([TInstructions sv] ++ flat_map iteration (questions sv))%list.
  pose proof (run_seq step (flat_map iteration (questions sv)) envs
                [TInstructions sv] (set_linger (survey_linger sv) s)) as H.
  pose proof (instructions_sink sv envs (set_linger (survey_linger sv) s)) as HI.
  unfold record_indices.
  destruct (outcome (run step [TInstructions sv] envs _)) as [s1|s1|s1 w|m].
  - destruct H as [es2 ->]. intros Hs'. apply questions_records in Hs'.
    destruct Hs' as (new & Hn & Hsub). exists new. split; [|exact Hsub].
    rewrite Hn, (HI s1 eq_refl). reflexivity.
  - rewrite H. intros [= <-]. exists []. rewrite app_nil_r.
    split; [apply (HI s1 eq_refl)|apply sublist_nil_l].
  - rewrite H. intros [= <-]. exists []. rewrite app_nil_r.
    split; [apply (HI s1 eq_refl)|apply sublist_nil_l].
  - rewrite H. discriminate.
Qed.

Lemma X17_survey_records_in_order_witness :
  exists new,
    sink skip_final_state = (sink (initStimuli false) ++ new)%list /\
    sublist (record_indices new) (q_index <$> questions skip_survey).
Proof.
  apply (X17_survey_records_in_order skip_survey skip_polls (initStimuli false)
           skip_final_state).
  vm_compute. reflexivity.
Defined.

End SequencerFacts.

(* ------------------------------------------------------------------ *)
(** ** Invariants of a run *)

Section SchedulerInvariants.
Context {Task State : Type}.
Variable step : Task -> Env -> State -> Exc (State * Event * bool).

(** An invariant of the pending tasks and the state, kept by the tasks
    that do not stop the scheduler, holds where the run stands; a stopped
    run was stopped by a task invoked under the invariant. *)
Lemma run_inv_pending (J : list Task -> State -> Prop) :
  (forall t ts e st st' b, J (t :: ts) st ->
     step t e st = Ok (st', FLIP_REPEAT, b) -> J (t :: ts) st') ->
  (forall t ts e st st', J (t :: ts) st ->
     step t e st = Ok (st', NEXT, false) -> J ts st') ->
  forall envs tasks st, J tasks st ->
    match outcome (run step tasks envs st) with
    | Stopped st' =>
        exists t ts e st0, J (t :: ts) st0 /\ step t e st0 = Ok (st', NEXT, true)
    | Finished st' => J [] st'
    | Waiting st' w => J w st'
    | Threw _ => True
    end.
Proof.
  intros Hrep Hnext envs. induction envs as [|e es IH]; intros tasks st HJ.
  - destruct tasks; simpl; exact HJ.
  - destruct tasks as [|t ts]; simpl; [exact HJ|].
    destruct (step t e st) as [[[s1 ev] b]|m] eqn:E; simpl; [|exact I].
    destruct ev; [destruct b|]; simpl.
    + eauto 8.
    + apply IH. eapply Hnext; eauto.
    + apply IH. eapply Hrep; eauto.
Qed.

(** A run whose tasks keep an invariant under which no task throws does
    not throw. *)
Lemma run_never_throws (J : list Task -> State -> Prop) :
  (forall t ts e st, J (t :: ts) st ->
     match step t e st with
     | Throw _ => False
     | Ok (st', FLIP_REPEAT, _) => J (t :: ts) st'
     | Ok (st', NEXT, _) => J ts st'
     end) ->
  forall envs tasks st m, J tasks st -> outcome (run step tasks envs st) <> Threw m.
Proof.
  intros Hstep envs. induction envs as [|e es IH]; intros tasks st m HJ.
  - destruct tasks; simpl; discriminate.
  - destruct tasks as [|t ts]; simpl; [discriminate|].
    specialize (Hstep t ts e st HJ).
    destruct (step t e st) as [[[s1 ev] b]|m']; simpl; [|contradiction].
    destruct ev; [destruct b|]; simpl.
    + discriminate.
    + apply IH, Hstep.
    + apply IH, Hstep.
Qed.
End SchedulerInvariants.

(* ------------------------------------------------------------------ *)
(** ** Reading the instructions to the end *)

Module ReadingFacts.
Import Instructions InstructionsSpec StepperNotions ReadingNotions.

Lemma press_cases k n i j :
  press k n i = Some j ->
  (k = "n" /\ i < n - 1 /\ j = i + 1)%Z \/
  (k = "b" /\ i > 0 /\ j = i - 1)%Z \/
  (k = "f" /\ i = n - 1 /\ j = -1)%Z.
Proof.
  unfold press. intros H.
  repeat (case_match; simplify_eq);
    repeat match goal with
           | H : _ && _ = true |- _ => apply andb_true_iff in H; destruct H
           | H : bool_decide _ = true |- _ => apply bool_decide_eq_true in H
           end; subst; [left|right; left|right; right]; repeat split; lia.
Qed.

Lemma on_schedule_repeat n name t ts e st st' b :
  on_schedule n name (t :: ts) st ->
  step t e st = Ok (st', FLIP_REPEAT, b) ->
  on_schedule n name (t :: ts) st'.
Proof.
  intros HJ. destruct t; simpl.
  - unfold _InstructionsRoutineBegin. simpl.
    destruct (deref _) as [c|]; simpl; [|discriminate].
    destruct (nth_resource _ _); simpl; discriminate.
  - unfold _InstructionsRoutineEachFrame.
    destruct (getKeys _ e) as [|k ks]; simpl.
    { destruct (slideFinished st); intros [= <- _]; exact HJ. }
    destruct (deref st) as [c|] eqn:D; simpl; [|discriminate].
    destruct (press _ _ _); simpl.
    + rewrite InstructionsFacts.slideFinished_set_currentIndex. simpl. discriminate.
    + destruct (slideFinished st); intros [= <- _]; exact HJ.
  - discriminate.
  - unfold check. destruct (deref st); simpl; discriminate.
Qed.

Lemma on_schedule_next n name t ts e st st' :
  ~ (1 <= n <= MAX_INSTRUCTIONS)%nat ->
  on_schedule n name (t :: ts) st ->
  step t e st = Ok (st', NEXT, false) ->
  on_schedule n name ts st'.
Proof.
  intros Hn (Hall & Hcur & c & Hc & Hlen & H0 & Hle).
  pose proof (Forall_inv_tail Hall) as Hts.
  rewrite InstructionsFacts.frame_tasks_cons in Hle.
  assert (Hhead : forall o : option string, o = Some name ->
            match ts with [] | TBegin _ :: _ => True | _ => o = Some name end).
  { intros o Ho. destruct ts as [|[] ?]; auto. }
  destruct t; simpl.
  - pose proof (Forall_inv Hall _ eq_refl) as ->.
    unfold _InstructionsRoutineBegin. simpl.
    destruct (deref _) as [c1|]; simpl; [|discriminate].
    destruct (nth_resource _ _); simpl; try discriminate.
    intros [= <-]. split; [exact Hts|]. split; [apply Hhead; reflexivity|].
    exists c. simpl. repeat split; auto; simpl in Hle; lia.
  - unfold _InstructionsRoutineEachFrame.
    assert (Hsame : on_schedule n name ts st).
    { split; [exact Hts|]. split; [apply Hhead, Hcur|].
      exists c. repeat split; auto.
      destruct (decide (TEachFrame = TEachFrame)); [|congruence]. lia. }
    destruct (getKeys _ e) as [|k ks]; simpl.
    { destruct (slideFinished st); intros [= <-]; exact Hsame. }
    assert (D : deref st = Ok c).
    { unfold deref. simpl in Hcur. rewrite Hcur, Hc. reflexivity. }
    rewrite D. simpl.
    destruct (press _ _ _) as [j|] eqn:P; simpl.
    2:{ destruct (slideFinished st); intros [= <-]; exact Hsame. }
    rewrite InstructionsFacts.slideFinished_set_currentIndex. simpl.
    intros [= <-]. split; [exact Hts|].
    unfold set_currentIndex, set_slideFinished. simpl in Hcur |- *. rewrite Hcur. simpl.
    split; [apply Hhead; reflexivity|].
    eexists. split; [rewrite lookup_alter_eq, Hc; reflexivity|]. simpl.
    split; [exact Hlen|].
    destruct (decide (TEachFrame = TEachFrame)); [|congruence].
    unfold MAX_INSTRUCTIONS in *.
    destruct (press_cases _ _ _ _ P) as [(_ & ? & ->)|[(_ & ? & ->)|(_ & ? & ->)]]; lia.
  - intros [= <-]. split; [exact Hts|]. simpl in Hcur |- *.
    split; [apply Hhead, Hcur|]. exists c. simpl. repeat split; auto; simpl in Hle; lia.
  - unfold check. destruct (deref st); simpl; [|discriminate].
    intros [= <- _]. split; [exact Hts|]. simpl in Hcur.
    split; [apply Hhead, Hcur|]. exists c. repeat split; auto; simpl in Hle; lia.
Qed.

(** X19.  A run of the instructions is stopped only when there are between
    one and [MAX_INSTRUCTIONS] slides: with more than 200 slides the last
    one is out of reach of the 200 displays, and finish is never taken. *)
Theorem X19_stopped_run_slides :
  forall (res : list Resource) (name : string) (envs : list Env) (st st' : State),
    outcome (addInstructions res name envs st) = Stopped st' ->
    (1 <= length res <= MAX_INSTRUCTIONS)%nat.
Proof.
  intros res name envs st st' O.
  destruct (decide (1 <= length res <= MAX_INSTRUCTIONS)%nat) as [H|Hn]; [exact H|].
  exfalso. unfold addInstructions in O.
  destruct (_generateInstructionsLoop res name st) as [st0 tasks] eqn:G.
  assert (Ht : tasks = concat (replicate MAX_INSTRUCTIONS (iteration name))).
  { unfold _generateInstructionsLoop in G. injection G as _ <-. reflexivity. }
  assert (Hs : instructionsCache st0 !! name = Some (mkInstr res 0)).
  { unfold _generateInstructionsLoop in G. injection G as <- _. apply lookup_insert_eq. }
  clear G.
  assert (HJ : on_schedule (length res) name tasks st0).
  { rewrite Ht. split.
    { apply Forall_concat, Forall_replicate.
      repeat (apply List.Forall_cons; [intros m [=]; auto|]). apply List.Forall_nil. }
    split; [exact I|].
    eexists. split; [exact Hs|]. simpl resources. simpl currentIndex.
    split; [reflexivity|]. split; [lia|].
    rewrite InstructionsFacts.frame_tasks_iterations. lia. }
  pose proof (run_inv_pending step (on_schedule (length res) name)
                (fun t ts e s s' b => on_schedule_repeat _ _ t ts e s s' b)
                (fun t ts e s s' => on_schedule_next _ _ t ts e s s' Hn)
                envs tasks st0 HJ) as Hrun.
  rewrite O in Hrun. destruct Hrun as (t & ts & e & s0 & (_ & Hcur & c & Hc & _ & H0 & _) & Hstep).
  destruct t; simpl in Hstep.
  - destruct (_InstructionsRoutineBegin _ _) as [[? ?]|]; discriminate.
  - destruct (_InstructionsRoutineEachFrame _ _) as [[? ?]|]; discriminate.
  - discriminate.
  - unfold check, deref in Hstep. simpl in Hcur. rewrite Hcur, Hc in Hstep. simpl in Hstep.
    injection Hstep as _ Hb. apply bool_decide_eq_true in Hb. lia.
Qed.

Lemma X19_stopped_run_slides_witness :
  (1 <= length intro_slides <= MAX_INSTRUCTIONS)%nat.
Proof.
  apply (X19_stopped_run_slides intro_slides "intro" (read_through 2) with_consent
           (match outcome (addInstructions intro_slides "intro" (read_through 2)
                             with_consent) with
            | Stopped s => s
            | _ => with_consent
            end)).
  vm_compute. reflexivity.
Defined.


(** One slide display during which the key [k] moves the position. *)
Lemma display_step res name k i j rest es st :
  instructionsCache st !! name = Some (mkInstr res i) ->
  (0 <= i < Z.of_nat (length res))%Z ->
  k ∈ ["b"; "n"; "f"] ->
  press k (Z.of_nat (length res)) i = Some j ->
  exists s1 s2 s3,
    instructionsCache s3 !! name = Some (mkInstr res j) /\
    currInstr s3 = Some name /\
    run step (iteration name ++ rest) (display k ++ es) st =
    logged (TBegin name) s1 (logged TEachFrame s2 (logged TEnd s3
      (if bool_decide (j = (-1)%Z) then mkRun (Stopped s3) [(TCheck, s3)]
       else logged TCheck s3 (run step rest es s3)))).
Proof.
  intros Hc Hi Hk P.
  assert (Hr : exists r, nth_resource res i = Some r).
  { unfold nth_resource. destruct (Z.ltb_spec i 0); [lia|].
    apply lookup_lt_is_Some. lia. }
  destruct Hr as [r Hr].
  set (s1 := mkState (instructionsCache st) (Some name) false (Some (Instructions.name r)) true).
  set (s2 := set_currentIndex (set_slideFinished s1 true) j).
  set (s3 := mkState (instructionsCache s2) (currInstr s2) (slideFinished s2) (image s2) false).
  assert (D1 : deref s1 = Ok (mkInstr res i)).
  { unfold deref. simpl. rewrite Hc. reflexivity. }
  assert (C2 : instructionsCache s2 !! name = Some (mkInstr res j)).
  { unfold s2, set_currentIndex, set_slideFinished. simpl.
    rewrite lookup_alter_eq, Hc. reflexivity. }
  assert (E1 : step (TBegin name) (mkEnv 0 [] false) st = Ok (s1, NEXT, false)).
  { simpl. unfold _InstructionsRoutineBegin, deref. simpl. rewrite Hc. simpl.
    rewrite Hr. reflexivity. }
  assert (E2 : step TEachFrame (mkEnv 0 [k] false) s1 = Ok (s2, NEXT, false)).
  { simpl. unfold _InstructionsRoutineEachFrame.
    replace (getKeys ["b"; "n"; "f"] (mkEnv 0 [k] false)) with [k].
    2:{ unfold getKeys. simpl. rewrite filter_cons, decide_True by exact Hk. reflexivity. }
    rewrite D1. cbn -[set_currentIndex set_slideFinished]. rewrite P.
    cbn -[set_currentIndex set_slideFinished].
    rewrite InstructionsFacts.slideFinished_set_currentIndex. reflexivity. }
  assert (E4 : step TCheck (mkEnv 0 [] false) s3 = Ok (s3, NEXT, bool_decide (j = (-1)%Z))).
  { assert (D3 : deref s3 = Ok (mkInstr res j)).
    { unfold deref. change (currInstr s3) with (Some name). cbv beta iota.
      change (instructionsCache s3) with (instructionsCache s2). rewrite C2. reflexivity. }
    change (step TCheck (mkEnv 0 [] false) s3) with (check s3).
    unfold check. rewrite D3. reflexivity. }
  exists s1, s2, s3. split; [exact C2|]. split; [reflexivity|].
  unfold display, iteration.
  change (run step ([TBegin name; TEachFrame; TEnd; TCheck] ++ rest)
            ([mkEnv 0 [] false; mkEnv 0 [k] false; mkEnv 0 [] false; mkEnv 0 [] false] ++ es) st)
    with (match step (TBegin name) (mkEnv 0 [] false) st with
          | Throw m => mkRun (Threw m) []
          | Ok (st', FLIP_REPEAT, _) =>
              run step (TBegin name :: TEachFrame :: TEnd :: TCheck :: rest)
                  (mkEnv 0 [k] false :: mkEnv 0 [] false :: mkEnv 0 [] false :: es) st'
          | Ok (st', NEXT, true) => mkRun (Stopped st') [(TBegin name, st')]
          | Ok (st', NEXT, false) =>
              logged (TBegin name) st'
                (run step (TEachFrame :: TEnd :: TCheck :: rest)
                     (mkEnv 0 [k] false :: mkEnv 0 [] false :: mkEnv 0 [] false :: es) st')
          end).
  rewrite E1. f_equal.
  change (run step (TEachFrame :: TEnd :: TCheck :: rest)
            (mkEnv 0 [k] false :: mkEnv 0 [] false :: mkEnv 0 [] false :: es) s1)
    with (match step TEachFrame (mkEnv 0 [k] false) s1 with
          | Throw m => mkRun (Threw m) []
          | Ok (st', FLIP_REPEAT, _) =>
              run step (TEachFrame :: TEnd :: TCheck :: rest)
                  (mkEnv 0 [] false :: mkEnv 0 [] false :: es) st'
          | Ok (st', NEXT, true) => mkRun (Stopped st') [(TEachFrame, st')]
          | Ok (st', NEXT, false) =>
              logged TEachFrame st'
                (run step (TEnd :: TCheck :: rest) (mkEnv 0 [] false :: mkEnv 0 [] false :: es) st')
          end).
  rewrite E2. f_equal.
  change (run step (TEnd :: TCheck :: rest) (mkEnv 0 [] false :: mkEnv 0 [] false :: es) s2)
    with (logged TEnd s3
            (match step TCheck (mkEnv 0 [] false) s3 with
             | Throw m => mkRun (Threw m) []
             | Ok (st', FLIP_REPEAT, _) => run step (TCheck :: rest) es st'
             | Ok (st', NEXT, true) => mkRun (Stopped st') [(TCheck, st')]
             | Ok (st', NEXT, false) => logged TCheck st' (run step rest es st')
             end)).
  rewrite E4. destruct (bool_decide (j = (-1)%Z)); reflexivity.
Qed.

(** Next on every slide up to the last, then finish. *)
Lemma read_on res name : forall (k : nat) (i : Z) (m : nat) (st : State),
  instructionsCache st !! name = Some (mkInstr res i) ->
  (0 <= i)%Z -> (i + Z.of_nat k = Z.of_nat (length res) - 1)%Z ->
  let r := run step (concat (replicate (S k + m) (iteration name)))
               (concat (replicate k (display "n")) ++ display "f") st in
  (exists st', outcome r = Stopped st' /\ position st' = Some sentinel) /\
  length (filter (fun c => c.1 = TEachFrame) (completed r)) = S k.
Proof.
  induction k as [|k IH]; intros i m st Hc H0 Hk r; subst r.
  - change (concat (replicate (1 + m) (iteration name)))
      with (iteration name ++ concat (replicate m (iteration name)))%list.
    change (concat (replicate 0 (display "n")) ++ display "f")%list
      with (display "f" ++ [])%list.
    destruct (display_step res name "f" i (-1) (concat (replicate m (iteration name))) [] st Hc)
      as (s1 & s2 & s3 & C3 & N3 & ->).
    + lia.
    + apply list_elem_of_In. simpl. auto.
    + unfold press. simpl. replace (i =? Z.of_nat (length res) - 1)%Z with true
        by (symmetry; apply Z.eqb_eq; lia). reflexivity.
    + rewrite bool_decide_eq_true_2 by reflexivity. split.
      * exists s3. split; [reflexivity|].
        unfold position, deref. rewrite N3, C3. reflexivity.
      * unfold logged. cbn [completed].
        rewrite filter_cons_False by (simpl; congruence).
        rewrite filter_cons_True by reflexivity.
        rewrite !filter_cons_False by (simpl; congruence).
        reflexivity.
  - change (concat (replicate (S (S k) + m) (iteration name)))
      with (iteration name ++ concat (replicate (S k + m) (iteration name)))%list.
    change (concat (replicate (S k) (display "n")) ++ display "f")%list
      with (display "n" ++ (concat (replicate k (display "n")) ++ display "f"))%list.
    destruct (display_step res name "n" i (i + 1)
                (concat (replicate (S k + m) (iteration name)))
                (concat (replicate k (display "n")) ++ display "f")%list st Hc)
      as (s1 & s2 & s3 & C3 & N3 & ->).
    + lia.
    + apply list_elem_of_In. simpl. auto.
    + unfold press. simpl. replace (i <? Z.of_nat (length res) - 1)%Z with true
        by (symmetry; apply Z.ltb_lt; lia). reflexivity.
    + destruct (IH (i + 1)%Z m s3 C3) as [(st' & O & Hp) Hn]; [lia|lia|].
      rewrite bool_decide_eq_false_2 by lia.
      split.
      * exists st'. split; [exact O|exact Hp].
      * unfold logged. cbn [completed].
        rewrite filter_cons_False by (simpl; congruence).
        rewrite filter_cons_True by reflexivity.
        rewrite !filter_cons_False by (simpl; congruence).
        cbn [length]. rewrite Hn. reflexivity.
Qed.

(** X18.  Instructions of one to 200 slides can be read to the end: with
    next pressed on every slide but the last and finish on the last, the
    run is stopped at the sentinel position after as many navigation steps
    as there are slides. *)
Theorem X18_read_through_finishes :
  forall (res : list Resource) (name : string) (st : State),
    (1 <= length res <= MAX_INSTRUCTIONS)%nat ->
    let r := addInstructions res name (read_through (length res)) st in
    (exists st', outcome r = Stopped st' /\ position st' = Some sentinel) /\
    navigations r = length res.
Proof.
  intros res name st Hlen r. subst r. unfold addInstructions, navigations.
  destruct (_generateInstructionsLoop res name st) as [st0 tasks] eqn:G.
  assert (Ht : tasks = concat (replicate MAX_INSTRUCTIONS (iteration name))).
  { unfold _generateInstructionsLoop in G. injection G as _ <-. reflexivity. }
  assert (Hs : instructionsCache st0 !! name = Some (mkInstr res 0)).
  { unfold _generateInstructionsLoop in G. injection G as <- _. apply lookup_insert_eq. }
  clear G. rewrite Ht. unfold read_through.
  replace MAX_INSTRUCTIONS with (S (length res - 1) + (MAX_INSTRUCTIONS - length res))%nat by lia.
  destruct (read_on res name (length res - 1) 0 (MAX_INSTRUCTIONS - length res) st0 Hs)
    as [Ho Hn]; [lia|lia|].
  split; [exact Ho|]. rewrite Hn. lia.
Qed.

Lemma X18_read_through_finishes_witness :
  (exists st', outcome (addInstructions intro_slides "intro" (read_through 2) with_consent)
               = Stopped st' /\ position st' = Some sentinel) /\
  navigations (addInstructions intro_slides "intro" (read_through 2) with_consent) = 2%nat.
Proof.
  apply (X18_read_through_finishes intro_slides "intro" with_consent).
  unfold MAX_INSTRUCTIONS. simpl. lia.
Defined.

End ReadingFacts.

(* ------------------------------------------------------------------ *)
(** ** Surveys that do not throw *)

Module SafetyFacts.
Import SurveyQuestions SurveySpec SequencerNotions SafetyNotions.

Lemma complete_unfold i :
  complete i = inputs_present i &&
               forallb (fun e => complete (specify_input e)) (input_specify i).
Proof.
  assert (E : forall l,
    (fix entries (l : list SpecifyEntry) : bool :=
       match l with
       | [] => true
       | mkSpecify _ _ i' :: l' => complete i' && entries l'
       end) l = forallb (fun e => complete (specify_input e)) l).
  { induction l as [|[k q i'] l IH]; [reflexivity|]. simpl. rewrite <- IH. reflexivity. }
  destruct i as [[inputs|] [sp|] sk|kl ml [sp|]]; simpl; rewrite ?E; reflexivity.
Qed.

Lemma complete_inv i :
  complete i = true ->
  inputs_present i = true /\ follow_ups_complete (input_specify i).
Proof.
  rewrite complete_unfold. intros H. apply andb_true_iff in H as [H1 H2].
  split; [exact H1|]. unfold follow_ups_complete.
  apply List.Forall_forall. intros e He. rewrite forallb_forall in H2. apply H2, He.
Qed.

Lemma find_complete (p : SpecifyEntry -> bool) l :
  follow_ups_complete l ->
  match specify_of (mkBehavior JNull (find p l) None) with
  | SpecEmptyObject => False
  | SpecUndefined => True
  | SpecEntry e => complete (specify_input e) = true
  end.
Proof.
  intros H. unfold specify_of. simpl. destruct (find p l) as [e|] eqn:F; [|exact I].
  apply find_some in F. destruct F as [Hin _].
  unfold follow_ups_complete in H. rewrite List.Forall_forall in H. apply H, Hin.
Qed.

(** A complete input is built without error, and the input built has
    complete follow-ups. *)
Lemma build_complete text i s :
  complete i = true ->
  exists ci, _buildLoopStimuli text i s = Ok (set_currentInput (Some ci) (set_question_text text s)) /\
    follow_ups_complete (Input_specify ci).
Proof.
  intros H. destruct (complete_inv _ H) as [Hp Hf].
  destruct i as [[l|] sp sk|kl ml sp]; simpl in *; try discriminate.
  - eexists. split; [reflexivity|]. exact Hf.
  - eexists. split; [reflexivity|]. exact Hf.
Qed.


Lemma record_answer_ready c b env s :
  is_Some (specify (currentData s)) ->
  exists d, record_answer c b env s = Ok (set_currentData d s) /\ is_Some (specify d).
Proof.
  intros [l Hl]. unfold record_answer. destruct (loose_eq _ _).
  - eexists. split; [reflexivity|]. simpl. rewrite Hl. eauto.
  - rewrite Hl. eexists. split; [reflexivity|]. simpl. eauto.
Qed.

Lemma optionSelected_specify d k st :
  DiscreteInput.stimuli d !! k = Some st ->
  exists d' b,
    DiscreteInput.optionSelected (Some k) d = Ok (d', b) /\
    DiscreteInput.specify d' = DiscreteInput.specify d /\
    b_specify b = find (fun el => String.eqb (specify_key el) k) (DiscreteInput.specify d).
Proof.
  intros H. unfold DiscreteInput.optionSelected.
  destruct (String.eqb _ "isolate"); simpl.
  - rewrite lookup_fmap, H. simpl. eexists _, _. split; [reflexivity|]. split; reflexivity.
  - rewrite H. eexists _, _. split; [reflexivity|]. split; reflexivity.
Qed.

Lemma specify_of_complete b l p :
  b_specify b = find p l -> follow_ups_complete l ->
  match specify_of b with
  | SpecEmptyObject => False
  | SpecUndefined => True
  | SpecEntry e => complete (specify_input e) = true
  end.
Proof.
  intros Hb H. pose proof (find_complete p l H) as F.
  unfold specify_of in *. simpl in F. rewrite Hb. exact F.
Qed.

Lemma take_discrete_ready k env s d :
  currentInput s = Some (Discrete d) ->
  k ∈ DiscreteInput.getKeys d ->
  follow_ups_complete (DiscreteInput.specify d) ->
  is_Some (specify (currentData s)) ->
  exists s', take_discrete k env s = Ok s' /\ loop_ready s'.
Proof.
  intros Hci Hk Hf Hsp.
  apply DiscreteFacts.getKeys_lookup in Hk. destruct Hk as [st Hst].
  destruct (optionSelected_specify d k st Hst) as (d' & b & Hsel & Hsame & Hb).
  unfold take_discrete. rewrite Hci. simpl. rewrite Hsel. simpl.
  destruct (record_answer_ready (JStr k) b env (set_currentInput (Some (Discrete d')) s))
    as (dd & -> & Hdd); [exact Hsp|]. simpl.
  eexists. split; [reflexivity|].
  right. right. exists (Discrete d').
  split; [destruct (b_skip b); reflexivity|].
  split; [simpl; rewrite Hsame; exact Hf|].
  split; [destruct (b_skip b); exact Hdd|].
  split; [eauto|].
  split; [destruct (b_skip b); simpl; discriminate|].
  intros _. replace (specify_next _) with (specify_of b) by (destruct (b_skip b); reflexivity).
  eapply specify_of_complete; eauto.
Qed.

Lemma take_continuous_ready env s c :
  currentInput s = Some (Continuous c) ->
  follow_ups_complete (ContinuousInput.specify c) ->
  is_Some (specify (currentData s)) ->
  exists s', take_continuous env s = Ok s' /\ loop_ready s'.
Proof.
  intros Hci Hf Hsp. unfold take_continuous. rewrite Hci. simpl.
  destruct (record_answer_ready JUndefined (ContinuousInput.optionSelected c) env
              (set_currentInput (Some (Continuous c)) s)) as (dd & -> & Hdd); [exact Hsp|].
  simpl. eexists. split; [reflexivity|].
  right. right. exists (Continuous c).
  split; [reflexivity|]. split; [exact Hf|]. split; [exact Hdd|].
  split; [simpl; discriminate|]. split; [eauto|].
  intros _. simpl. eapply specify_of_complete; [reflexivity|exact Hf].
Qed.

Lemma for_key_of_ready input env : forall keys s c,
  keys = [] \/ is_Some (head input) ->
  survey_run_status s <> SURVEY_SKIPPING ->
  trialStage s = TAKING_CONTINUOUS ->
  currentInput s = Some (Continuous c) ->
  follow_ups_complete (ContinuousInput.specify c) ->
  is_Some (specify (currentData s)) ->
  exists s', for_key_of input keys env s = Ok s' /\ loop_ready s'.
Proof.
  induction keys as [|k keys IH]; intros s c Hin Hst Hstage Hci Hf Hsp.
  - simpl. exists s. split; [reflexivity|]. right. right. exists (Continuous c).
    split; [exact Hci|]. split; [exact Hf|]. split; [exact Hsp|].
    split; [rewrite Hstage; discriminate|]. split; [eauto|].
    rewrite Hstage. discriminate.
  - destruct Hin as [Hin|[k0 Hk0]]; [discriminate|].
    simpl. rewrite Hk0.
    destruct (String.eqb k0 "return" || String.eqb k0 "enter").
    + eapply take_continuous_ready; eauto.
    + rewrite Hci. simpl.
      apply (IH _ (ContinuousInput.keyIn k0 c)); simpl; eauto.
      unfold ContinuousInput.keyIn, ContinuousInput.set_text.
      repeat (case_match; simpl); exact Hf.
Qed.

(** Invoked in a ready state, the loop does not throw and, when it is to
    be invoked again, leaves a ready state. *)
Lemma Loop_ready env s :
  loop_ready s ->
  exists s' ev, _SurveyQuestionLoop env s = Ok (s', ev) /\
    (ev = FLIP_REPEAT -> loop_ready s').
Proof.
  intros H.
  destruct (decide (survey_run_status s = SURVEY_SKIPPING)) as [Hs|Hs].
  { unfold _SurveyQuestionLoop. rewrite Hs. eexists _, _. split; [reflexivity|discriminate]. }
  rewrite (SurveyFacts.Loop_unfold env s Hs).
  destruct H as [H|[H|(ci & Hci & Hf & Hsp & H1 & H2 & H3)]]; [contradiction| |].
  { unfold TAKING_DISCRETE, TAKING_CONTINUOUS, DISPLAY_RESPONSE.
    destruct (Z.eqb_spec (trialStage s) 0); [lia|].
    destruct (Z.eqb_spec (trialStage s) 1); [lia|].
    destruct (Z.eqb_spec (trialStage s) 2); [lia|].
    destruct (Z.eqb_spec (trialStage s) 3); [lia|].
    eexists _, _. split; [reflexivity|discriminate]. }
  destruct (Z.eqb_spec (trialStage s) 0) as [E0|E0].
  { change (currentInput (question_setAutoDraw true s)) with (currentInput s).
    rewrite Hci. eexists _, _. split; [reflexivity|]. intros _.
    right. right. exists (Input_setAutoDraw true ci).
    split; [reflexivity|].
    split; [destruct ci; exact Hf|]. split; [exact Hsp|].
    split; [|split].
    - destruct ci; simpl; [eauto|discriminate].
    - destruct ci; simpl; [discriminate|eauto].
    - destruct ci; simpl; discriminate. }
  destruct (Z.eqb_spec (trialStage s) TAKING_DISCRETE) as [E1|E1].
  { rewrite Hci. destruct (H1 E1) as [d ->].
    destruct (getKeys _ env) as [|k ks] eqn:K.
    - eexists _, _. split; [reflexivity|]. intros _.
      right. right. exists (Discrete d). auto 10.
    - apply SequencerFacts.getKeys_head in K. destruct K as [Hk _].
      destruct (take_discrete_ready k env s d Hci Hk Hf Hsp) as (s' & -> & Hr).
      simpl. eexists _, _. split; [reflexivity|]. auto. }
  destruct (Z.eqb_spec (trialStage s) TAKING_CONTINUOUS) as [E2|E2].
  { rewrite Hci. destruct (H2 E2) as [c ->].
    destruct (for_key_of_ready (getKeys (Input_getKeys (Continuous c)) env) env
                (getKeys (Input_getKeys (Continuous c)) env) s c) as (s' & -> & Hr); auto.
    { destruct (getKeys _ env); [left; reflexivity|right; simpl; eauto]. }
    simpl. eexists _, _. split; [reflexivity|]. auto. }
  destruct (Z.eqb_spec (trialStage s) DISPLAY_RESPONSE) as [E3|E3].
  { destruct (Qle_bool _ _).
    2:{ eexists _, _. split; [reflexivity|]. intros _.
        right. right. exists ci. auto 10. }
    unfold end_display. rewrite Hci. simpl. specialize (H3 E3).
    destruct (specify_next s) as [| |e] eqn:N; [contradiction| |].
    - simpl. eexists _, _. split; [reflexivity|]. intros _.
      right. left. left. destruct (negb _); simpl; lia.
    - destruct (build_complete (specify_question e) (specify_input e)
                  (set_currentInput (Some (Input_reset ci)) s) H3) as (ci' & -> & Hf').
      simpl. eexists _, _. split; [reflexivity|]. intros _.
      right. right. exists ci'. split; [reflexivity|]. split; [exact Hf'|].
      split; [exact Hsp|]. simpl. repeat split; discriminate. }
  eexists _, _. split; [reflexivity|discriminate].
Qed.

(** A complete question begins without error and ready for its loop. *)
Lemma Begin_ready q env s :
  complete (q_input q) = true ->
  exists s', _SurveyQuestionBegin q env s = Ok (s', NEXT) /\ loop_ready s'.
Proof.
  intros H. unfold _SurveyQuestionBegin.
  assert (Hb : forall x, is_Some (specify (currentData x)) -> trialStage x = 0%Z ->
            exists s', _buildLoopStimuli (q_question q) (q_input q) x = Ok s' /\ loop_ready s').
  { intros x Hx H0. destruct (build_complete (q_question q) (q_input q) x H) as (ci & -> & Hf).
    eexists. split; [reflexivity|]. right. right. exists ci.
    split; [reflexivity|]. split; [exact Hf|]. split; [exact Hx|].
    simpl. rewrite H0. repeat split; discriminate. }
  destruct (survey_run_status s) eqn:S; simpl.
  2:{ destruct (loose_eq _ _); simpl.
      - match goal with
        | |- context [_buildLoopStimuli ?t ?i ?x] =>
            destruct (Hb x) as (s' & -> & Hr); [simpl; eauto|reflexivity|]
        end.
        simpl. eauto.
      - exists s. split; [reflexivity|]. left. exact S. }
  all: match goal with
       | |- context [_buildLoopStimuli ?t ?i ?x] =>
           destruct (Hb x) as (s' & -> & Hr); [simpl; eauto|reflexivity|]
       end; simpl; eauto.
Qed.

Lemma iteration_never_throws q envs s m :
  complete (q_input q) = true ->
  outcome (run step (iteration q) envs s) <> Threw m.
Proof.
  intros H. apply (run_never_throws step (question_ready q)); [|left; reflexivity].
  intros t ts e st [HJ|[[HJ Hr]|[HJ|[HJ|HJ]]]]; try discriminate;
    injection HJ as -> ->; simpl.
  - destruct (Begin_ready q e st H) as (s' & -> & Hr). simpl.
    right. left. split; [reflexivity|exact Hr].
  - destruct (Loop_ready e st Hr) as (s' & ev & -> & Hr'). simpl.
    destruct ev.
    + right. right. left. reflexivity.
    + right. left. split; [reflexivity|]. apply Hr'. reflexivity.
  - unfold _SurveyQuestionEnd. destruct (survey_run_status st); simpl;
      right; right; right; left; reflexivity.
  - right. right. right. right. reflexivity.
Qed.

Lemma questions_never_throw qs : forall envs s m,
  Forall (fun q => complete (q_input q) = true) qs ->
  outcome (run step (flat_map iteration qs) envs s) <> Threw m.
Proof.
  induction qs as [|q qs IH]; intros envs s m Hall.
  - simpl. rewrite run_nil. discriminate.
  - change (flat_map iteration (q :: qs)) with (iteration q ++ flat_map iteration qs)%list.
    pose proof (run_seq step (flat_map iteration qs) envs (iteration q) s) as H.
    pose proof (fun m' => iteration_never_throws q envs s m' (Forall_inv Hall)) as HQ.
    destruct (outcome (run step (iteration q) envs s)) as [s1|s1|s1 w|m'].
    + destruct H as [es2 ->]. apply IH. eapply Forall_inv_tail, Hall.
    + rewrite H. discriminate.
    + rewrite H. discriminate.
    + exfalso. apply (HQ m'). reflexivity.
Qed.

(** X20.  A survey whose discrete inputs all have their option list, those
    of the follow-up questions included, is run without a TypeError,
    whatever the state it starts from and whatever keys are pressed. *)
Theorem X20_complete_survey_never_throws :
  forall (sv : Survey) (envs : list Env) (s : State) (m : string),
    Forall (fun q => complete (q_input q) = true) (questions sv) ->
    outcome (addSurveyQuestions sv envs s) <> Threw m.
Proof.
  intros sv envs s m Hall. unfold addSurveyQuestions, _generateSurveyQuestionsLoop.
  generalize (set_linger (survey_linger sv) s). clear s.
  induction envs as [|e es IH]; intros s; [simpl; discriminate|].
  simpl. destruct (instructions_task sv e s) as [s1 ev]. destruct ev; simpl.
  - apply questions_never_throw, Hall.
  - apply IH.
Qed.

Lemma X20_complete_survey_never_throws_witness :
  outcome (addSurveyQuestions text_survey text_polls (initStimuli false)) <> Threw "TypeError".
Proof.
  apply (X20_complete_survey_never_throws text_survey text_polls (initStimuli false)
           "TypeError").
  repeat (apply List.Forall_cons; [reflexivity|]). apply List.Forall_nil.
Defined.

End SafetyFacts.

(* ------------------------------------------------------------------ *)
(** ** Questions passed over *)

Module SkipFacts.
Import SurveyQuestions SurveySpec SequencerNotions.

(** While a question is passed over, each of its tasks returns at once
    and leaves the state as it is. *)
Lemma step_passed_over t e s :
  entirely_skipped s = true ->
  (forall sv, t <> TInstructions sv) ->
  exists b, step t e s = Ok (s, NEXT, b).
Proof.
  unfold entirely_skipped. intros H Ht.
  destruct (survey_run_status s) eqn:S; try discriminate.
  destruct t; simpl.
  - exfalso. eapply Ht. reflexivity.
  - unfold _SurveyQuestionBegin. rewrite S.
    destruct (loose_eq _ _); [discriminate|]. simpl. eauto.
  - unfold _SurveyQuestionLoop. rewrite S. simpl. eauto.
  - unfold _SurveyQuestionEnd. rewrite S. eauto.
  - eauto.
Qed.

Lemma run_passed_over envs : forall tasks s,
  entirely_skipped s = true ->
  Forall (fun t => forall sv, t <> TInstructions sv) tasks ->
  state_of (outcome (run step tasks envs s)) = Some s /\
  Forall (fun c => c.2 = s) (completed (run step tasks envs s)).
Proof.
  induction envs as [|e es IH]; intros tasks s H Ht.
  - destruct tasks; simpl; split; auto.
  - destruct tasks as [|t ts]; simpl; [split; auto|].
    destruct (step_passed_over t e s H (Forall_inv Ht)) as [b ->].
    destruct b; simpl.
    + split; [reflexivity|]. repeat constructor.
    + destruct (IH ts s H (Forall_inv_tail Ht)) as [H1 H2].
      split; [exact H1|]. constructor; [reflexivity|exact H2].
Qed.

(** X21.  A question that is passed over leaves the module as it is, so
    every later question is passed over too: from a state in which the
    module is skipping and the skip test fails, the tasks of any questions
    run without error, every completed task leaves that state, and the run
    stands in it; nothing more reaches the sink. *)
Theorem X21_skipping_passes_over_the_rest :
  forall (qs : list QuestionSpec) (envs : list Env) (s : State),
    entirely_skipped s = true ->
    state_of (outcome (run step (flat_map iteration qs) envs s)) = Some s /\
    Forall (fun c => c.2 = s) (completed (run step (flat_map iteration qs) envs s)).
Proof.
  intros qs envs s H. apply run_passed_over; [exact H|].
  induction qs as [|q qs IH]; simpl; [constructor|].
  repeat (constructor; [discriminate|]). exact IH.
Qed.

Lemma X21_skipping_passes_over_the_rest_witness :
  state_of (outcome (run step (flat_map iteration (questions skip_survey))
                         (drop 9 skip_polls) skip_final_state)) = Some skip_final_state /\
  Forall (fun c => c.2 = skip_final_state)
         (completed (run step (flat_map iteration (questions skip_survey))
                         (drop 9 skip_polls) skip_final_state)).
Proof.
  apply (X21_skipping_passes_over_the_rest (questions skip_survey) (drop 9 skip_polls)
           skip_final_state).
  vm_compute. reflexivity.
Defined.

End SkipFacts.
